(** * Lifetime imaging in actinic light: the RLD manager and its GUI glue

    A shallow embedding of [RLD_manager.py] (class [RLD], dataclass
    [ImagingParameters]) and of the parts of [main.py] that prepare its
    inputs (the spin-box snapping and the settings writer), that save and
    load a measurement folder, and that show the value under the mouse
    ([ImageLabel.mouseMoveEvent]); and of the callbacks of
    [usb_watcher.py].

    Conventions of the embedding.
    - Python [int] is [Z].  A Python [float] is modelled by the rational
      it denotes ([Q]); its arithmetic is exact, i.e. binary64 rounding is
      not modelled.  A dataclass field annotated [float] may hold an [int]
      at run time (the legacy loader stores [getint] results there), hence
      the tagged type [pynum].
    - numpy [float64] pixels are extended reals with a NaN ([npfloat]), so
      that [np.log] is the real logarithm; rounding, overflow and signed
      zeros are not modelled.
    - a raised exception is the [Raise] outcome of [result]. *)

From Stdlib Require Import ZArith QArith Qround Reals Qreals Psatz Bool List.
From Stdlib Require Import Permutation.
From Stdlib Require Import Ascii String DecimalString DecimalN DecimalPos.
Import ListNotations.

Local Open Scope Z_scope.

(* ================================================================== *)
(** ** Python values and their text *)

(** Exceptions are identified by their class name. *)
Inductive exn : Type := Exn (name : string).

Definition TypeError : exn := Exn "TypeError".
Definition ValueError : exn := Exn "ValueError".
Definition ParsingError : exn := Exn "ParsingError".
Definition Xi_error : exn := Exn "Xi_error".

Inductive result (A : Type) : Type :=
| Ok (a : A)
| Raise (e : exn).
Arguments Ok {A} a.
Arguments Raise {A} e.

Definition bind {A B} (m : result A) (k : A -> result B) : result B :=
  match m with
  | Ok a => k a
  | Raise e => Raise e
  end.

(** A number held by a dataclass field: [int] or [float]. *)
Inductive pynum : Type :=
| PyInt (z : Z)
| PyFloat (q : Q).

Definition num_val (n : pynum) : Q :=
  match n with
  | PyInt z => inject_Z z
  | PyFloat q => q
  end.

(** [a - b] and [a + b] of Python: [int] only when both operands are. *)
Definition py_sub (a b : pynum) : pynum :=
  match a, b with
  | PyInt x, PyInt y => PyInt (x - y)
  | _, _ => PyFloat (num_val a - num_val b)
  end.

Definition py_add (a b : pynum) : pynum :=
  match a, b with
  | PyInt x, PyInt y => PyInt (x + y)
  | _, _ => PyFloat (num_val a + num_val b)
  end.

(** [value == -1], numerically, across [int] and [float]. *)
Definition is_minus_one (n : pynum) : bool := Qeq_bool (num_val n) (-1 # 1).

(** *** [str(int)] and [int(str)] *)

Definition str_nat (n : N) : string := NilZero.string_of_uint (N.to_uint n).

Definition str_int (z : Z) : string :=
  if z <? 0 then String "-" (str_nat (Z.abs_N z)) else str_nat (Z.to_N z).

Definition nat_of_digits (s : string) : option N :=
  option_map N.of_uint (NilZero.uint_of_string s).

(** [int(s)] on the text configparser hands over (already stripped):
    an optional sign and decimal digits.  [None] stands for ValueError.
    Python also accepts digit-group underscores and non-ASCII digits and
    refuses more than 4300 digits: this is [int()] on the texts
    [plain_text] admits. *)
Definition py_int (s : string) : option Z :=
  match s with
  | EmptyString => None
  | String c s' =>
      if Ascii.eqb c "-" then option_map (fun n => - Z.of_N n) (nat_of_digits s')
      else if Ascii.eqb c "+" then option_map Z.of_N (nat_of_digits s')
      else option_map Z.of_N (nat_of_digits s)
  end.

(** *** [str(float)] and [float(str)] *)

Definition digit_char (d : Z) : ascii := ascii_of_N (48 + Z.to_N d).

Definition digit_of_char (c : ascii) : option Z :=
  let n := Z.of_N (N_of_ascii c) in
  if (48 <=? n) && (n <=? 57) then Some (n - 48) else None.

(** Long division of [r/d] ([0 <= r < d]) into decimal digits; stops when
    the remainder vanishes. *)
Fixpoint frac_digits (fuel : nat) (r d : Z) : string :=
  match fuel with
  | O => EmptyString
  | S k =>
      if r =? 0 then EmptyString
      else String (digit_char (10 * r / d)) (frac_digits k ((10 * r) mod d) d)
  end.

(** The remainder left once [fuel] digits are written. *)
Fixpoint frac_rest (fuel : nat) (r d : Z) : Z :=
  match fuel with
  | O => r
  | S k => if r =? 0 then 0 else frac_rest k ((10 * r) mod d) d
  end.

Definition frac_fuel (d : positive) : nat := Pos.size_nat d.

(** [str(x)] for a float in positional notation: sign, integer digits, a
    point and the fraction digits (["0"] when there are none), as Python
    prints values such as [2.5], [41.75] or [40.0].  Python prints the
    shortest text that reads back to the float, with an exponent below
    1e-4 and from 1e16 on: the text here is Python's for the short dyadic
    values of the statements that quote it, and everywhere a text that
    reads back to the same value. *)
Definition str_float (q : Q) : string :=
  let d := Zpos (Qden q) in
  let a := Z.abs (Qnum q) in
  let fr := frac_digits (frac_fuel (Qden q)) (a mod d) d in
  let sign := if Qnum q <? 0 then "-"%string else EmptyString in
  let ip := str_nat (Z.to_N (a / d)) in
  let fp := if (a mod d) =? 0 then "0"%string else fr in
  (sign ++ ip ++ "." ++ fp)%string.

(** The float has an exact positional text: the division terminates
    within the digits written.  Every dyadic rational [n / 2^k], i.e. the
    value of every binary float, has one ([dyadic_text_exact] below). *)
Definition decimal_text_exact (q : Q) : bool :=
  frac_rest (frac_fuel (Qden q)) (Z.abs (Qnum q) mod Zpos (Qden q)) (Zpos (Qden q)) =? 0.

Definition str_num (n : pynum) : string :=
  match n with
  | PyInt z => str_int z
  | PyFloat q => str_float q
  end.

(** Value of a digit string read left to right, [None] on a non-digit. *)
Fixpoint digits_value (acc : Z) (s : string) : option Z :=
  match s with
  | EmptyString => Some acc
  | String c s' =>
      match digit_of_char c with
      | Some d => digits_value (10 * acc + d) s'
      | None => None
      end
  end.

(** Splits at the first ['.']: the part before it and, when there is a
    point, the part after it. *)
Fixpoint split_dot (s : string) : string * option string :=
  match s with
  | EmptyString => (EmptyString, None)
  | String c s' =>
      if Ascii.eqb c "." then (EmptyString, Some s')
      else let (a, b) := split_dot s' in (String c a, b)
  end.

Fixpoint pow10 (n : nat) : positive :=
  match n with
  | O => 1%positive
  | S k => (10 * pow10 k)%positive
  end.

(** Unsigned decimal: digits, optionally a point and digits, at least one
    digit in all. *)
Definition unsigned_float (s : string) : option Q :=
  let (ip, fp) := split_dot s in
  let fs := match fp with Some f => f | None => EmptyString end in
  if ((String.length ip =? 0)%nat && (String.length fs =? 0)%nat)%bool then None
  else
    match NilEmpty.uint_of_string ip, digits_value 0 fs with
    | Some i, Some f =>
        Some (inject_Z (Z.of_N (N.of_uint i)) + Qmake f (pow10 (String.length fs)))%Q
    | _, _ => None
    end.

(** [float(s)] on plain decimal text, [None] for ValueError.  Python also
    accepts exponents, [inf], [nan] and digit-group underscores, and it
    rounds the number to binary64: this is [float()] on the texts
    [plain_text] admits, and the number returned is the float when it is
    [binary64_exact]. *)
Definition py_float (s : string) : option Q :=
  match s with
  | EmptyString => None
  | String c s' =>
      if Ascii.eqb c "-" then option_map Qopp (unsigned_float s')
      else if Ascii.eqb c "+" then unsigned_float s'
      else unsigned_float s
  end.

(** A decimal digit character. *)
Definition is_digit (c : ascii) : bool :=
  match digit_of_char c with Some _ => true | None => false end.

Fixpoint all_digits (s : string) : bool :=
  match s with
  | EmptyString => true
  | String c s' => is_digit c && all_digits s'
  end.

(* ================================================================== *)
(** ** [ImagingParameters] *)

Record ImagingParameters : Type := mkParams {
  sets_to_acquire : Z;
  exposure_time_us : Z;
  delay_window1_us : pynum;
  delay_window2_us : pynum;
  pulse_width_us : pynum;
  exposures_per_frame : Z;
  end_delay_us : Z;
  light_intensity : Z
}.

(** [ImagingParameters()]: the dataclass defaults. *)
Definition default_params : ImagingParameters :=
  {| sets_to_acquire := 3;
     exposure_time_us := 20;
     delay_window1_us := PyFloat (5 # 2);
     delay_window2_us := PyFloat (45 # 2);
     pulse_width_us := PyFloat (40 # 1);
     exposures_per_frame := 10;
     end_delay_us := 33;
     light_intensity := 100 |}.

Definition set_sets_to_acquire (v : Z) (p : ImagingParameters) :=
  mkParams v (exposure_time_us p) (delay_window1_us p) (delay_window2_us p)
    (pulse_width_us p) (exposures_per_frame p) (end_delay_us p) (light_intensity p).
Definition set_exposure_time_us (v : Z) (p : ImagingParameters) :=
  mkParams (sets_to_acquire p) v (delay_window1_us p) (delay_window2_us p)
    (pulse_width_us p) (exposures_per_frame p) (end_delay_us p) (light_intensity p).
Definition set_delay_window1_us (v : pynum) (p : ImagingParameters) :=
  mkParams (sets_to_acquire p) (exposure_time_us p) v (delay_window2_us p)
    (pulse_width_us p) (exposures_per_frame p) (end_delay_us p) (light_intensity p).
Definition set_delay_window2_us (v : pynum) (p : ImagingParameters) :=
  mkParams (sets_to_acquire p) (exposure_time_us p) (delay_window1_us p) v
    (pulse_width_us p) (exposures_per_frame p) (end_delay_us p) (light_intensity p).
Definition set_pulse_width_us (v : pynum) (p : ImagingParameters) :=
  mkParams (sets_to_acquire p) (exposure_time_us p) (delay_window1_us p)
    (delay_window2_us p) v (exposures_per_frame p) (end_delay_us p) (light_intensity p).
Definition set_exposures_per_frame (v : Z) (p : ImagingParameters) :=
  mkParams (sets_to_acquire p) (exposure_time_us p) (delay_window1_us p)
    (delay_window2_us p) (pulse_width_us p) v (end_delay_us p) (light_intensity p).
Definition set_end_delay_us (v : Z) (p : ImagingParameters) :=
  mkParams (sets_to_acquire p) (exposure_time_us p) (delay_window1_us p)
    (delay_window2_us p) (pulse_width_us p) (exposures_per_frame p) v (light_intensity p).
Definition set_light_intensity (v : Z) (p : ImagingParameters) :=
  mkParams (sets_to_acquire p) (exposure_time_us p) (delay_window1_us p)
    (delay_window2_us p) (pulse_width_us p) (exposures_per_frame p) (end_delay_us p) v.

(** [vars(params).values()], in field order. *)
Definition vars_values (p : ImagingParameters) : list pynum :=
  [ PyInt (sets_to_acquire p); PyInt (exposure_time_us p);
    delay_window1_us p; delay_window2_us p; pulse_width_us p;
    PyInt (exposures_per_frame p); PyInt (end_delay_us p);
    PyInt (light_intensity p) ].

(** [any(value == -1 for value in vars(params).values())] *)
Definition any_minus_one (p : ImagingParameters) : bool :=
  existsb is_minus_one (vars_values p).

(* ================================================================== *)
(** ** Settings files

    A [ConfigParser] after [read]: for each section the options visible
    in it, each with the text [get] returns for it.  Option names are
    those configparser yields (lower case); values are stripped and are
    taken to hold no interpolation syntax. *)

Definition options : Type := list (string * string).
Definition ConfigParser : Type := list (string * options).

Fixpoint assoc {A : Type} (k : string) (l : list (string * A)) : option A :=
  match l with
  | [] => None
  | (k', v) :: rest => if String.eqb k k' then Some v else assoc k rest
  end.

(** [section in settings] *)
Definition has_section (settings : ConfigParser) (section : string) : bool :=
  match assoc section settings with Some _ => true | None => false end.

(** The raw text of an option, [None] when section or option is absent. *)
Definition get_raw (settings : ConfigParser) (section opt : string)
  : option string :=
  match assoc section settings with
  | Some opts => assoc opt opts
  | None => None
  end.

(** [settings.getint(section, option, fallback=fb)]: the fallback covers
    an absent option only; a value [int()] rejects raises ValueError.
    (A value that holds [%] goes through configparser's interpolation
    first, which may raise an error of its own: such values are outside
    [plain_text].) *)
Definition getint (settings : ConfigParser) (section opt : string) (fallback : Z)
  : result Z :=
  match get_raw settings section opt with
  | None => Ok fallback
  | Some txt =>
      match py_int txt with
      | Some z => Ok z
      | None => Raise ValueError
      end
  end.

(** [settings.getfloat(section, option, fallback=fb)]: a [float] when the
    option is there, the ([int]) fallback itself otherwise; on values
    that hold [%] see [getint]. *)
Definition getfloat (settings : ConfigParser) (section opt : string) (fallback : Z)
  : result pynum :=
  match get_raw settings section opt with
  | None => Ok (PyInt fallback)
  | Some txt =>
      match py_float txt with
      | Some q => Ok (PyFloat q)
      | None => Raise ValueError
      end
  end.

Notation "x <- m ;; k" := (bind m (fun x => k))
  (at level 61, m at next level, right associativity).

(** The [try] block of the current-schema branch: the eight assignments
    to the fresh [params], in source order. *)
Definition read_current (settings : ConfigParser) (params : ImagingParameters)
  : result ImagingParameters :=
  let sec := "ImagingParameters"%string in
  v <- getint settings sec "exposure_time_us" (-1) ;;
  let params := set_exposure_time_us v params in
  v <- getfloat settings sec "delay_window1_us" (-1) ;;
  let params := set_delay_window1_us v params in
  v <- getfloat settings sec "delay_window2_us" (-1) ;;
  let params := set_delay_window2_us v params in
  v <- getint settings sec "end_delay_us" (-1) ;;
  let params := set_end_delay_us v params in
  v <- getfloat settings sec "pulse_width_us" (-1) ;;
  let params := set_pulse_width_us v params in
  v <- getint settings sec "light_intensity" (-1) ;;
  let params := set_light_intensity v params in
  v <- getint settings sec "sets_to_acquire" (-1) ;;
  let params := set_sets_to_acquire v params in
  v <- getint settings sec "exposures_per_frame" (-1) ;;
  let params := set_exposures_per_frame v params in
  Ok params.

(** The [try] block of the legacy branch; [delay_window1_us] is not read
    (the assignment is commented out in the source). *)
Definition read_legacy (settings : ConfigParser) (params : ImagingParameters)
  : result ImagingParameters :=
  let sec := "Settings"%string in
  v <- getint settings sec "exposure_us" (-1) ;;
  let params := set_exposure_time_us v params in
  v <- getint settings sec "delay_window2_us" (-1) ;;
  let params := set_delay_window2_us (PyInt v) params in
  v <- getint settings sec "end_delay_us" (-1) ;;
  let params := set_end_delay_us v params in
  v <- getint settings sec "light_pulse_width_us" (-1) ;;
  let params := set_pulse_width_us (PyInt v) params in
  v <- getint settings sec "light_intensity" (-1) ;;
  let params := set_light_intensity v params in
  v <- getint settings sec "sets_to_acquire" (-1) ;;
  let params := set_sets_to_acquire v params in
  v <- getint settings sec "exposures_per_frame" (-1) ;;
  let params := set_exposures_per_frame v params in
  Ok params.

Definition exn_is (e : exn) (name : string) : bool :=
  match e with Exn n => String.eqb n name end.

(* ================================================================== *)
(** ** The controller command ([RLD.init_rld_controller]) *)

Definition LF : string := String "010"%char EmptyString.

(** The f-string of [init_rld_controller].  Its literal is continued over
    two source lines with a backslash, so the indentation of the second
    line (eight blanks) is part of the text, between the comma that ends
    the first line and the [light_intensity] replacement field.  The two
    delay fields are computed exactly here and in binary64 by Python: the
    texts agree for parameters on the dyadic grid, such as the defaults. *)
Definition settings_str (p : ImagingParameters) : string :=
  ("R," ++ str_int (exposure_time_us p) ++
   "," ++ str_num (py_add (py_sub (delay_window1_us p) (PyFloat (3 # 4))) (pulse_width_us p)) ++
   "," ++ str_num (py_add (py_sub (delay_window2_us p) (PyFloat (3 # 4))) (pulse_width_us p)) ++
   "," ++ str_int (exposures_per_frame p) ++
   "," ++ "        " ++ str_int (light_intensity p) ++
   "," ++ str_num (pulse_width_us p) ++
   "," ++ str_int (end_delay_us p) ++
   "," ++ str_int (sets_to_acquire p) ++ LF)%string.

(** The text has no comma. *)
Fixpoint no_comma (s : string) : bool :=
  match s with
  | EmptyString => true
  | String c s' => negb (Ascii.eqb c ",") && no_comma s'
  end.

(** The comma-separated fields of a command line. *)
Fixpoint split_comma (s : string) : list string :=
  match s with
  | EmptyString => [EmptyString]
  | String c s' =>
      if Ascii.eqb c "," then EmptyString :: split_comma s'
      else match split_comma s' with
           | f :: fs => String c f :: fs
           | [] => [String c EmptyString]
           end
  end.

(* ================================================================== *)
(** ** Spin-box snapping ([MainWindow.validate_*_sb])

    The three delay spin boxes of the window; [setValue] stores the value
    it is given. *)

Record Ui : Type := mkUi {
  delay1_sb : Q;
  delay2_sb : Q;
  pulse_width_sb : Q
}.

(** Python's [x % m] for [m > 0]: the remainder has the sign of [m].  On
    floats Python computes it exactly for [x >= 0]; for [x < 0] it adds
    [m] to a negative remainder and rounds the sum, which this exact
    remainder does not follow. *)
Definition py_mod (x m : Q) : Q := (x - m * inject_Z (Qfloor (x / m)))%Q.

Definition Qgt_bool (x y : Q) : bool := negb (Qle_bool x y).

(** The body shared, verbatim, by the three handlers: the value handed
    to [setValue], or the old value when [setValue] is not called. *)
Definition snapped (value : Q) : Q :=
  let difference := py_mod value (1 # 16) in
  if Qgt_bool difference 0 then
    if Qgt_bool difference (1 # 32)
    then (value + ((1 # 16) - difference))%Q
    else (value - difference)%Q
  else value.

Definition validate_delay1_sb (ui : Ui) : Ui :=
  mkUi (snapped (delay1_sb ui)) (delay2_sb ui) (pulse_width_sb ui).

Definition validate_delay2_sb (ui : Ui) : Ui :=
  mkUi (delay1_sb ui) (snapped (delay2_sb ui)) (pulse_width_sb ui).

Definition validate_pulse_width_sb (ui : Ui) : Ui :=
  mkUi (delay1_sb ui) (delay2_sb ui) (snapped (pulse_width_sb ui)).

(** [x] is a multiple of 1/16 us: [16 x] is an integer. *)
Definition on_grid (x : Q) : Prop := exists k : Z, (x == inject_Z k * (1 # 16))%Q.

(* ================================================================== *)
(** ** numpy values *)

(** A [float64]: NaN, the two infinities, or a real.  The operations on
    it below are exact: they do not round, overflow to an infinity or
    underflow to zero as binary64 does. *)
Inductive npfloat : Type :=
| NaN
| PInf
| NInf
| Fin (r : R).

(** A numpy value of the reduction: a [float64] scalar, or an array given
    by its pixels in storage order (all images of a run have one shape,
    which the pixel count stands for). *)
Inductive ndarray : Type :=
| Scalar (x : npfloat)
| Arr (xs : list npfloat).

Definition Rltb (x y : R) : bool := if Rlt_dec x y then true else false.
Definition Reqb (x y : R) : bool := if Req_dec_T x y then true else false.

(** [x < 0] and [x == 0] on a [float64]: comparisons with NaN are false. *)
Definition np_lt0 (x : npfloat) : bool :=
  match x with
  | NaN => false
  | PInf => false
  | NInf => true
  | Fin r => Rltb r 0
  end.

Definition np_eq0 (x : npfloat) : bool :=
  match x with
  | Fin r => Reqb r 0
  | _ => false
  end.

Definition np_sub (a b : npfloat) : npfloat :=
  match a, b with
  | NaN, _ | _, NaN => NaN
  | Fin x, Fin y => Fin (x - y)
  | PInf, PInf | NInf, NInf => NaN
  | PInf, _ | _, NInf => PInf
  | NInf, _ | _, PInf => NInf
  end.

Definition np_mul (a b : npfloat) : npfloat :=
  match a, b with
  | NaN, _ | _, NaN => NaN
  | Fin x, Fin y => Fin (x * y)
  | PInf, PInf | NInf, NInf => PInf
  | PInf, NInf | NInf, PInf => NInf
  | PInf, Fin y | Fin y, PInf =>
      if Reqb y 0 then NaN else if Rltb y 0 then NInf else PInf
  | NInf, Fin y | Fin y, NInf =>
      if Reqb y 0 then NaN else if Rltb y 0 then PInf else NInf
  end.

(** True division; numpy divides by zero with a warning, not an error. *)
Definition np_div (a b : npfloat) : npfloat :=
  match a, b with
  | NaN, _ | _, NaN => NaN
  | Fin x, Fin y =>
      if Reqb y 0
      then if Reqb x 0 then NaN else if Rltb x 0 then NInf else PInf
      else Fin (x / y)
  | Fin _, PInf | Fin _, NInf => Fin 0
  | PInf, Fin y => if Rltb y 0 then NInf else PInf
  | NInf, Fin y => if Rltb y 0 then PInf else NInf
  | _, _ => NaN
  end.

(** [np.log]: NaN below zero, minus infinity at zero (warnings only). *)
Definition np_log (x : npfloat) : npfloat :=
  match x with
  | NaN => NaN
  | PInf => PInf
  | NInf => NaN
  | Fin r => if Rltb r 0 then NaN else if Reqb r 0 then NInf else Fin (ln r)
  end.

Fixpoint map2 {A B C : Type} (f : A -> B -> C) (xs : list A) (ys : list B) : list C :=
  match xs, ys with
  | x :: xs', y :: ys' => f x y :: map2 f xs' ys'
  | _, _ => []
  end.

(** An elementwise binary operation with broadcasting of scalars; arrays
    of different sizes raise ValueError.  (numpy also stretches an axis
    of length one; frames of different shapes are not considered.) *)
Definition broadcast (f : npfloat -> npfloat -> npfloat) (a b : ndarray)
  : result ndarray :=
  match a, b with
  | Scalar x, Scalar y => Ok (Scalar (f x y))
  | Scalar x, Arr ys => Ok (Arr (map (f x) ys))
  | Arr xs, Scalar y => Ok (Arr (map (fun x => f x y) xs))
  | Arr xs, Arr ys =>
      if (List.length xs =? List.length ys)%nat then Ok (Arr (map2 f xs ys))
      else Raise ValueError
  end.

Definition nd_map (f : npfloat -> npfloat) (a : ndarray) : ndarray :=
  match a with
  | Scalar x => Scalar (f x)
  | Arr xs => Arr (map f xs)
  end.

(** [arr[mask(arr)] = np.nan]: masked assignment.  A [float64] scalar has
    no item assignment: TypeError. *)
Definition assign_nan_where (mask : npfloat -> bool) (a : ndarray) : result ndarray :=
  match a with
  | Scalar _ => Raise TypeError
  | Arr xs => Ok (Arr (map (fun x => if mask x then NaN else x) xs))
  end.

(** A raw frame: its pixel values in storage order. *)
Definition image : Type := list Z.

Definition add_images (a b : list Z) : list Z := map2 Z.add a b.

(** Pixelwise sums over a list of frames of [npix] pixels. *)
Definition column_sums (npix : nat) (imgs : list image) : list Z :=
  fold_right add_images (repeat 0%Z npix) imgs.

Definition same_shape (imgs : list image) : bool :=
  match imgs with
  | [] => true
  | im :: rest => forallb (fun x => (List.length x =? List.length im)%nat) rest
  end.

(** [np.average(imgs, axis=0)]: the pixelwise mean.  Of no frames at all
    it is the scalar NaN (numpy warns "Mean of empty slice"); frames of
    different shapes cannot be stacked: ValueError. *)
Definition np_average (imgs : list image) : result ndarray :=
  match imgs with
  | [] => Ok (Scalar NaN)
  | im :: _ =>
      if same_shape imgs then
        Ok (Arr (map (fun s => Fin (IZR s / IZR (Z.of_nat (List.length imgs))))
                     (column_sums (List.length im) imgs)))
      else Raise ValueError
  end.

(* ================================================================== *)
(** ** Post-processing ([RLD], region post-processing) *)

(** [arr_copy = np.copy(arr)*1.0; arr_copy[arr_copy < 0] = np.nan] *)
Definition arr_replace_negatives_by_nan (arr : ndarray) : result ndarray :=
  let arr_copy := nd_map (fun x => np_mul x (Fin 1)) arr in
  assign_nan_where np_lt0 arr_copy.

(** [arr_copy = np.copy(arr)*1.0; arr_copy[arr_copy == 0] = np.nan] *)
Definition arr_replace_zeroes_by_nan (arr : ndarray) : result ndarray :=
  let arr_copy := nd_map (fun x => np_mul x (Fin 1)) arr in
  assign_nan_where np_eq0 arr_copy.

(** [delta_t / negatives_to_nan(zeroes_to_nan(log(zeroes_to_nan(w1) /
    zeroes_to_nan(w2))))], the arguments evaluated left to right. *)
Definition calculate_lifetime (delta_t : npfloat) (arr_window1 arr_window2 : ndarray)
  : result ndarray :=
  a <- arr_replace_zeroes_by_nan arr_window1 ;;
  b <- arr_replace_zeroes_by_nan arr_window2 ;;
  ratio <- broadcast np_div a b ;;
  l <- arr_replace_zeroes_by_nan (nd_map np_log ratio) ;;
  d <- arr_replace_negatives_by_nan l ;;
  broadcast np_div (Scalar delta_t) d.

(** The three-key dictionaries of the class, in insertion order. *)
Inductive window_key : Type := window1 | window2 | dark.

Record window_dict (A : Type) : Type := mkDict {
  at_window1 : list A;
  at_window2 : list A;
  at_dark : list A
}.
Arguments mkDict {A}.
Arguments at_window1 {A}.
Arguments at_window2 {A}.
Arguments at_dark {A}.

Definition empty_dict {A : Type} : window_dict A := mkDict [] [] [].

Definition dict_get {A : Type} (d : window_dict A) (k : window_key) : list A :=
  match k with
  | window1 => at_window1 d
  | window2 => at_window2 d
  | dark => at_dark d
  end.

(** [d[k].append(x)] *)
Definition dict_append {A : Type} (k : window_key) (x : A) (d : window_dict A)
  : window_dict A :=
  match k with
  | window1 => mkDict (at_window1 d ++ [x]) (at_window2 d) (at_dark d)
  | window2 => mkDict (at_window1 d) (at_window2 d ++ [x]) (at_dark d)
  | dark => mkDict (at_window1 d) (at_window2 d) (at_dark d ++ [x])
  end.

(** [for key in self.image_dict] *)
Definition dict_keys : list window_key := [window1; window2; dark].

(** The attributes of an [RLD] object that the modelled methods use
    ([img] is the frame buffer the camera fills).  The wall-clock
    start/end stamps are bookkeeping for the log file and are left out. *)
Record RLD : Type := mkRLD {
  params : ImagingParameters;
  img : image;
  image_dict : window_dict image;
  image_start_time_dict : window_dict Z;
  average_lifetime : option ndarray
}.

(** [RLD.__init__] *)
Definition RLD_init : RLD :=
  {| params := default_params;
     img := [];
     image_dict := empty_dict;
     image_start_time_dict := empty_dict;
     average_lifetime := None |}.

Definition set_params (p : ImagingParameters) (self : RLD) : RLD :=
  mkRLD p (img self) (image_dict self) (image_start_time_dict self) (average_lifetime self).
Definition set_img (i : image) (self : RLD) : RLD :=
  mkRLD (params self) i (image_dict self) (image_start_time_dict self) (average_lifetime self).
Definition set_image_dict (d : window_dict image) (self : RLD) : RLD :=
  mkRLD (params self) (img self) d (image_start_time_dict self) (average_lifetime self).
Definition set_image_start_time_dict (d : window_dict Z) (self : RLD) : RLD :=
  mkRLD (params self) (img self) (image_dict self) d (average_lifetime self).
Definition set_average_lifetime (a : option ndarray) (self : RLD) : RLD :=
  mkRLD (params self) (img self) (image_dict self) (image_start_time_dict self) a.

(** A Python number as the [float64] numpy makes of it. *)
Definition np_of_num (n : pynum) : npfloat := Fin (Q2R (num_val n)).

(** [RLD.calculate_average_lifetime]: the object after the call, or the
    exception that leaves it as it was. *)
Definition calculate_average_lifetime (self : RLD) : result RLD :=
  let delta_t := py_sub (delay_window2_us (params self)) (delay_window1_us (params self)) in
  dark_avg <- np_average (at_dark (image_dict self)) ;;
  w1 <- np_average (at_window1 (image_dict self)) ;;
  window1_avg <- broadcast np_sub w1 dark_avg ;;
  w2 <- np_average (at_window2 (image_dict self)) ;;
  window2_avg <- broadcast np_sub w2 dark_avg ;;
  lifetime <- calculate_lifetime (np_of_num delta_t) window1_avg window2_avg ;;
  Ok (set_average_lifetime (Some lifetime) self).

(** *** The reduction seen pixel by pixel *)

Section Pixelwise.
Local Open Scope R_scope.

(** One pixel of [arr_replace_zeroes_by_nan] and of
    [arr_replace_negatives_by_nan]. *)
Definition px_zero_nan (x : npfloat) : npfloat :=
  let y := np_mul x (Fin 1) in if np_eq0 y then NaN else y.

Definition px_negative_nan (x : npfloat) : npfloat :=
  let y := np_mul x (Fin 1) in if np_lt0 y then NaN else y.

(** One pixel of [calculate_lifetime]. *)
Definition lifetime_px (delta_t w1 w2 : npfloat) : npfloat :=
  np_div delta_t
    (px_negative_nan (px_zero_nan (np_log (np_div (px_zero_nan w1) (px_zero_nan w2))))).

(** The sum and the mean of pixel [i] over a list of frames. *)
Definition pixel_sum (imgs : list image) (i : nat) : Z :=
  fold_right (fun im acc => (nth i im 0 + acc)%Z) 0%Z imgs.

Definition pixel_mean (imgs : list image) (i : nat) : R :=
  IZR (pixel_sum imgs i) / IZR (Z.of_nat (List.length imgs)).

(** Dark-subtracted average of a window at pixel [i]. *)
Definition dark_subtracted (d : window_dict image) (k : window_key) (i : nat) : R :=
  pixel_mean (dict_get d k) i - pixel_mean (at_dark d) i.

(** A non-empty list of frames of [npix] pixels each. *)
Definition frames_of (npix : nat) (imgs : list image) : Prop :=
  imgs <> [] /\ Forall (fun im => List.length im = npix) imgs.

Definition well_formed_stack (d : window_dict image) (npix : nat) : Prop :=
  frames_of npix (at_window1 d) /\ frames_of npix (at_window2 d) /\
  frames_of npix (at_dark d).

(** [delta_t] as [calculate_average_lifetime] computes it. *)
Definition delta_t_of (p : ImagingParameters) : R :=
  Q2R (num_val (py_sub (delay_window2_us p) (delay_window1_us p))).

(** A stack of one frame of two pixels per window: the signal decays at
    pixel 0 (300 then 100 above dark) and rises at pixel 1 (50 then 200). *)
Definition rld_two_pixels : RLD :=
  set_image_dict (mkDict [[400; 150]%Z] [[200; 300]%Z] [[100; 100]%Z]) RLD_init.

End Pixelwise.

(* ================================================================== *)
(** ** Loading and saving settings *)

(** What [os.path.exists] and [settings.read] find at [config_path]. *)
Inductive file_state : Type :=
| NoFile                             (* the path does not exist *)
| Unreadable                         (* [read] rejects the syntax *)
| Parsed (settings : ConfigParser).  (* [read] succeeds *)

(** [RLD.load_settings_from_file]: the object after the call and what the
    call returns ([None], [0], [-1], [-2]) or raises.  [settings.read] is
    outside the [try], so its ParsingError is not caught. *)
Definition load_settings_from_file (self : RLD) (file : file_state)
  : RLD * result (option Z) :=
  match file with
  | NoFile => (self, Ok None)
  | Unreadable => (self, Raise ParsingError)
  | Parsed settings =>
      let params := default_params in
      if has_section settings "ImagingParameters" then
        match read_current settings params with
        | Raise e =>
            if exn_is e "ValueError" then (self, Ok (Some (-2)))
            else (self, Raise e)
        | Ok params =>
            if any_minus_one params then (self, Ok (Some (-1)))
            else (set_params params self, Ok (Some 0))
        end
      else if has_section settings "Settings" then
        match read_legacy settings params with
        | Raise e =>
            if exn_is e "ValueError" then (self, Ok (Some (-2)))
            else (self, Raise e)
        | Ok params =>
            if any_minus_one params then (self, Ok (Some (-1)))
            else (set_params params self, Ok (Some 0))
        end
      else (self, Ok None)
  end.

(** [MainWindow.save_settings], once the GUI inputs are in [rld.params]:
    the configuration written to the chosen file, which is also what
    [read] yields on that file (configparser keeps these lower-case keys
    and one-line values as they are). *)
Definition save_settings (rld : RLD) : ConfigParser :=
  let p := params rld in
  [ ("ImagingParameters"%string,
     [ ("exposure_time_us", str_int (exposure_time_us p));
       ("delay_window1_us", str_num (delay_window1_us p));
       ("delay_window2_us", str_num (delay_window2_us p));
       ("end_delay_us", str_int (end_delay_us p));
       ("pulse_width_us", str_num (pulse_width_us p));
       ("light_intensity", str_int (light_intensity p));
       ("sets_to_acquire", str_int (sets_to_acquire p));
       ("exposures_per_frame", str_int (exposures_per_frame p)) ]%string) ].

(** Equality of two parameter sets as numbers: the [float] fields by
    value, whatever their Python type and fraction. *)
Definition params_equiv (p q : ImagingParameters) : Prop :=
  sets_to_acquire p = sets_to_acquire q /\
  exposure_time_us p = exposure_time_us q /\
  (num_val (delay_window1_us p) == num_val (delay_window1_us q))%Q /\
  (num_val (delay_window2_us p) == num_val (delay_window2_us q))%Q /\
  (num_val (pulse_width_us p) == num_val (pulse_width_us q))%Q /\
  exposures_per_frame p = exposures_per_frame q /\
  end_delay_us p = end_delay_us q /\
  light_intensity p = light_intensity q.

(** Each [float] field prints exactly in positional decimal text. *)
Definition num_text_exact (n : pynum) : bool :=
  match n with
  | PyInt _ => true
  | PyFloat q => decimal_text_exact q
  end.

Definition text_exact (p : ImagingParameters) : bool :=
  num_text_exact (delay_window1_us p) &&
  num_text_exact (delay_window2_us p) &&
  num_text_exact (pulse_width_us p).

(* ================================================================== *)
(** ** Acquisition ([RLD.acquire_images]) *)

(** The attached camera and serial port.  [cam_frames] are the frames the
    triggered camera is going to deliver, each with the value its
    timestamp parameter then has; a pull with none left times out. *)
Record Hardware : Type := mkHw {
  cam_frames : list (image * Z);
  cam_timestamp : Z;
  cam_acquiring : bool;
  serial_written : list string
}.

Definition World : Type := (RLD * Hardware)%type.

(** Statements that change the object and the hardware and may raise;
    an exception keeps the state reached so far. *)
Definition M (A : Type) : Type := World -> result A * World.

Definition ret {A : Type} (a : A) : M A := fun w => (Ok a, w).

Definition bindM {A B : Type} (m : M A) (k : A -> M B) : M B :=
  fun w =>
    match m w with
    | (Ok a, w') => k a w'
    | (Raise e, w') => (Raise e, w')
    end.

Notation "x <~ m ;; k" := (bindM m (fun x => k))
  (at level 61, m at next level, right associativity).
Notation "m ;;; k" := (bindM m (fun _ => k))
  (at level 61, right associativity).

Definition modify_self (f : RLD -> RLD) : M unit :=
  fun w => (Ok tt, (f (fst w), snd w)).

Definition read_self {A : Type} (f : RLD -> A) : M A :=
  fun w => (Ok (f (fst w)), w).

Definition camera_start_acquisition : M unit :=
  fun w => let hw := snd w in
    (Ok tt, (fst w, mkHw (cam_frames hw) (cam_timestamp hw) true (serial_written hw))).

Definition camera_stop_acquisition : M unit :=
  fun w => let hw := snd w in
    (Ok tt, (fst w, mkHw (cam_frames hw) (cam_timestamp hw) false (serial_written hw))).

Definition serial_write (s : string) : M unit :=
  fun w => let hw := snd w in
    (Ok tt, (fst w, mkHw (cam_frames hw) (cam_timestamp hw) (cam_acquiring hw)
                         (serial_written hw ++ [s]))).

(** [self.camera.get_image(self.img)] *)
Definition camera_get_image : M unit :=
  fun w => let hw := snd w in
    match cam_frames hw with
    | [] => (Raise Xi_error, w)
    | (data, ts) :: rest =>
        (Ok tt, (set_img data (fst w),
                 mkHw rest ts (cam_acquiring hw) (serial_written hw)))
    end.

(** [self.camera.get_timestamp()] *)
Definition camera_get_timestamp : M Z :=
  fun w => (Ok (cam_timestamp (snd w)), w).

(** The body of [for key in self.image_dict]. *)
Definition acquire_frame (key : window_key) : M unit :=
  camera_get_image ;;;
  ts <~ camera_get_timestamp ;;
  modify_self (fun self =>
    set_image_start_time_dict (dict_append key ts (image_start_time_dict self)) self) ;;;
  data_raw <~ read_self img ;;
  modify_self (fun self =>
    set_image_dict (dict_append key data_raw (image_dict self)) self).

Fixpoint for_each {A : Type} (l : list A) (body : A -> M unit) : M unit :=
  match l with
  | [] => ret tt
  | x :: rest => body x ;;; for_each rest body
  end.

(** [while current_set < sets_to_acquire: ...; current_set += 1], from
    [current_set = 0]: the body runs [sets] times. *)
Fixpoint acquire_sets (sets : nat) : M unit :=
  match sets with
  | O => ret tt
  | S k => for_each dict_keys acquire_frame ;;; acquire_sets k
  end.

(** [RLD.init_rld_controller] *)
Definition init_rld_controller : M unit :=
  settings <~ read_self (fun self => settings_str (params self)) ;;
  serial_write settings.

(** [RLD.acquire_images].  Only [image_dict] is emptied at the start;
    [image_start_time_dict] is the one made by [__init__]. *)
Definition acquire_images : M unit :=
  camera_start_acquisition ;;;
  serial_write ("A" ++ LF)%string ;;;
  modify_self (set_image_dict empty_dict) ;;;
  sets <~ read_self (fun self => sets_to_acquire (params self)) ;;
  acquire_sets (Z.to_nat sets) ;;;
  camera_stop_acquisition.

(** The three sequences of a dictionary all have length [n]. *)
Definition all_length {A : Type} (d : window_dict A) (n : nat) : Prop :=
  List.length (at_window1 d) = n /\
  List.length (at_window2 d) = n /\
  List.length (at_dark d) = n.

(** The fields of the current schema, in the order the loader reads them,
    each with the reader it goes through ([true]: [getfloat]). *)
Definition current_fields : list (string * bool) :=
  [ ("exposure_time_us", false); ("delay_window1_us", true);
    ("delay_window2_us", true); ("end_delay_us", false);
    ("pulse_width_us", true); ("light_intensity", false);
    ("sets_to_acquire", false); ("exposures_per_frame", false) ]%string.

(** The option is absent from the section. *)
Definition field_absent (settings : ConfigParser) (sec : string) (f : string * bool)
  : bool :=
  match get_raw settings sec (fst f) with
  | Some _ => false
  | None => true
  end.



(* ================================================================== *)
(** ** Inputs on which the embedding is exact

    The embedding computes with exact numbers and reads plain decimal
    texts only.  The predicates below mark off the inputs on which that
    is also what Python, configparser and binary64 arithmetic give;
    statements that depend on the difference are made for them. *)





(** A rational that is a binary64 number: [m / 2^k] in lowest terms with
    [|m| < 2^53] and [k <= 1074].  [float()] of a decimal text of such a
    number is that number. *)
Fixpoint is_power_of_two (p : positive) : bool :=
  match p with
  | xH => true
  | xO p' => is_power_of_two p'
  | xI _ => false
  end.

Definition binary64_exact (q : Q) : bool :=
  let r := Qred q in
  is_power_of_two (Qden r) && (Z.pos (Pos.size (Qden r)) <=? 1075)
  && (Z.abs (Qnum r) <? 2 ^ 53).




(** A number a [float] field can hold without loss when it goes through
    [float()]: a binary64 number, or an [int] below [2^53]. *)
Definition num_binary64 (n : pynum) : bool :=
  match n with
  | PyInt z => Z.abs z <? 2 ^ 53
  | PyFloat q => binary64_exact q
  end.

Definition binary64_fields (p : ImagingParameters) : bool :=
  num_binary64 (delay_window1_us p) && num_binary64 (delay_window2_us p)
  && num_binary64 (pulse_width_us p).

(** Frames as the camera delivers them ([XI_RAW16]): 16-bit pixels; and a
    stack of such frames, at most 65536 to a window.  On such a stack the
    sums are exact in binary64 and two means that differ, differ by far
    more than their rounding. *)
Definition sixteen_bit (imgs : list image) : Prop :=
  Forall (Forall (fun v => 0 <= v < 65536)) imgs.

Definition routine_stack (d : window_dict image) (npix : nat) : Prop :=
  well_formed_stack d npix /\
  forall k, sixteen_bit (dict_get d k) /\ Z.of_nat (List.length (dict_get d k)) <= 65536.

(* ================================================================== *)
(** ** Sample inputs and measures used in the statements *)

(** A settings file of the current schema that lacks [end_delay_us]. *)
Definition settings_missing_end_delay : ConfigParser :=
  [ ("ImagingParameters"%string,
     [ ("exposure_time_us", "50"); ("delay_window1_us", "1.0");
       ("delay_window2_us", "11.0"); ("pulse_width_us", "30.0");
       ("light_intensity", "80"); ("sets_to_acquire", "5");
       ("exposures_per_frame", "4") ]%string) ].

(** A caller whose parameters differ from the defaults. *)
Definition rld_seven_sets : RLD :=
  set_params (set_sets_to_acquire 7 default_params) RLD_init.


(** A legacy file, with a window-1 delay entry the loader never reads. *)
Definition settings_legacy : ConfigParser :=
  [ ("Settings"%string,
     [ ("exposure_us", "50"); ("delay_window1_us", "7");
       ("delay_window2_us", "11"); ("end_delay_us", "33");
       ("light_pulse_width_us", "30"); ("light_intensity", "80");
       ("sets_to_acquire", "5"); ("exposures_per_frame", "4") ]%string) ].

Definition dict_lengths {A : Type} (d : window_dict A) : nat * nat * nat :=
  (List.length (at_window1 d), List.length (at_window2 d), List.length (at_dark d)).

Definition shift_lengths (n : nat) (l : nat * nat * nat) : nat * nat * nat :=
  let '(a, b, c) := l in (a + n, b + n, c + n)%nat.

(** A camera with no frame pending and a port nothing was written to. *)
Definition hw_idle : Hardware := mkHw [] 0 false [].

(** One set per run, and a camera with frames for two runs. *)
Definition rld_one_set : RLD :=
  set_params (set_sets_to_acquire 1 default_params) RLD_init.

Definition hw_six_frames : Hardware :=
  mkHw [ ([11], 100); ([12], 200); ([13], 300);
         ([21], 400); ([22], 500); ([23], 600) ] 0 false [].

(* ================================================================== *)
(** ** Measures of an acquisition run *)

(** A sequence dealt out in turn to three piles: the order in which
    [acquire_images] files the frames it pulls. *)
Fixpoint thirds {A : Type} (l : list A) : list A * list A * list A :=
  match l with
  | [] => ([], [], [])
  | a :: rest => let '(x, y, z) := thirds rest in (a :: z, x, y)
  end.

(** The three piles as a dictionary, and the key-wise concatenation of
    two dictionaries. *)
Definition dict_of_thirds {A : Type} (t : list A * list A * list A) : window_dict A :=
  let '(x, y, z) := t in mkDict x y z.

Definition dict_app {A : Type} (d e : window_dict A) : window_dict A :=
  mkDict (at_window1 d ++ at_window1 e) (at_window2 d ++ at_window2 e)
         (at_dark d ++ at_dark e).

(* ================================================================== *)
(** ** Measures of the lifetime reduction *)

(** An empty window, or a well-formed one. *)
Definition frames_or_none (npix : nat) (imgs : list image) : Prop :=
  imgs = [] \/ frames_of npix imgs.

(* ================================================================== *)
(** ** What a settings file spells out *)





(* ================================================================== *)
(** ** Measurement folders ([RLD.load_images_from_folder],
       [MainWindow.save_measurement]) *)

(** [s.startswith(pat)], [s.endswith(suf)] and [pat in s]. *)
Fixpoint startswith (s pat : string) {struct pat} : bool :=
  match pat with
  | EmptyString => true
  | String p pat' =>
      match s with
      | EmptyString => false
      | String c s' => Ascii.eqb c p && startswith s' pat'
      end
  end.

Fixpoint endswith (s suf : string) : bool :=
  String.eqb s suf ||
  match s with
  | EmptyString => false
  | String _ s' => endswith s' suf
  end.

Fixpoint contains (s pat : string) : bool :=
  startswith s pat ||
  match s with
  | EmptyString => false
  | String _ s' => contains s' pat
  end.

(** One name of [os.listdir(data_folder_path)] with what the library
    calls find in the file: the array [cv2.imread(..., IMREAD_UNCHANGED)]
    returns (asked only for the [.tif] names the loader selects, which are
    taken to decode), and what [os.path.exists] and [settings.read] find
    (asked only for the settings path). *)
Record dir_entry : Type := mkEntry {
  entry_name : string;
  entry_image : image;
  entry_conf : file_state
}.

(** The window a file name is loaded into: the [if]/[elif] chain of
    [load_images_from_folder]. *)
Definition role_of (file_name : string) : option window_key :=
  if contains file_name "window1_" && endswith file_name ".tif" then Some window1
  else if contains file_name "window2_" && endswith file_name ".tif" then Some window2
  else if (startswith file_name "dark_" || contains file_name "background_")
          && endswith file_name ".tif" then Some dark
  else None.

(** The loop over the listing, filling the three local lists. *)
Fixpoint collect_images (listing : list dir_entry) (acc : window_dict image)
  : window_dict image :=
  match listing with
  | [] => acc
  | e :: rest =>
      collect_images rest
        (match role_of (entry_name e) with
         | Some k => dict_append k (entry_image e) acc
         | None => acc
         end)
  end.

Definition is_empty {A : Type} (l : list A) : bool :=
  match l with [] => true | _ :: _ => false end.

(** [RLD.load_images_from_folder]: the object after the call and the
    value returned ([None], [-1] or [0]). *)
Definition load_images_from_folder (self : RLD) (listing : list dir_entry)
  : RLD * option Z :=
  let d := collect_images listing empty_dict in
  let n1 := List.length (at_window1 d) in
  let n2 := List.length (at_window2 d) in
  let nd := List.length (at_dark d) in
  if is_empty (at_window1 d) || is_empty (at_window2 d) || is_empty (at_dark d)
  then (self, None)
  else if negb (n1 =? n2)%nat || negb (n1 =? nd)%nat || negb (n2 =? nd)%nat
  then (set_image_dict d self, Some (-1))
  else (set_image_dict d self, Some 0).

(** What [save_measurement] puts into a file. *)
Inductive written : Type :=
| FrameTiff (im : image)             (* [cv2.imwrite] of a raw frame *)
| MapTiff (a : ndarray)              (* [cv2.imwrite] of the lifetime map *)
| ConfText (settings : ConfigParser) (* [config.write] *)
| LogText (lines : list string).     (* the timestamp log *)

(** [f"{i:03d}"] for an index of [enumerate]. *)
Definition pad3 (i : nat) : string :=
  let s := str_nat (N.of_nat i) in
  (match String.length s with
   | 1%nat => "00"
   | 2%nat => "0"
   | _ => ""
   end ++ s)%string.

(** [for i, img in enumerate(imgs): imwrite(f"{role}_{i:03d}.tif", img)],
    counting from [i]. *)
Fixpoint frame_files (role : string) (i : nat) (imgs : list image)
  : list (string * written) :=
  match imgs with
  | [] => []
  | im :: rest =>
      ((role ++ "_" ++ pad3 i ++ ".tif")%string, FrameTiff im)
      :: frame_files role (S i) rest
  end.

(** The wall-clock attributes of an [RLD] object that the record leaves
    out: [start_time_ns], [end_time_ns] and the two local times as
    [save_measurement] formats them. *)
Record wall_clock : Type := mkClock {
  start_time_ns : Z;
  end_time_ns : Z;
  start_time_text : string;
  end_time_text : string
}.

Definition window_name (k : window_key) : string :=
  match k with
  | window1 => "window1"
  | window2 => "window2"
  | dark => "dark"
  end.

(** [for index, timestamp in enumerate(ts_list): f"{key}, {index}, {timestamp}\n"] *)
Fixpoint timestamp_lines (key : string) (index : nat) (ts_list : list Z) : list string :=
  match ts_list with
  | [] => []
  | t :: rest =>
      (key ++ ", " ++ str_nat (N.of_nat index) ++ ", " ++ str_int t ++ LF)%string
      :: timestamp_lines key (S index) rest
  end.

Definition timestamps_txt (rld : RLD) (c : wall_clock) : list string :=
  [ ("Start timestamp: " ++ str_int (start_time_ns c) ++ LF)%string;
    ("End timestamp: " ++ str_int (end_time_ns c) ++ LF)%string;
    ("Start time: " ++ start_time_text c ++ LF)%string;
    ("End time: " ++ end_time_text c ++ LF)%string;
    ("Image acquisition timestamps (window, index, timestamp):" ++ LF)%string ]
  ++ flat_map (fun k => timestamp_lines (window_name k) 0
                           (dict_get (image_start_time_dict rld) k))
              dict_keys.

(** [MainWindow.save_measurement] on the measurement [rld]: the files
    written into the chosen folder, in order, and the message boxes shown.
    [clock] is [None] when the wall-clock attributes are unset (a loaded
    measurement). *)
Definition save_measurement (rld : RLD) (clock : option wall_clock)
  : list (string * written) * list string :=
  let d := image_dict rld in
  if negb (is_empty (at_window1 d)) && negb (is_empty (at_window2 d))
     && negb (is_empty (at_dark d))
  then
    (frame_files "window1" 0 (at_window1 d)
     ++ frame_files "window2" 0 (at_window2 d)
     ++ frame_files "dark" 0 (at_dark d)
     ++ match average_lifetime rld with
        | Some a => [("lifetime_image.tif"%string, MapTiff a)]
        | None => []
        end
     ++ [("settings.conf"%string, ConfText (save_settings rld))]
     ++ match clock with
        | Some c =>
            if (start_time_ns c =? 0)%Z || (end_time_ns c =? 0)%Z then []
            else [("timestamps.txt"%string, LogText (timestamps_txt rld c))]
        | None => []
        end,
     [])
  else ([], ["No images to save."%string]).

(** A directory entry shows a written file: same name, and the frame or
    the settings read back as written. *)
Definition shows (e : dir_entry) (f : string * written) : Prop :=
  entry_name e = fst f /\
  match snd f with
  | FrameTiff im => entry_image e = im
  | ConfText settings => entry_conf e = Parsed settings
  | _ => True
  end.

(** The images of the files of a listing that [role_of] sends to window
    [k], in listing order. *)
Definition window_key_eqb (j k : window_key) : bool :=
  match j, k with
  | window1, window1 | window2, window2 | dark, dark => true
  | _, _ => false
  end.

Definition has_role (k : window_key) (e : dir_entry) : bool :=
  match role_of (entry_name e) with
  | Some j => window_key_eqb j k
  | None => false
  end.

Definition images_with_role (k : window_key) (listing : list dir_entry) : list image :=
  map entry_image (filter (has_role k) listing).

Definition equal_counts {A : Type} (d : window_dict A) : bool :=
  (List.length (at_window1 d) =? List.length (at_window2 d))%nat
  && (List.length (at_window1 d) =? List.length (at_dark d))%nat.

(** The entry a folder holds for a file just written. *)
Definition entry_of (f : string * written) : dir_entry :=
  mkEntry (fst f)
    (match snd f with FrameTiff im => im | _ => [] end)
    (match snd f with ConfText settings => Parsed settings | _ => Unreadable end).

(* ================================================================== *)
(** ** A whole measurement ([RLD.run]) *)

(** A method that changes the object only, run as a statement. *)
Definition on_self (f : RLD -> result RLD) : M unit :=
  fun w =>
    match f (fst w) with
    | Ok self' => (Ok tt, (self', snd w))
    | Raise e => (Raise e, w)
    end.

(** The debayering loop of [run]: every frame of every window replaced
    by [cv2.cvtColor(img, cv2.COLOR_BAYER_BG2RGB)], here [debayer img]. *)
Definition debayer_stack (debayer : image -> image) (d : window_dict image)
  : window_dict image :=
  mkDict (map debayer (at_window1 d)) (map debayer (at_window2 d))
         (map debayer (at_dark d)).

(** [RLD.run]: the value returned ([-1], or [None] at the end of the
    body).  [attached] tells whether both [self.camera] and
    [self.serial_connection] are set, [color] is [camera.is_iscolor()].
    [init_camera] only sets camera parameters, which [Hardware] does not
    hold; its calls are taken to succeed. *)
Definition run (debayer : image -> image) (attached color : bool) : M (option Z) :=
  if negb attached then ret (Some (-1))
  else
    init_rld_controller ;;;
    acquire_images ;;;
    (if color
     then modify_self (fun self =>
            set_image_dict (debayer_stack debayer (image_dict self)) self)
     else ret tt) ;;;
    on_self calculate_average_lifetime ;;;
    ret None.

(* ================================================================== *)
(** ** Loading a measurement ([MainWindow.load_measurement]) *)

(** The settings file [load_measurement] reads: the first name of the
    listing that ends in [.conf], or the empty path, which does not
    exist. *)
Definition conf_of (listing : list dir_entry) : file_state :=
  match find (fun e => endswith (entry_name e) ".conf") listing with
  | Some e => entry_conf e
  | None => NoFile
  end.

(** [MainWindow.config_file_error_popup]: the text of the box shown, if
    any. *)
Definition config_file_error_popup (config_file_status : option Z) : list string :=
  match config_file_status with
  | None => ["No .conf file found. Using default settings."%string]
  | Some st =>
      if st =? -1
      then ["Incomplete settings in config file. Using default settings."%string]
      else if st =? -2
      then ["Corrupt config file. Settings left unchanged."%string]
      else []
  end.

(** [MainWindow.load_measurement] once a folder is chosen: the object
    [self.rld] is left bound to, the message boxes shown, and how the
    call ends: [Ok true] when the object was appended to [rld_list],
    [Ok false] on the early return, or the exception that escapes.  The
    widgets written afterwards are left out. *)
Definition load_measurement (listing : list dir_entry)
  : RLD * list string * result bool :=
  let '(rld, load_image_status) := load_images_from_folder RLD_init listing in
  match load_image_status with
  | None =>
      (rld, ["Error: No valid image sets found in the selected folder."%string],
       Ok false)
  | Some st =>
      let boxes :=
        if st =? 0 then []
        else if st =? -1
        then ["Warning: Unequal number of window1, window2 and/or dark images in folder."%string]
        else [] in
      match load_settings_from_file rld (conf_of listing) with
      | (rld, Raise e) => (rld, boxes, Raise e)
      | (rld, Ok config_file_status) =>
          let boxes :=
            (boxes ++ match config_file_status with
                      | Some 0 => []
                      | _ => config_file_error_popup config_file_status
                      end)%list in
          match calculate_average_lifetime rld with
          | Raise e => (rld, boxes, Raise e)
          | Ok rld => (rld, boxes, Ok true)
          end
      end
  end.

(* ================================================================== *)
(** ** The tool tip of an image label ([ImageLabel.mouseMoveEvent]) *)

Definition ZeroDivisionError : exn := Exn "ZeroDivisionError".
Definition IndexError : exn := Exn "IndexError".

(** Python's [a // b] on integers: the floor of the quotient. *)
Definition py_floordiv (a b : Z) : result Z :=
  if b =? 0 then Raise ZeroDivisionError else Ok (a / b).

Section Tooltip.

(** The type of the values the displayed array holds. *)
Variable V : Type.

(** A two-dimensional array, row by row, and what an [ImageLabel] holds
    when the mouse moves: the array, the size of the scaled pixmap, and
    the size of the label. *)
Definition array2 : Type := list (list V).

Record ImageLabel : Type := mkLabel {
  image_array : option array2;
  last_pixmap : option (Z * Z);   (* width, height *)
  label_width : Z;
  label_height : Z
}.

Definition shape0 (a : array2) : Z := Z.of_nat (List.length a).
Definition shape1 (a : array2) : Z := Z.of_nat (List.length (hd [] a)).

(** [a[i, j]] for indices that are not negative. *)
Definition getitem (a : array2) (i j : Z) : result V :=
  match nth_error a (Z.to_nat i) with
  | Some row =>
      match nth_error row (Z.to_nat j) with
      | Some v => Ok v
      | None => Raise IndexError
      end
  | None => Raise IndexError
  end.

(** [ImageLabel.mouseMoveEvent] with the cursor at [(x, y)]: the index
    pair and the value the tool tip shows, [None] when the tool tip is
    cleared. *)
Definition mouseMoveEvent (self : ImageLabel) (x y : Z) : result (option (Z * Z * V)) :=
  match image_array self, last_pixmap self with
  | Some arr, Some (pix_w, pix_h) =>
      let lbl_w := label_width self in
      let lbl_h := label_height self in
      let x_offset := (lbl_w - pix_w) / 2 in
      let y_offset := (lbl_h - pix_h) / 2 in
      if (x_offset <=? x) && (x <? x_offset + pix_w)
         && (y_offset <=? y) && (y <? y_offset + pix_h)
      then
        img_x <- py_floordiv ((x - x_offset) * shape1 arr) pix_w ;;
        img_y <- py_floordiv ((y - y_offset) * shape0 arr) pix_h ;;
        let img_x := Z.max 0 (Z.min (shape1 arr - 1) img_x) in
        let img_y := Z.max 0 (Z.min (shape0 arr - 1) img_y) in
        value <- getitem arr img_y img_x ;;
        Ok (Some (img_x, img_y, value))
      else Ok None
  | _, _ => Ok None
  end.

(** An array of [h] rows of [w] values each. *)
Definition has_shape (a : array2) (h w : nat) : Prop :=
  List.length a = h /\ Forall (fun row => List.length row = w) a.

End Tooltip.

Arguments mkLabel {V}.
Arguments image_array {V}.
Arguments last_pixmap {V}.
Arguments label_width {V}.
Arguments label_height {V}.
Arguments shape0 {V}.
Arguments shape1 {V}.
Arguments getitem {V}.
Arguments mouseMoveEvent {V}.
Arguments has_shape {V}.

(* ================================================================== *)
(** ** The USB watcher ([usb_watcher.py]) *)

(** The [info] dictionary usbmonitor hands over for a device. *)
Definition usb_info : Type := list (string * string).

Definition ARDUINO_VID : string := "2341".
Definition XIMEA_VID : string := "20F7".

(** [USBWatcher.device_filter]: [None] for a device of another vendor. *)
Definition device_filter (info : usb_info) : option string :=
  match assoc "ID_VENDOR_ID" info with
  | Some vid =>
      if String.eqb vid ARDUINO_VID then Some "controller"%string
      else if String.eqb vid XIMEA_VID then Some "camera"%string
      else None
  | None => None
  end.

(** [pat in s] where [s] may be [None], on which Python raises. *)
Definition py_in (pat : string) (s : option string) : result bool :=
  match s with
  | Some s => Ok (contains s pat)
  | None => Raise TypeError
  end.

(** A Python dict keyed by strings, in insertion order: [d[k] = v] and
    [d.pop(k, None)]. *)
Fixpoint dict_set {A : Type} (k : string) (v : A) (d : list (string * A))
  : list (string * A) :=
  match d with
  | [] => [(k, v)]
  | (k', v') :: rest =>
      if String.eqb k k' then (k, v) :: rest else (k', v') :: dict_set k v rest
  end.

Fixpoint dict_pop {A : Type} (k : string) (d : list (string * A))
  : list (string * A) :=
  match d with
  | [] => []
  | (k', v') :: rest =>
      if String.eqb k k' then rest else (k', v') :: dict_pop k rest
  end.

Record USBWatcher : Type := mkWatcher {
  controllers : list (string * usb_info);
  cameras : list (string * usb_info);
  number_of_controllers : Z;
  number_of_cameras : Z
}.

(** The callbacks of [USBWatcher.run]: the watcher after the call and the
    [usb_event] signals emitted. *)
Definition on_connect (self : USBWatcher) (dev_id : string) (info : usb_info)
  : result (USBWatcher * list (string * string)) :=
  let type_of_device := device_filter info in
  is_controller <- py_in "controller" type_of_device ;;
  if is_controller then
    Ok (mkWatcher (dict_set dev_id info (controllers self)) (cameras self)
          (number_of_controllers self + 1) (number_of_cameras self),
        [("added"%string, match type_of_device with Some t => t | None => ""%string end)])
  else
    is_camera <- py_in "camera" type_of_device ;;
    if is_camera then
      Ok (mkWatcher (controllers self) (dict_set dev_id info (cameras self))
            (number_of_controllers self) (number_of_cameras self + 1),
          [("added"%string, match type_of_device with Some t => t | None => ""%string end)])
    else Ok (self, []).

Definition on_disconnect (self : USBWatcher) (dev_id : string) (info : usb_info)
  : result (USBWatcher * list (string * string)) :=
  let type_of_device := device_filter info in
  is_controller <- py_in "controller" type_of_device ;;
  if is_controller then
    Ok (mkWatcher (dict_pop dev_id (controllers self)) (cameras self)
          (number_of_controllers self - 1) (number_of_cameras self),
        [("removed"%string, match type_of_device with Some t => t | None => ""%string end)])
  else
    is_camera <- py_in "camera" type_of_device ;;
    if is_camera then
      Ok (mkWatcher (controllers self) (dict_pop dev_id (cameras self))
            (number_of_controllers self) (number_of_cameras self - 1),
          [("removed"%string, match type_of_device with Some t => t | None => ""%string end)])
    else Ok (self, []).

(** What the monitor reports, and the watcher run over a sequence of
    reports; an exception ends the run. *)
Inductive usb_report : Type :=
| Plugged (dev_id : string) (info : usb_info)
| Unplugged (dev_id : string) (info : usb_info).

Definition on_report (self : USBWatcher) (r : usb_report)
  : result (USBWatcher * list (string * string)) :=
  match r with
  | Plugged dev_id info => on_connect self dev_id info
  | Unplugged dev_id info => on_disconnect self dev_id info
  end.

Fixpoint on_reports (self : USBWatcher) (rs : list usb_report)
  : result (USBWatcher * list (string * string)) :=
  match rs with
  | [] => Ok (self, [])
  | r :: rest =>
      match on_report self r with
      | Raise e => Raise e
      | Ok (self1, sigs1) =>
          match on_reports self1 rest with
          | Raise e => Raise e
          | Ok (self2, sigs2) => Ok (self2, (sigs1 ++ sigs2)%list)
          end
      end
  end.

(** [USBWatcher.__init__] on the devices [get_available_devices] lists:
    [update_controllers], [update_cameras] and the two counts. *)
Fixpoint update_controllers (devices : list (string * usb_info))
    (acc : list (string * usb_info)) : result (list (string * usb_info)) :=
  match devices with
  | [] => Ok acc
  | (device, info) :: rest =>
      is_controller <- py_in "controller" (device_filter info) ;;
      update_controllers rest (if is_controller then dict_set device info acc else acc)
  end.

Fixpoint update_cameras (devices : list (string * usb_info))
    (acc : list (string * usb_info)) : list (string * usb_info) :=
  match devices with
  | [] => acc
  | (device, info) :: rest =>
      update_cameras rest
        (match device_filter info with
         | Some t => if String.eqb t "camera" then dict_set device info acc else acc
         | None => acc
         end)
  end.

Definition USBWatcher_init (devices : list (string * usb_info)) : result USBWatcher :=
  controllers <- update_controllers devices [] ;;
  let cameras := update_cameras devices [] in
  Ok (mkWatcher controllers cameras
        (Z.of_nat (List.length controllers)) (Z.of_nat (List.length cameras))).

(** A listed device that [device_filter] gives the type [t], and one it
    gives no type. *)
Definition device_is (t : string) (d : string * usb_info) : bool :=
  match device_filter (snd d) with
  | Some t' => String.eqb t' t
  | None => false
  end.

Definition foreign (d : string * usb_info) : bool :=
  match device_filter (snd d) with
  | Some _ => false
  | None => true
  end.

(** The two counters agree with the two dictionaries. *)
Definition counts_agree (self : USBWatcher) : Prop :=
  number_of_controllers self = Z.of_nat (List.length (controllers self)) /\
  number_of_cameras self = Z.of_nat (List.length (cameras self)).

Definition has_key {A : Type} (k : string) (d : list (string * A)) : bool :=
  match assoc k d with Some _ => true | None => false end.

(** A report that fits the state: a device of one of the two vendors, not
    yet listed when it is plugged in and listed when it is unplugged. *)
Definition fits (self : USBWatcher) (r : usb_report) : bool :=
  match r with
  | Plugged dev_id info =>
      match device_filter info with
      | Some t =>
          if String.eqb t "controller" then negb (has_key dev_id (controllers self))
          else negb (has_key dev_id (cameras self))
      | None => false
      end
  | Unplugged dev_id info =>
      match device_filter info with
      | Some t =>
          if String.eqb t "controller" then has_key dev_id (controllers self)
          else has_key dev_id (cameras self)
      | None => false
      end
  end.

Fixpoint all_fit (self : USBWatcher) (rs : list usb_report) : bool :=
  match rs with
  | [] => true
  | r :: rest =>
      fits self r &&
      match on_report self r with
      | Ok (self1, _) => all_fit self1 rest
      | Raise _ => false
      end
  end.

Definition report_info (r : usb_report) : usb_info :=
  match r with Plugged _ info | Unplugged _ info => info end.

(* ================================================================== *)
(** ** Further sample inputs *)

(** A settings file of the current schema with all eight fields. *)
Definition settings_complete : ConfigParser :=
  [ ("ImagingParameters"%string,
     [ ("exposure_time_us", "50"); ("delay_window1_us", "1.0");
       ("delay_window2_us", "11.0"); ("end_delay_us", "33");
       ("pulse_width_us", "30.0"); ("light_intensity", "80");
       ("sets_to_acquire", "5"); ("exposures_per_frame", "4") ]%string) ].

(** Two frames of two pixels per window, and the same frames in the
    other order. *)
Definition rld_two_frames : RLD :=
  set_image_dict (mkDict [[400; 150]; [420; 170]] [[200; 300]; [210; 290]]
                         [[100; 100]; [90; 110]]) RLD_init.

Definition rld_two_frames_swapped : RLD :=
  set_image_dict (mkDict [[420; 170]; [400; 150]] [[210; 290]; [200; 300]]
                         [[90; 110]; [100; 100]]) RLD_init.

(** A stack whose dark window is empty. *)
Definition rld_no_dark : RLD :=
  set_image_dict (mkDict [[400; 150]] [[200; 300]] []) RLD_init.

(** No set asked for. *)
Definition rld_no_sets : RLD :=
  set_params (set_sets_to_acquire 0 default_params) RLD_init.

(** A folder with one frame per window and no settings file. *)
Definition folder_without_settings : list dir_entry :=
  [ mkEntry "window1_000.tif" [400; 150] Unreadable;
    mkEntry "window2_000.tif" [200; 300] Unreadable;
    mkEntry "dark_000.tif" [100; 100] Unreadable ].

(** A label 40 by 20 showing an array of two rows and three columns as a
    pixmap 30 by 20. *)
Definition label_2x3 : ImageLabel Z :=
  mkLabel (Some [[1; 2; 3]; [4; 5; 6]]) (Some (30, 20)) 40 20.

(** A watcher that lists nothing, and a controller and a camera coming
    and the controller going. *)
Definition watcher_empty : USBWatcher := mkWatcher [] [] 0 0.

Definition reports_three : list usb_report :=
  [ Plugged "usb1" [("ID_VENDOR_ID", "2341")];
    Plugged "usb2" [("ID_VENDOR_ID", "20F7")];
    Unplugged "usb1" [("ID_VENDOR_ID", "2341")] ]%string.

(** A controller and a camera as [get_available_devices] lists them. *)
Definition devices_two : list (string * usb_info) :=
  [ ("usb1", [("ID_VENDOR_ID", "2341")]);
    ("usb2", [("ID_VENDOR_ID", "20F7")]) ]%string.

(* ================================================================== *)
(** * Properties *)

(** ** The text of numbers: printing and reading back *)

Lemma is_digit_not_sign (c : ascii) :
  is_digit c = true -> Ascii.eqb c "-" = false /\ Ascii.eqb c "+" = false /\ Ascii.eqb c "." = false.
Proof.
  intros H. repeat split.
  all: match goal with
       | |- Ascii.eqb ?a ?x = false =>
           destruct (Ascii.eqb_spec a x) as [-> | ];
           [vm_compute in H; discriminate | reflexivity]
       end.
Qed.

Lemma all_digits_string_of_uint (d : Decimal.uint) :
  all_digits (NilEmpty.string_of_uint d) = true.
Proof.
  induction d; simpl; auto.
Qed.

Lemma to_uint_nonnil (n : N) : N.to_uint n <> Decimal.Nil.
Proof.
  destruct n; simpl; [discriminate | apply DecimalPos.Unsigned.to_uint_nonnil].
Qed.

Lemma str_nat_digits (n : N) :
  str_nat n = NilEmpty.string_of_uint (N.to_uint n) /\
  all_digits (str_nat n) = true /\
  exists c s, str_nat n = String c s.
Proof.
  unfold str_nat. pose proof (to_uint_nonnil n) as H.
  destruct (N.to_uint n) eqn:E; try contradiction;
    (split; [reflexivity | split; [ | simpl; eauto]]);
    simpl; apply all_digits_string_of_uint.
Qed.

Lemma nat_of_digits_str_nat (n : N) : nat_of_digits (str_nat n) = Some n.
Proof.
  unfold nat_of_digits, str_nat.
  rewrite NilZero.usu by apply to_uint_nonnil.
  simpl. now rewrite DecimalN.Unsigned.of_to.
Qed.

Lemma py_int_str_int (z : Z) : py_int (str_int z) = Some z.
Proof.
  unfold str_int, py_int.
  destruct (z <? 0) eqn:Ez.
  - rewrite Ascii.eqb_refl, nat_of_digits_str_nat. simpl.
    apply Z.ltb_lt in Ez. f_equal. rewrite N2Z.inj_abs_N. lia.
  - destruct (str_nat_digits (Z.to_N z)) as (_ & Hd & c & s & E).
    rewrite E in Hd |- *. simpl in Hd. apply andb_prop in Hd as [Hc _].
    destruct (is_digit_not_sign c Hc) as (-> & -> & _).
    rewrite <- E, nat_of_digits_str_nat. simpl.
    apply Z.ltb_ge in Ez. f_equal. lia.
Qed.

Lemma digit_of_char_digit_char (d : Z) :
  0 <= d <= 9 -> digit_of_char (digit_char d) = Some d.
Proof.
  intros H.
  assert (C : d = 0 \/ d = 1 \/ d = 2 \/ d = 3 \/ d = 4 \/ d = 5 \/ d = 6 \/
              d = 7 \/ d = 8 \/ d = 9) by lia.
  repeat (destruct C as [-> | C]; [reflexivity | ]). subst d. reflexivity.
Qed.

Lemma pow10_S (n : nat) : Zpos (pow10 (S n)) = 10 * Zpos (pow10 n).
Proof. reflexivity. Qed.

Lemma frac_digits_value (d : Z) (fuel : nat) :
  0 < d ->
  forall r acc, 0 <= r < d -> frac_rest fuel r d = 0 ->
  exists f,
    digits_value acc (frac_digits fuel r d)
    = Some (acc * Zpos (pow10 (String.length (frac_digits fuel r d))) + f) /\
    f * d = r * Zpos (pow10 (String.length (frac_digits fuel r d))).
Proof.
  intros Hd. induction fuel as [ | fuel IH]; intros r acc Hr Hrest.
  - simpl in *. subst r. exists 0. split; [f_equal; lia | lia].
  - cbn [frac_rest frac_digits] in *.
    destruct (r =? 0) eqn:E0.
    + apply Z.eqb_eq in E0. subst r. exists 0. simpl. split; [f_equal; lia | lia].
    + apply Z.eqb_neq in E0.
      assert (Hq : 0 <= 10 * r / d <= 9).
      { split; [apply Z.div_pos; lia | ].
        assert (10 * r / d < 10) by (apply Z.div_lt_upper_bound; lia). lia. }
      assert (Hm : 0 <= (10 * r) mod d < d) by (apply Z.mod_pos_bound; lia).
      destruct (IH ((10 * r) mod d) (10 * acc + 10 * r / d) Hm Hrest) as (f & Hv & Hf).
      cbn [digits_value String.length].
      rewrite digit_of_char_digit_char by exact Hq.
      rewrite Hv, pow10_S.
      set (P := Zpos (pow10 (String.length (frac_digits fuel ((10 * r) mod d) d)))) in *.
      exists (10 * r / d * P + f). split; [f_equal; ring | ].
      pose proof (Z.div_mod (10 * r) d ltac:(lia)) as Hdm.
      replace ((10 * r / d * P + f) * d) with ((d * (10 * r / d)) * P + f * d) by ring.
      rewrite Hf. 
      replace (r * (10 * P)) with ((10 * r) * P) by ring.
      rewrite Hdm at 3. ring.
Qed.

Lemma split_dot_digits (s t : string) :
  all_digits s = true ->
  split_dot (s ++ String "." t) = (s, Some t) /\ split_dot s = (s, None).
Proof.
  induction s as [ | c s IH]; simpl; intros H; [split; reflexivity | ].
  apply andb_prop in H as [Hc Hs].
  destruct (is_digit_not_sign c Hc) as (_ & _ & ->).
  destruct (IH Hs) as [-> ->]. split; reflexivity.
Qed.

Lemma uint_of_str_nat (n : N) :
  NilEmpty.uint_of_string (str_nat n) = Some (N.to_uint n).
Proof.
  destruct (str_nat_digits n) as (-> & _). apply NilEmpty.usu.
Qed.

Lemma length_str_nat (n : N) : (String.length (str_nat n) =? 0)%nat = false.
Proof.
  destruct (str_nat_digits n) as (_ & _ & c & s & ->). reflexivity.
Qed.

Lemma unsigned_float_point (n : N) (fp : string) (f : Z) :
  digits_value 0 fp = Some f ->
  unsigned_float (str_nat n ++ String "." fp)
  = Some (inject_Z (Z.of_N n) + Qmake f (pow10 (String.length fp)))%Q.
Proof.
  intros Hf. unfold unsigned_float.
  destruct (str_nat_digits n) as (_ & Hd & _).
  destruct (split_dot_digits (str_nat n) fp Hd) as [-> _].
  rewrite length_str_nat, uint_of_str_nat, Hf. simpl.
  now rewrite DecimalN.Unsigned.of_to.
Qed.

Lemma unsigned_float_integer (n : N) :
  unsigned_float (str_nat n) = Some (inject_Z (Z.of_N n) + Qmake 0 1)%Q.
Proof.
  unfold unsigned_float.
  destruct (str_nat_digits n) as (_ & Hd & _).
  destruct (split_dot_digits (str_nat n) EmptyString Hd) as [_ ->].
  rewrite length_str_nat, uint_of_str_nat. simpl.
  now rewrite DecimalN.Unsigned.of_to.
Qed.

Lemma unsigned_float_str (a : Z) (d : positive) :
  0 <= a ->
  frac_rest (frac_fuel d) (a mod Zpos d) (Zpos d) = 0 ->
  exists q',
    unsigned_float
      (str_nat (Z.to_N (a / Zpos d)) ++
       String "." (if a mod Zpos d =? 0 then "0"%string
                   else frac_digits (frac_fuel d) (a mod Zpos d) (Zpos d)))
    = Some q' /\ (q' == a # d)%Q.
Proof.
  intros Ha Hrest.
  assert (Hm : 0 <= a mod Zpos d < Zpos d) by (apply Z.mod_pos_bound; lia).
  assert (Hq : 0 <= a / Zpos d) by (apply Z.div_pos; lia).
  pose proof (Z.div_mod a (Zpos d) ltac:(lia)) as Hdm.
  destruct (a mod Zpos d =? 0) eqn:E0.
  - apply Z.eqb_eq in E0.
    eexists. split; [apply unsigned_float_point; reflexivity | ].
    rewrite Z2N.id by exact Hq. unfold Qeq. simpl. nia.
  - destruct (frac_digits_value (Zpos d) (frac_fuel d) ltac:(lia)
                (a mod Zpos d) 0 Hm Hrest) as (f & Hv & Hf).
    simpl in Hv.
    eexists. split; [apply unsigned_float_point; exact Hv | ].
    rewrite Z2N.id by exact Hq. unfold Qeq. simpl.
    set (P := pow10 _) in *.
    transitivity (Z.pos d * (a / Z.pos d) * Z.pos P + f * Z.pos d); [ring | ].
    rewrite Hf. rewrite Hdm at 3. ring.
Qed.

Lemma py_float_str_float (q : Q) :
  decimal_text_exact q = true ->
  exists q', py_float (str_float q) = Some q' /\ (q' == q)%Q.
Proof.
  unfold decimal_text_exact, str_float. intros H. apply Z.eqb_eq in H.
  destruct q as [n d]. cbn [Qnum Qden] in *.
  destruct (unsigned_float_str (Z.abs n) d (Z.abs_nonneg n) H) as (q' & Hu & Hq).
  destruct (n <? 0) eqn:En.
  - apply Z.ltb_lt in En. exists (- q')%Q. split.
    + simpl. rewrite Hu. reflexivity.
    + rewrite Hq. unfold Qeq, Qopp. simpl. lia.
  - apply Z.ltb_ge in En. exists q'. split.
    + simpl append at 1. 
      destruct (str_nat_digits (Z.to_N (Z.abs n / Zpos d))) as (_ & Hd & c & s & E).
      rewrite E in Hd, Hu |- *. simpl in Hd. apply andb_prop in Hd as [Hc _].
      simpl. destruct (is_digit_not_sign c Hc) as (-> & -> & _).
      exact Hu.
    + rewrite Hq. unfold Qeq. simpl. lia.
Qed.

Lemma py_float_str_int (z : Z) :
  exists q', py_float (str_int z) = Some q' /\ (q' == inject_Z z)%Q.
Proof.
  unfold str_int. destruct (z <? 0) eqn:Ez.
  - apply Z.ltb_lt in Ez. eexists. split.
    + simpl. rewrite unsigned_float_integer. reflexivity.
    + rewrite N2Z.inj_abs_N. unfold Qeq. simpl. lia.
  - apply Z.ltb_ge in Ez. eexists. split.
    + destruct (str_nat_digits (Z.to_N z)) as (_ & Hd & c & s & E).
      pose proof (unsigned_float_integer (Z.to_N z)) as Hu.
      rewrite E in Hd, Hu |- *. simpl in Hd. apply andb_prop in Hd as [Hc _].
      simpl. destruct (is_digit_not_sign c Hc) as (-> & -> & _).
      exact Hu.
    + rewrite Z2N.id by exact Ez. unfold Qeq. simpl. lia.
Qed.

Lemma frac_rest_mod (d : Z) (fuel : nat) :
  0 < d -> forall r, 0 <= r < d ->
  frac_rest fuel r d = (10 ^ Z.of_nat fuel * r) mod d.
Proof.
  intros Hd. induction fuel as [ | fuel IH]; intros r Hr.
  - cbn [frac_rest]. change (10 ^ Z.of_nat 0) with 1.
    rewrite Z.mul_1_l, Z.mod_small; [reflexivity | exact Hr].
  - cbn [frac_rest]. destruct (r =? 0) eqn:E.
    + apply Z.eqb_eq in E. subst r. now rewrite Z.mul_0_r, Z.mod_0_l by lia.
    + rewrite IH by (apply Z.mod_pos_bound; lia).
      rewrite Z.mul_mod_idemp_r by lia.
      rewrite Nat2Z.inj_succ, Z.pow_succ_r by lia.
      f_equal. ring.
Qed.

Lemma pow2_divides_pow10 (k : nat) :
  (Zpos (Pos.shiftl_nat 1 k) | 10 ^ Z.of_nat k).
Proof.
  induction k as [ | k [c IH]].
  - exists 1. reflexivity.
  - exists (5 * c).
    change (Pos.shiftl_nat 1 (S k)) with (xO (Pos.shiftl_nat 1 k)).
    rewrite Nat2Z.inj_succ, Z.pow_succ_r, IH by lia.
    rewrite (Pos2Z.inj_xO (Pos.shiftl_nat 1 k)). ring.
Qed.

Lemma frac_fuel_pow2 (k : nat) : frac_fuel (Pos.shiftl_nat 1 k) = S k.
Proof.
  unfold frac_fuel. induction k as [ | k IH]; [reflexivity | ].
  change (Pos.shiftl_nat 1 (S k)) with (xO (Pos.shiftl_nat 1 k)).
  cbn [Pos.size_nat]. now rewrite IH.
Qed.

(** Every dyadic rational, hence the value of every binary float, has an
    exact positional text. *)
Lemma dyadic_text_exact (n : Z) (k : nat) :
  decimal_text_exact (n # Pos.shiftl_nat 1 k) = true.
Proof.
  unfold decimal_text_exact. cbn [Qnum Qden].
  set (d := Zpos (Pos.shiftl_nat 1 k)).
  assert (Hd : 0 < d) by (unfold d; lia).
  rewrite frac_rest_mod by (try apply Z.mod_pos_bound; lia).
  apply Z.eqb_eq. apply Z.mod_divide; [lia | ].
  apply Z.divide_mul_l. rewrite frac_fuel_pow2.
  destruct (pow2_divides_pow10 k) as [c Hc]. fold d in Hc.
  exists (10 * c). rewrite Nat2Z.inj_succ, Z.pow_succ_r, Hc by lia. ring.
Qed.

(** ** Settings files: failure outcomes *)


(** The object changes only when the loader reports success. *)
Lemma load_settings_changes_only_on_success (self : RLD) (file : file_state) :
  snd (load_settings_from_file self file) <> Ok (Some 0) ->
  fst (load_settings_from_file self file) = self.
Proof.
  unfold load_settings_from_file.
  destruct file as [ | | settings]; simpl; try reflexivity.
  destruct (has_section settings "ImagingParameters").
  - destruct (read_current settings default_params) as [p|e].
    + destruct (any_minus_one p); simpl; [reflexivity | congruence].
    + destruct (exn_is e "ValueError"); reflexivity.
  - destruct (has_section settings "Settings"); [ | reflexivity].
    destruct (read_legacy settings default_params) as [p|e].
    + destruct (any_minus_one p); simpl; [reflexivity | congruence].
    + destruct (exn_is e "ValueError"); reflexivity.
Qed.

(** C5: whenever the loader returns -1 (incomplete) or -2 (corrupt), the
    object it was called on, and with it the caller's parameter set, is
    exactly what it was before the call. *)
Theorem load_settings_failure_keeps_params (self : RLD) (file : file_state) :
  snd (load_settings_from_file self file) = Ok (Some (-1)) \/
  snd (load_settings_from_file self file) = Ok (Some (-2)) ->
  fst (load_settings_from_file self file) = self /\
  params (fst (load_settings_from_file self file)) = params self.
Proof.
  intros H.
  assert (E : fst (load_settings_from_file self file) = self).
  { apply load_settings_changes_only_on_success.
    destruct H as [H|H]; rewrite H; discriminate. }
  rewrite E. split; reflexivity.
Qed.

Lemma load_settings_failure_keeps_params_witness :
  snd (load_settings_from_file rld_seven_sets (Parsed settings_missing_end_delay))
    = Ok (Some (-1)) /\
  params (fst (load_settings_from_file rld_seven_sets (Parsed settings_missing_end_delay)))
    = params rld_seven_sets.
Proof.
  split.
  - vm_compute. reflexivity.
  - apply (load_settings_failure_keeps_params rld_seven_sets
             (Parsed settings_missing_end_delay)).
    left. vm_compute. reflexivity.
Defined.

(** ** Settings files: which failure is reported *)






(** The sentinel does not tell an absent key from a present one: a file
    that spells out [end_delay_us = -1] is reported incomplete as well. *)
Lemma present_minus_one_reads_as_missing :
  let settings : ConfigParser :=
    [ ("ImagingParameters"%string,
       [ ("exposure_time_us", "50"); ("delay_window1_us", "1.0");
         ("delay_window2_us", "11.0"); ("end_delay_us", "-1");
         ("pulse_width_us", "30.0"); ("light_intensity", "80");
         ("sets_to_acquire", "5"); ("exposures_per_frame", "4") ]%string) ] in
  existsb (field_absent settings "ImagingParameters") current_fields = false /\
  snd (load_settings_from_file RLD_init (Parsed settings)) = Ok (Some (-1)).
Proof.
  split; vm_compute; reflexivity.
Qed.

(** ** Settings files: the legacy schema *)








(** ** Settings files: writing and reading back *)

(** The writer emits one section, [ImagingParameters], with the eight
    fields of the current schema. *)
Lemma save_settings_schema (rld : RLD) :
  map fst (save_settings rld) = ["ImagingParameters"%string] /\
  forall f, In f current_fields ->
    field_absent (save_settings rld) "ImagingParameters" f = false.
Proof.
  split; [reflexivity | ].
  intros f Hf. unfold current_fields in Hf. simpl in Hf.
  repeat (destruct Hf as [<- | Hf]; [reflexivity | ]). contradiction.
Qed.

Lemma getint_saved (settings : ConfigParser) (sec key : string) (z : Z) :
  get_raw settings sec key = Some (str_int z) ->
  getint settings sec key (-1) = Ok z.
Proof.
  intros H. unfold getint. now rewrite H, py_int_str_int.
Qed.

Lemma getfloat_saved (settings : ConfigParser) (sec key : string) (n : pynum) :
  get_raw settings sec key = Some (str_num n) ->
  num_text_exact n = true ->
  exists q', getfloat settings sec key (-1) = Ok (PyFloat q') /\ (q' == num_val n)%Q.
Proof.
  intros H Hx. unfold getfloat. rewrite H.
  destruct n as [z | q]; simpl in *.
  - destruct (py_float_str_int z) as (q' & -> & Hq). eauto.
  - destruct (py_float_str_float q Hx) as (q' & -> & Hq). eauto.
Qed.

Lemma is_minus_one_equiv (a b : pynum) :
  (num_val a == num_val b)%Q -> is_minus_one a = is_minus_one b.
Proof.
  intros H. unfold is_minus_one.
  destruct (Qeq_bool (num_val a) (-1 # 1)) eqn:Ea, (Qeq_bool (num_val b) (-1 # 1)) eqn:Eb;
    try reflexivity.
  - apply Qeq_bool_iff in Ea. rewrite H in Ea. apply Qeq_bool_iff in Ea. congruence.
  - apply Qeq_bool_iff in Eb. rewrite <- H in Eb. apply Qeq_bool_iff in Eb. congruence.
Qed.

Lemma any_minus_one_equiv (p q : ImagingParameters) :
  params_equiv p q -> any_minus_one p = any_minus_one q.
Proof.
  intros (H1 & H2 & H3 & H4 & H5 & H6 & H7 & H8).
  unfold any_minus_one, vars_values. cbn [existsb].
  rewrite H1, H2, H6, H7, H8.
  rewrite (is_minus_one_equiv _ _ H3), (is_minus_one_equiv _ _ H4),
    (is_minus_one_equiv _ _ H5).
  reflexivity.
Qed.

(** C8 (as amended): for every parameter set none of whose eight fields
    has the value -1 and whose [float] fields have an exact decimal text,
    writing it with [save_settings] and loading that file reports success
    (0) and installs a parameter set numerically equal to the original,
    whatever object does the loading. *)
Theorem save_then_load_roundtrip (rld caller : RLD) :
  any_minus_one (params rld) = false ->
  text_exact (params rld) = true ->
  exists p',
    load_settings_from_file caller (Parsed (save_settings rld))
    = (set_params p' caller, Ok (Some 0)) /\
    params_equiv p' (params rld).
Proof.
  intros Hm1 Hx.
  unfold text_exact in Hx.
  apply andb_prop in Hx as [Hx Hx3]. apply andb_prop in Hx as [Hx1 Hx2].
  set (s := save_settings rld).
  assert (Hsec : has_section s "ImagingParameters" = true) by reflexivity.
  destruct (getfloat_saved s "ImagingParameters" "delay_window1_us" _ eq_refl Hx1)
    as (q1 & G1 & E1).
  destruct (getfloat_saved s "ImagingParameters" "delay_window2_us" _ eq_refl Hx2)
    as (q2 & G2 & E2).
  destruct (getfloat_saved s "ImagingParameters" "pulse_width_us" _ eq_refl Hx3)
    as (q3 & G3 & E3).
  pose proof (getint_saved s "ImagingParameters" "exposure_time_us" _ eq_refl) as I1.
  pose proof (getint_saved s "ImagingParameters" "end_delay_us" _ eq_refl) as I2.
  pose proof (getint_saved s "ImagingParameters" "light_intensity" _ eq_refl) as I3.
  pose proof (getint_saved s "ImagingParameters" "sets_to_acquire" _ eq_refl) as I4.
  pose proof (getint_saved s "ImagingParameters" "exposures_per_frame" _ eq_refl) as I5.
  unfold load_settings_from_file. rewrite Hsec.
  unfold read_current. rewrite I1, G1, G2, I2, G3, I3, I4, I5.
  cbn [bind].
  match goal with
  | |- context [any_minus_one ?p] =>
      assert (Heq : params_equiv p (params rld))
        by (repeat split; assumption);
      rewrite (any_minus_one_equiv _ _ Heq), Hm1;
      exists p; split; [reflexivity | exact Heq]
  end.
Qed.

Lemma save_then_load_roundtrip_witness :
  exists p',
    load_settings_from_file rld_seven_sets (Parsed (save_settings RLD_init))
    = (set_params p' rld_seven_sets, Ok (Some 0)) /\
    params_equiv p' (params RLD_init).
Proof.
  apply (save_then_load_roundtrip RLD_init rld_seven_sets); vm_compute; reflexivity.
Defined.

(** C8 (as stated) fails: a parameter set with [end_delay_us = -1] is
    written in full, and reading the file back reports -1 (incomplete)
    and installs nothing. *)
Lemma roundtrip_fails_on_minus_one :
  let rld := set_params (set_end_delay_us (-1) default_params) RLD_init in
  text_exact (params rld) = true /\
  get_raw (save_settings rld) "ImagingParameters" "end_delay_us" = Some "-1"%string /\
  load_settings_from_file RLD_init (Parsed (save_settings rld))
  = (RLD_init, Ok (Some (-1))).
Proof.
  repeat split; vm_compute; reflexivity.
Qed.

(** ** Snapping to the controller's timing grid *)

Section Snapping.
Local Open Scope Q_scope.

Lemma floor16 (v : Q) :
  inject_Z (Qfloor (v / (1 # 16))) <= 16 * v /\ 16 * v < inject_Z (Qfloor (v / (1 # 16))) + 1.
Proof.
  assert (E : v / (1 # 16) == 16 * v) by (unfold Qdiv; change (/ (1 # 16)) with (16 # 1); ring).
  pose proof (Qfloor_le (v / (1 # 16))) as H1.
  pose proof (Qlt_floor (v / (1 # 16))) as H2.
  rewrite inject_Z_plus in H2. 
  rewrite E in H1 at 2. rewrite E in H2 at 1. 
  split; [exact H1 | exact H2].
Qed.

Lemma py_mod_bounds (v : Q) : 0 <= py_mod v (1 # 16) /\ py_mod v (1 # 16) < 1 # 16.
Proof.
  unfold py_mod. destruct (floor16 v) as [H1 H2].
  set (k := inject_Z (Qfloor (v / (1 # 16)))) in *. split; lra.
Qed.

Lemma Qgt_bool_true (x y : Q) : Qgt_bool x y = true <-> y < x.
Proof.
  unfold Qgt_bool. rewrite negb_true_iff.
  split; intros H.
  - apply Qnot_le_lt. intros Hle. apply Qle_bool_iff in Hle. congruence.
  - destruct (Qle_bool x y) eqn:E; [ | reflexivity].
    apply Qle_bool_iff in E. lra.
Qed.

Lemma Qgt_bool_false (x y : Q) : Qgt_bool x y = false <-> x <= y.
Proof.
  unfold Qgt_bool. rewrite negb_false_iff. apply Qle_bool_iff.
Qed.

Lemma snapped_cases (v : Q) :
  let k := inject_Z (Qfloor (v / (1 # 16))) in
  let difference := v - (1 # 16) * k in
  (difference <= 1 # 32 /\ snapped v == (1 # 16) * k) \/
  ((1 # 32) < difference /\ snapped v == (1 # 16) * (k + 1)).
Proof.
  intros k difference.
  destruct (py_mod_bounds v) as [H0 H1].
  unfold snapped. fold k. unfold py_mod in *. fold k in H0, H1 |- *. fold difference in H0, H1 |- *.
  destruct (Qgt_bool difference 0) eqn:E0.
  - destruct (Qgt_bool difference (1 # 32)) eqn:E1.
    + apply Qgt_bool_true in E1. right. split; [exact E1 | ]. unfold difference. ring.
    + apply Qgt_bool_false in E1. left. split; [exact E1 | ]. unfold difference. ring.
  - apply Qgt_bool_false in E0. left. split; [lra | ].
    assert (difference == 0) by lra. unfold difference in *. lra.
Qed.

Lemma Qfloor_unique (x : Q) (k : Z) :
  inject_Z k <= x -> x < inject_Z k + 1 -> Qfloor x = k.
Proof.
  intros H1 H2.
  pose proof (Qfloor_le x) as F1. pose proof (Qlt_floor x) as F2.
  rewrite inject_Z_plus in F2. change (inject_Z 1) with 1 in F2.
  assert (A : inject_Z (Qfloor x) < inject_Z (k + 1))
    by (rewrite inject_Z_plus; change (inject_Z 1) with 1; lra).
  assert (B : inject_Z k < inject_Z (Qfloor x + 1))
    by (rewrite inject_Z_plus; change (inject_Z 1) with 1; lra).
  rewrite <- Zlt_Qlt in A, B. lia.
Qed.

(** The three handlers apply the same snapping, each to its own box. *)
Lemma validate_handlers_snap (ui : Ui) :
  delay1_sb (validate_delay1_sb ui) = snapped (delay1_sb ui) /\
  delay2_sb (validate_delay2_sb ui) = snapped (delay2_sb ui) /\
  pulse_width_sb (validate_pulse_width_sb ui) = snapped (pulse_width_sb ui).
Proof. repeat split. Qed.

(** C7 (as amended): the snapping, which the code applies in the
    handlers of the three spin boxes and not at transmission, yields for
    a value that is not negative a multiple of 0.0625 that is nearest to
    it (at most 0.03125 below it, less than 0.03125 above it), and a
    value exactly halfway between two multiples goes to the smaller
    one. *)
Theorem snapped_nearest_half_down (v : Q) (k : Z) :
  0 <= v -> (0 <= k)%Z ->
  on_grid (snapped v) /\
  (- (1 # 32) <= snapped v - v /\ snapped v - v < 1 # 32) /\
  snapped (inject_Z k * (1 # 16) + (1 # 32)) == inject_Z k * (1 # 16).
Proof.
  intros _ _.
  split; [ | split].
  - destruct (snapped_cases v) as [[_ E] | [_ E]].
    + exists (Qfloor (v / (1 # 16))). rewrite E. ring.
    + exists (Qfloor (v / (1 # 16)) + 1)%Z. rewrite E, inject_Z_plus.
      change (inject_Z 1) with 1. ring.
  - destruct (floor16 v) as [F1 F2].
    destruct (snapped_cases v) as [[D E] | [D E]]; rewrite E; split; lra.
  - set (h := inject_Z k * (1 # 16) + (1 # 32)).
    assert (Hk : Qfloor (h / (1 # 16)) = k).
    { apply Qfloor_unique; unfold h, Qdiv; change (/ (1 # 16)) with (16 # 1); lra. }
    destruct (snapped_cases h) as [[D E] | [D E]]; rewrite Hk in *.
    + rewrite E. ring.
    + unfold h in D. lra.
Qed.

Lemma snapped_nearest_half_down_witness :
  on_grid (snapped (81 # 32)) /\
  (- (1 # 32) <= snapped (81 # 32) - (81 # 32) /\
   snapped (81 # 32) - (81 # 32) < 1 # 32) /\
  snapped (inject_Z 40 * (1 # 16) + (1 # 32)) == inject_Z 40 * (1 # 16).
Proof.
  apply (snapped_nearest_half_down (81 # 32) 40).
  - discriminate.
  - discriminate.
Defined.

(** C7 (as stated) fails twice.  0.09375 lies halfway between 0.0625 and
    0.125 and is snapped to 0.0625, the smaller of the two.  And nothing
    is snapped at transmission: for a parameter set that holds the
    window-1 delay 2.53125 (halfway between 2.5 and 2.5625, which the
    snapping takes to 2.5) the command carries 2.53125 - 0.75 + 40.0 =
    41.78125, not the 41.75 of the snapped value. *)
Lemma snapped_halfway_goes_down :
  (py_mod (3 # 32) (1 # 16) == 1 # 32 /\
   snapped (3 # 32) == 1 # 16 /\
   ~ snapped (3 # 32) == 2 # 16 /\
   delay1_sb (validate_delay1_sb (mkUi (3 # 32) 0 0)) == 1 # 16) /\
  (snapped (81 # 32) == 5 # 2 /\
   nth 2 (split_comma
            (settings_str (set_delay_window1_us (PyFloat (81 # 32)) default_params)))
       EmptyString
   = "41.78125"%string /\
   nth 2 (split_comma
            (settings_str (set_delay_window1_us (PyFloat (5 # 2)) default_params)))
       EmptyString
   = "41.75"%string).
Proof.
  split.
  - repeat split; try (vm_compute; reflexivity).
    vm_compute. discriminate.
  - repeat split; vm_compute; reflexivity.
Qed.

End Snapping.

(** ** The controller command *)

Lemma no_comma_app (a b : string) :
  no_comma a = true -> no_comma b = true -> no_comma (a ++ b) = true.
Proof.
  induction a as [ | c a IH]; simpl; intros Ha Hb; [exact Hb | ].
  apply andb_prop in Ha as [-> Ha]. simpl. auto.
Qed.

Lemma is_digit_not_comma (c : ascii) : is_digit c = true -> Ascii.eqb c "," = false.
Proof.
  intros H. destruct (Ascii.eqb_spec c ",") as [-> | ]; [ | reflexivity].
  vm_compute in H. discriminate.
Qed.

Lemma all_digits_no_comma (s : string) : all_digits s = true -> no_comma s = true.
Proof.
  induction s as [ | c s IH]; simpl; intros H; [reflexivity | ].
  apply andb_prop in H as [Hc Hs]. rewrite (is_digit_not_comma c Hc). simpl. auto.
Qed.

Lemma no_comma_str_nat (n : N) : no_comma (str_nat n) = true.
Proof.
  apply all_digits_no_comma. apply (str_nat_digits n).
Qed.

Lemma no_comma_str_int (z : Z) : no_comma (str_int z) = true.
Proof.
  unfold str_int. destruct (z <? 0); simpl; apply no_comma_str_nat.
Qed.

Lemma is_digit_digit_char (d : Z) : 0 <= d <= 9 -> is_digit (digit_char d) = true.
Proof.
  intros H. unfold is_digit. now rewrite digit_of_char_digit_char.
Qed.

Lemma all_digits_frac_digits (d : Z) (fuel : nat) :
  0 < d -> forall r, 0 <= r < d -> all_digits (frac_digits fuel r d) = true.
Proof.
  intros Hd. induction fuel as [ | fuel IH]; intros r Hr; [reflexivity | ].
  cbn [frac_digits]. destruct (r =? 0); [reflexivity | ]. cbn [all_digits].
  rewrite is_digit_digit_char.
  - apply IH. apply Z.mod_pos_bound. lia.
  - split; [apply Z.div_pos; lia | ].
    assert (10 * r / d < 10) by (apply Z.div_lt_upper_bound; lia). lia.
Qed.

Lemma no_comma_str_float (q : Q) : no_comma (str_float q) = true.
Proof.
  unfold str_float.
  apply no_comma_app; [destruct (Qnum q <? 0); reflexivity | ].
  apply no_comma_app; [apply no_comma_str_nat | ].
  simpl. destruct (_ =? 0); [reflexivity | ].
  apply all_digits_no_comma, all_digits_frac_digits; [lia | ].
  apply Z.mod_pos_bound. lia.
Qed.

Lemma no_comma_str_num (n : pynum) : no_comma (str_num n) = true.
Proof.
  destruct n; [apply no_comma_str_int | apply no_comma_str_float].
Qed.

Lemma split_comma_last (a : string) : no_comma a = true -> split_comma a = [a].
Proof.
  induction a as [ | c a IH]; simpl; intros H; [reflexivity | ].
  apply andb_prop in H as [Hc Ha]. apply negb_true_iff in Hc. rewrite Hc, (IH Ha).
  reflexivity.
Qed.

Lemma split_comma_field (a rest : string) :
  no_comma a = true ->
  split_comma (a ++ String "," rest) = a :: split_comma rest.
Proof.
  induction a as [ | c a IH]; simpl; intros H; [reflexivity | ].
  apply andb_prop in H as [Hc Ha]. apply negb_true_iff in Hc. rewrite Hc, (IH Ha).
  reflexivity.
Qed.

(** The fields of the command, for every parameter set: the values in
    the order of the protocol, the sixth one after eight blanks. *)
Lemma settings_str_fields (p : ImagingParameters) :
  split_comma (settings_str p)
  = [ "R"%string;
      str_int (exposure_time_us p);
      str_num (py_add (py_sub (delay_window1_us p) (PyFloat (3 # 4))) (pulse_width_us p));
      str_num (py_add (py_sub (delay_window2_us p) (PyFloat (3 # 4))) (pulse_width_us p));
      str_int (exposures_per_frame p);
      ("        " ++ str_int (light_intensity p))%string;
      str_num (pulse_width_us p);
      str_int (end_delay_us p);
      (str_int (sets_to_acquire p) ++ LF)%string ].
Proof.
  unfold settings_str.
  repeat match goal with
         | |- context [(?a ++ "," ++ ?r)%string] =>
             change (a ++ "," ++ r)%string with (a ++ String "," r)%string
         end.
  change ("R," ++ ?x)%string with ("R" ++ String "," x)%string.
  change ("        " ++ ?a ++ ?b)%string with (("        " ++ a) ++ b)%string.
  rewrite !split_comma_field, split_comma_last;
    repeat first [ reflexivity
                 | apply no_comma_str_int
                 | apply no_comma_str_num
                 | apply no_comma_app ].
Qed.

(** C3: at the default parameters (exposure 20, delays 2.5 and 22.5,
    pulse width 40.0, 10 exposures per frame, intensity 100, end delay 33,
    3 sets) the command sent is the text below: the two delay fields are
    41.75 and 61.75, and the field between [exposures_per_frame] and
    [pulse_width_us] is the intensity preceded by eight blanks, not the
    intensity alone. *)
Theorem settings_str_default :
  serial_written (snd (snd (init_rld_controller (RLD_init, hw_idle))))
    = [ ("R,20,41.75,61.75,10,        100,40.0,33,3" ++ LF)%string ] /\
  split_comma (settings_str default_params)
    = [ "R"; "20"; "41.75"; "61.75"; "10"; "        100"; "40.0"; "33";
        "3" ++ LF ]%string /\
  nth 5 (split_comma (settings_str default_params)) EmptyString
    <> str_int (light_intensity default_params).
Proof.
  repeat split; try (vm_compute; reflexivity).
  vm_compute. discriminate.
Qed.

(** The delay slots carry [delay - 0.75 + pulse_width], a [float]
    whatever the Python types of the two parameters. *)
Lemma settings_delay_value (d w : pynum) :
  (num_val (py_add (py_sub d (PyFloat (3 # 4))) w)
   == num_val d + num_val w - (3 # 4))%Q /\
  exists q, py_add (py_sub d (PyFloat (3 # 4))) w = PyFloat q.
Proof.
  split.
  - destruct d, w; simpl; ring.
  - destruct d, w; simpl; eexists; reflexivity.
Qed.

(** ** Acquisition *)

Lemma acquire_triple_lengths (w w' : World) :
  for_each dict_keys acquire_frame w = (Ok tt, w') ->
  params (fst w') = params (fst w) /\
  dict_lengths (image_dict (fst w')) = shift_lengths 1 (dict_lengths (image_dict (fst w))) /\
  dict_lengths (image_start_time_dict (fst w'))
  = shift_lengths 1 (dict_lengths (image_start_time_dict (fst w))).
Proof.
  destruct w as [self hw].
  unfold for_each, dict_keys, acquire_frame, bindM, camera_get_image,
    camera_get_timestamp, modify_self, read_self, ret.
  cbn [fst snd cam_frames].
  destruct (cam_frames hw) as [ | [d1 t1] [ | [d2 t2] [ | [d3 t3] rest]]];
    cbn; intros H; try discriminate H.
  injection H as <-. cbn.
  unfold dict_lengths, shift_lengths. cbn.
  rewrite !length_app. cbn. auto.
Qed.

Lemma acquire_sets_lengths (n : nat) (w w' : World) :
  acquire_sets n w = (Ok tt, w') ->
  params (fst w') = params (fst w) /\
  dict_lengths (image_dict (fst w')) = shift_lengths n (dict_lengths (image_dict (fst w))) /\
  dict_lengths (image_start_time_dict (fst w'))
  = shift_lengths n (dict_lengths (image_start_time_dict (fst w))).
Proof.
  revert w. induction n as [ | n IH]; intros w.
  - cbn. intros H. injection H as <-.
    unfold dict_lengths, shift_lengths. rewrite !Nat.add_0_r. auto.
  - cbn [acquire_sets]. unfold bindM at 1.
    destruct (for_each dict_keys acquire_frame w) as [[[]|e] w1] eqn:E1;
      [ | discriminate].
    intros H. apply IH in H. apply acquire_triple_lengths in E1.
    destruct H as (Hp & Hi & Ht), E1 as (Hp1 & Hi1 & Ht1).
    rewrite Hp, Hi, Ht, Hp1, Hi1, Ht1.
    unfold dict_lengths, shift_lengths.
    split; [reflexivity | split; (f_equal; [f_equal | ]; lia)].
Qed.

(** After a run that completes, each image sequence has as many frames as
    sets were asked for, and each timestamp sequence has grown by that
    many entries over what it held before the run. *)
Lemma acquire_images_lengths (w w' : World) :
  acquire_images w = (Ok tt, w') ->
  let n := Z.to_nat (sets_to_acquire (params (fst w))) in
  all_length (image_dict (fst w')) n /\
  dict_lengths (image_start_time_dict (fst w'))
  = shift_lengths n (dict_lengths (image_start_time_dict (fst w))).
Proof.
  destruct w as [self hw].
  unfold acquire_images, bindM, camera_start_acquisition, serial_write,
    modify_self, read_self, camera_stop_acquisition.
  cbn [fst snd].
  match goal with
  | |- context [acquire_sets ?n ?w0] =>
      destruct (acquire_sets n w0) as [[[]|e] w1] eqn:E
  end; [ | discriminate].
  intros H. injection H as <-. cbn [fst snd].
  apply acquire_sets_lengths in E. cbn in E.
  destruct E as (_ & Hi & Ht). split.
  - unfold dict_lengths in Hi. injection Hi as H1 H2 H3.
    unfold all_length. auto.
  - exact Ht.
Qed.

(** C9: two completed runs on one object, one set each.  After the first
    run images and timestamps have length 1.  After the second run each
    image sequence has length 1 again, [sets_to_acquire], while each
    timestamp sequence has length 2: the timestamps of the first run are
    still there. *)
Theorem acquire_images_twice_timestamps_accumulate :
  let w0 := (rld_one_set, hw_six_frames) in
  let w1 := snd (acquire_images w0) in
  let w2 := snd (acquire_images w1) in
  fst (acquire_images w0) = Ok tt /\
  all_length (image_dict (fst w1)) 1 /\
  all_length (image_start_time_dict (fst w1)) 1 /\
  fst (acquire_images w1) = Ok tt /\
  all_length (image_dict (fst w2)) 1 /\
  all_length (image_start_time_dict (fst w2)) 2 /\
  image_start_time_dict (fst w2) = mkDict [100; 400] [200; 500] [300; 600].
Proof.
  vm_compute. repeat split.
Qed.

(** ** The lifetime reduction *)

Section Reduction.
Local Open Scope R_scope.

Ltac case_R :=
  unfold Reqb, Rltb in *;
  repeat match goal with
         | |- context [Req_dec_T ?a ?b] => destruct (Req_dec_T a b)
         | |- context [Rlt_dec ?a ?b] => destruct (Rlt_dec a b)
         end.

Lemma map2_length {A B C} (f : A -> B -> C) xs ys :
  List.length xs = List.length ys -> List.length (map2 f xs ys) = List.length xs.
Proof.
  revert ys. induction xs as [ | x xs IH]; intros [ | y ys]; simpl; intros H;
    try discriminate; auto.
Qed.

Lemma map2_map {A A' B B' C} (f : A' -> B' -> C) (g : A -> A') (h : B -> B') xs ys :
  map2 f (map g xs) (map h ys) = map2 (fun x y => f (g x) (h y)) xs ys.
Proof.
  revert ys. induction xs as [ | x xs IH]; intros [ | y ys]; simpl; auto.
  now rewrite IH.
Qed.

Lemma map_map2 {A B C D} (g : C -> D) (f : A -> B -> C) xs ys :
  map g (map2 f xs ys) = map2 (fun x y => g (f x y)) xs ys.
Proof.
  revert ys. induction xs as [ | x xs IH]; intros [ | y ys]; simpl; auto.
  now rewrite IH.
Qed.

Lemma nth_error_map2 {A B C} (f : A -> B -> C) xs ys i x y :
  nth_error xs i = Some x -> nth_error ys i = Some y ->
  nth_error (map2 f xs ys) i = Some (f x y).
Proof.
  revert ys i. induction xs as [ | a xs IH]; intros [ | b ys] [ | i]; simpl;
    intros H1 H2; try discriminate.
  - congruence.
  - now apply IH.
Qed.

(** On arrays of one shape [calculate_lifetime] returns, and it is
    [lifetime_px] at every pixel. *)
Lemma calculate_lifetime_pixelwise (delta_t : npfloat) (xs ys : list npfloat) :
  List.length xs = List.length ys ->
  calculate_lifetime delta_t (Arr xs) (Arr ys)
  = Ok (Arr (map2 (lifetime_px delta_t) xs ys)).
Proof.
  intros Hlen.
  unfold calculate_lifetime, arr_replace_zeroes_by_nan, arr_replace_negatives_by_nan,
    assign_nan_where, nd_map, broadcast.
  cbn [bind].
  rewrite !length_map, Hlen, Nat.eqb_refl. cbn [bind].
  rewrite !map_map, map2_map, !map_map2. reflexivity.
Qed.

Lemma np_mul_one (x : npfloat) : np_mul x (Fin 1) = x.
Proof.
  destruct x; simpl; try reflexivity; case_R; try lra; try reflexivity.
  f_equal. ring.
Qed.

Lemma Reqb_true (x y : R) : x = y -> Reqb x y = true.
Proof. intros H. unfold Reqb. destruct (Req_dec_T x y); [reflexivity | contradiction]. Qed.

Lemma Reqb_false (x y : R) : x <> y -> Reqb x y = false.
Proof. intros H. unfold Reqb. destruct (Req_dec_T x y); [contradiction | reflexivity]. Qed.

Lemma Rltb_true (x y : R) : x < y -> Rltb x y = true.
Proof. intros H. unfold Rltb. destruct (Rlt_dec x y); [reflexivity | contradiction]. Qed.

Lemma Rltb_false (x y : R) : ~ x < y -> Rltb x y = false.
Proof. intros H. unfold Rltb. destruct (Rlt_dec x y); [contradiction | reflexivity]. Qed.

Lemma px_zero_nan_fin (x : R) :
  px_zero_nan (Fin x) = if Reqb x 0 then NaN else Fin x.
Proof.
  unfold px_zero_nan. rewrite np_mul_one. reflexivity.
Qed.

Lemma px_negative_nan_fin (x : R) :
  px_negative_nan (Fin x) = if Rltb x 0 then NaN else Fin x.
Proof.
  unfold px_negative_nan. rewrite np_mul_one. reflexivity.
Qed.

Lemma np_div_nan_right (delta_t : npfloat) : np_div delta_t NaN = NaN.
Proof. destruct delta_t; reflexivity. Qed.

Lemma lifetime_px_of_nan_ratio (delta_t : npfloat) :
  np_div delta_t (px_negative_nan (px_zero_nan (np_log NaN))) = NaN.
Proof. cbn. apply np_div_nan_right. Qed.

(** The pixels with no data: zero in window 2, zero ratio, or a
    non-positive logarithm of the ratio. *)
Lemma lifetime_px_no_data (delta_t : npfloat) (x y : R) :
  y = 0 \/ x / y = 0 \/ ln (x / y) <= 0 ->
  lifetime_px delta_t (Fin x) (Fin y) = NaN.
Proof.
  intros H. unfold lifetime_px. rewrite !px_zero_nan_fin.
  destruct (Req_dec_T y 0) as [Hy | Hy].
  { rewrite (Reqb_true y 0 Hy).
    destruct (Reqb x 0); apply lifetime_px_of_nan_ratio. }
  rewrite (Reqb_false y 0 Hy).
  destruct (Req_dec_T x 0) as [Hx | Hx].
  { rewrite (Reqb_true x 0 Hx). apply lifetime_px_of_nan_ratio. }
  rewrite (Reqb_false x 0 Hx).
  assert (Hr : x / y <> 0).
  { unfold Rdiv. apply Rmult_integral_contrapositive_currified;
      [exact Hx | apply Rinv_neq_0_compat; exact Hy]. }
  cbn [np_div]. rewrite (Reqb_false y 0 Hy). cbn [np_log].
  destruct (Rlt_dec (x / y) 0) as [Hneg | Hpos].
  { rewrite (Rltb_true _ _ Hneg). cbn. apply np_div_nan_right. }
  rewrite (Rltb_false _ _ Hpos), (Reqb_false _ _ Hr), px_zero_nan_fin.
  destruct H as [H | [H | H]]; try contradiction.
  destruct (Req_dec_T (ln (x / y)) 0) as [E0 | E0].
  - rewrite (Reqb_true _ _ E0). cbn. apply np_div_nan_right.
  - rewrite (Reqb_false _ _ E0), px_negative_nan_fin, Rltb_true by lra.
    apply np_div_nan_right.
Qed.

(** The pixels with data: a decaying signal, [0 < w2 < w1]. *)
Lemma lifetime_px_decay (t x y : R) :
  0 < y -> y < x ->
  0 < ln (x / y) /\
  lifetime_px (Fin t) (Fin x) (Fin y) = Fin (t / ln (x / y)).
Proof.
  intros Hy Hxy.
  assert (Hr : 1 < x / y).
  { apply Rmult_lt_reg_r with y; [exact Hy | ]. unfold Rdiv.
    rewrite Rmult_assoc, Rinv_l by lra. lra. }
  assert (Hln : 0 < ln (x / y)).
  { rewrite <- ln_1. apply ln_increasing; lra. }
  split; [exact Hln | ].
  unfold lifetime_px. rewrite !px_zero_nan_fin.
  rewrite (Reqb_false x 0), (Reqb_false y 0) by lra.
  cbn [np_div]. rewrite (Reqb_false y 0) by lra. cbn [np_log].
  rewrite Rltb_false, Reqb_false, px_zero_nan_fin by lra.
  rewrite Reqb_false, px_negative_nan_fin, Rltb_false by lra.
  cbn [np_div]. rewrite Reqb_false by lra. reflexivity.
Qed.

Lemma column_sums_length (npix : nat) (imgs : list image) :
  Forall (fun im => List.length im = npix) imgs ->
  List.length (column_sums npix imgs) = npix.
Proof.
  induction 1 as [ | im rest Him _ IH]; simpl.
  - apply repeat_length.
  - unfold add_images. rewrite map2_length; congruence.
Qed.

Lemma column_sums_nth_error (npix : nat) (imgs : list image) (i : nat) :
  Forall (fun im => List.length im = npix) imgs ->
  (i < npix)%nat ->
  nth_error (column_sums npix imgs) i = Some (pixel_sum imgs i).
Proof.
  intros Hall Hi. induction Hall as [ | im rest Him _ IH]; simpl.
  - apply nth_error_repeat. exact Hi.
  - unfold add_images. apply nth_error_map2; [ | exact IH].
    apply nth_error_nth'. lia.
Qed.

Lemma same_shape_frames (npix : nat) (imgs : list image) :
  Forall (fun im => List.length im = npix) imgs -> same_shape imgs = true.
Proof.
  destruct 1 as [ | im rest Him Hrest]; simpl; [reflexivity | ].
  apply forallb_forall. intros x Hx.
  rewrite Forall_forall in Hrest. rewrite (Hrest x Hx), Him. apply Nat.eqb_refl.
Qed.

(** The mean of a well-formed list of frames. *)
Lemma np_average_frames (npix : nat) (imgs : list image) :
  frames_of npix imgs ->
  exists avg,
    np_average imgs = Ok (Arr avg) /\
    List.length avg = npix /\
    forall i, (i < npix)%nat -> nth_error avg i = Some (Fin (pixel_mean imgs i)).
Proof.
  intros [Hne Hall]. unfold np_average.
  destruct imgs as [ | im rest] eqn:E; [contradiction | ]. rewrite <- E in *.
  rewrite (same_shape_frames npix imgs Hall).
  assert (Him : List.length im = npix).
  { rewrite E in Hall. inversion Hall; assumption. }
  rewrite Him. eexists. split; [reflexivity | split].
  - rewrite length_map. apply column_sums_length. exact Hall.
  - intros i Hi. rewrite nth_error_map, column_sums_nth_error by assumption.
    reflexivity.
Qed.

(** On a well-formed stack the reduction returns a map of [npix] pixels
    whose pixel [i] is [lifetime_px] of the two dark-subtracted means. *)
Lemma calculate_average_lifetime_pixelwise (self : RLD) (npix : nat) :
  well_formed_stack (image_dict self) npix ->
  exists out,
    calculate_average_lifetime self = Ok (set_average_lifetime (Some (Arr out)) self) /\
    List.length out = npix /\
    forall i, (i < npix)%nat ->
      nth_error out i
      = Some (lifetime_px (Fin (delta_t_of (params self)))
                (Fin (dark_subtracted (image_dict self) window1 i))
                (Fin (dark_subtracted (image_dict self) window2 i))).
Proof.
  intros (H1 & H2 & Hd).
  destruct (np_average_frames npix _ H1) as (a1 & E1 & L1 & N1).
  destruct (np_average_frames npix _ H2) as (a2 & E2 & L2 & N2).
  destruct (np_average_frames npix _ Hd) as (ad & Ed & Ld & Nd).
  unfold calculate_average_lifetime.
  rewrite Ed, E1, E2. cbn [bind broadcast].
  rewrite L1, L2, Ld, Nat.eqb_refl. cbn [bind].
  rewrite calculate_lifetime_pixelwise by (rewrite !map2_length; congruence).
  cbn [bind]. eexists. split; [reflexivity | split].
  - rewrite !map2_length; rewrite ?map2_length; congruence.
  - intros i Hi. unfold dark_subtracted, dict_get.
    apply nth_error_map2.
    + change (Fin (pixel_mean (at_window1 (image_dict self)) i
                   - pixel_mean (at_dark (image_dict self)) i))
        with (np_sub (Fin (pixel_mean (at_window1 (image_dict self)) i))
                     (Fin (pixel_mean (at_dark (image_dict self)) i))).
      apply nth_error_map2; auto.
    + change (Fin (pixel_mean (at_window2 (image_dict self)) i
                   - pixel_mean (at_dark (image_dict self)) i))
        with (np_sub (Fin (pixel_mean (at_window2 (image_dict self)) i))
                     (Fin (pixel_mean (at_dark (image_dict self)) i))).
      apply nth_error_map2; auto.
Qed.

Lemma num_val_py_sub (a b : pynum) :
  (num_val (py_sub a b) == num_val a - num_val b)%Q.
Proof.
  destruct a, b; simpl; try reflexivity.
  unfold Zminus. rewrite inject_Z_plus, inject_Z_opp. reflexivity.
Qed.

Lemma delta_t_positive (p : ImagingParameters) :
  (num_val (delay_window1_us p) < num_val (delay_window2_us p))%Q ->
  0 < delta_t_of p.
Proof.
  intros H. unfold delta_t_of.
  rewrite (Qeq_eqR _ _ (num_val_py_sub _ _)), Q2R_minus.
  apply Qlt_Rlt in H. lra.
Qed.

(** The sign convention on a literal pixel: with [delta_t = 20],
    [w1 = 100] and [w2 = 100/e] the lifetime is 20. *)
Example lifetime_px_one_over_e :
  lifetime_px (Fin 20) (Fin 100) (Fin (100 * exp (- (1)))) = Fin 20.
Proof.
  assert (He : 0 < exp (- (1))) by apply exp_pos.
  assert (He1 : exp (- (1)) < 1).
  { pose proof (exp_increasing (- (1)) 0 ltac:(lra)) as H. now rewrite exp_0 in H. }
  destruct (lifetime_px_decay 20 100 (100 * exp (- (1)))) as [_ ->]; try lra.
  f_equal.
  replace (100 / (100 * exp (- (1)))) with (exp 1).
  - rewrite ln_exp. lra.
  - rewrite exp_Ropp. field. apply Rgt_not_eq, exp_pos.
Qed.

(** A pixel with [w1 = 50] and [w2 = 0] holds NaN. *)
Example lifetime_px_zero_window2 :
  lifetime_px (Fin 20) (Fin 50) (Fin 0) = NaN.
Proof.
  apply lifetime_px_no_data. left. reflexivity.
Qed.

(** C1 (as amended): for every parameter set whose two delays are
    binary64 numbers with [delay_window1_us] at least 10^-6 below
    [delay_window2_us], and every well-formed stack (three non-empty
    windows of frames of one size) of 16-bit frames, at most 65536 to a
    window, the reduction returns a map with a finite, positive lifetime
    at every pixel where the dark-subtracted averages satisfy
    [0 < window2 < window1].  (The bounds on delays and frames are those
    under which binary64 neither overflows, underflows nor rounds two
    different means together; the exact arithmetic of the embedding does
    not need them.) *)
Theorem lifetime_positive_where_signal_decays (self : RLD) (npix : nat) :
  routine_stack (image_dict self) npix ->
  num_binary64 (delay_window1_us (params self)) = true ->
  num_binary64 (delay_window2_us (params self)) = true ->
  (num_val (delay_window1_us (params self)) + (1 # 1000000)
   <= num_val (delay_window2_us (params self)))%Q ->
  exists out,
    calculate_average_lifetime self = Ok (set_average_lifetime (Some (Arr out)) self) /\
    List.length out = npix /\
    forall i, (i < npix)%nat ->
      0 < dark_subtracted (image_dict self) window2 i ->
      dark_subtracted (image_dict self) window2 i
        < dark_subtracted (image_dict self) window1 i ->
      exists t, nth_error out i = Some (Fin t) /\ 0 < t.
Proof.
  intros [Hwf _] _ _ Hgap.
  assert (Hdelay : (num_val (delay_window1_us (params self))
                    < num_val (delay_window2_us (params self)))%Q) by lra.
  destruct (calculate_average_lifetime_pixelwise self npix Hwf) as (out & E & L & N).
  exists out. split; [exact E | split; [exact L | ]].
  intros i Hi H2 H12.
  destruct (lifetime_px_decay (delta_t_of (params self)) _ _ H2 H12) as [Hln Hpx].
  eexists. split; [rewrite (N i Hi), Hpx; reflexivity | ].
  apply Rdiv_lt_0_compat; [apply delta_t_positive; exact Hdelay | exact Hln].
Qed.

Lemma rld_two_pixels_well_formed : well_formed_stack (image_dict rld_two_pixels) 2.
Proof.
  repeat split; try discriminate; repeat constructor.
Qed.

Lemma rld_two_pixels_decaying :
  dark_subtracted (image_dict rld_two_pixels) window1 0 = 300 /\
  dark_subtracted (image_dict rld_two_pixels) window2 0 = 100.
Proof.
  unfold dark_subtracted, pixel_mean, pixel_sum. cbn. split; lra.
Qed.

Lemma rld_two_pixels_routine : routine_stack (image_dict rld_two_pixels) 2.
Proof.
  split; [exact rld_two_pixels_well_formed | ].
  intros k. split.
  - destruct k; repeat constructor; cbn; lia.
  - destruct k; cbn; lia.
Qed.

Lemma lifetime_positive_where_signal_decays_witness :
  exists out,
    calculate_average_lifetime rld_two_pixels
    = Ok (set_average_lifetime (Some (Arr out)) rld_two_pixels) /\
    List.length out = 2%nat /\
    exists t, nth_error out 0 = Some (Fin t) /\ 0 < t.
Proof.
  destruct (lifetime_positive_where_signal_decays rld_two_pixels 2
              rld_two_pixels_routine eq_refl eq_refl) as (out & E & L & N).
  { vm_compute. discriminate. }
  exists out. split; [exact E | split; [exact L | ]].
  destruct rld_two_pixels_decaying as [E1 E2].
  apply (N 0%nat); [lia | rewrite E2; lra | rewrite E1, E2; lra].
Defined.

Lemma rld_two_pixels_rising :
  dark_subtracted (image_dict rld_two_pixels) window1 1 = 50 /\
  dark_subtracted (image_dict rld_two_pixels) window2 1 = 200.
Proof.
  unfold dark_subtracted, pixel_mean, pixel_sum. cbn. split; lra.
Qed.

(** C1 (as stated) fails: at pixel 1 of this well-formed stack the
    dark-subtracted averages are 50 and 200, so [0 < window1 < window2],
    the delays are the defaults 2.5 < 22.5, and the lifetime there is NaN. *)
Lemma lifetime_nan_where_signal_rises :
  well_formed_stack (image_dict rld_two_pixels) 2 /\
  (num_val (delay_window1_us (params rld_two_pixels))
   < num_val (delay_window2_us (params rld_two_pixels)))%Q /\
  0 < dark_subtracted (image_dict rld_two_pixels) window1 1
    < dark_subtracted (image_dict rld_two_pixels) window2 1 /\
  exists out,
    calculate_average_lifetime rld_two_pixels
    = Ok (set_average_lifetime (Some (Arr out)) rld_two_pixels) /\
    nth_error out 1 = Some NaN.
Proof.
  destruct rld_two_pixels_rising as [E1 E2].
  split; [exact rld_two_pixels_well_formed | ].
  split; [reflexivity | ].
  split; [rewrite E1, E2; lra | ].
  destruct (calculate_average_lifetime_pixelwise rld_two_pixels 2
              rld_two_pixels_well_formed) as (out & E & _ & N).
  exists out. split; [exact E | ].
  rewrite (N 1%nat) by lia. f_equal.
  apply lifetime_px_no_data. right. right.
  rewrite E1, E2. rewrite <- ln_1.
  left. apply ln_increasing; lra.
Qed.

Lemma ln_nonpos_arg (x : R) : x <= 0 -> ln x = 0.
Proof.
  intros H. unfold ln. destruct (Rlt_dec 0 x); [exfalso; lra | reflexivity].
Qed.

Lemma ln_le_1_nonpos (x : R) : x <= 1 -> ln x <= 0.
Proof.
  intros H. destruct (Rle_lt_dec x 0) as [H0 | H0].
  - rewrite ln_nonpos_arg by exact H0. lra.
  - destruct H as [H | ->]; [ | rewrite ln_1; lra].
    left. rewrite <- ln_1. apply ln_increasing; assumption.
Qed.

Lemma lifetime_px_ratio (t x y : R) :
  y <> 0 -> 1 < x / y ->
  0 < ln (x / y) /\
  lifetime_px (Fin t) (Fin x) (Fin y) = Fin (t / ln (x / y)).
Proof.
  intros Hy Hr.
  assert (Hx : x <> 0).
  { intros ->. unfold Rdiv in Hr. rewrite Rmult_0_l in Hr. lra. }
  assert (Hln : 0 < ln (x / y)).
  { rewrite <- ln_1. apply ln_increasing; lra. }
  split; [exact Hln | ].
  unfold lifetime_px. rewrite !px_zero_nan_fin.
  rewrite (Reqb_false x 0), (Reqb_false y 0) by assumption.
  cbn [np_div]. rewrite (Reqb_false y 0) by assumption. cbn [np_log].
  rewrite Rltb_false, Reqb_false, px_zero_nan_fin by lra.
  rewrite Reqb_false, px_negative_nan_fin, Rltb_false by lra.
  cbn [np_div]. rewrite Reqb_false by lra. reflexivity.
Qed.

(** C2: on inputs of one shape [calculate_lifetime] returns a map (it
    does not raise, whatever the pixel values).  At every pixel where
    window 2 is zero, or the ratio window1/window2 is zero, or the
    logarithm of the ratio is not positive, the map holds NaN: neither an
    infinity nor a finite number.  Every pixel of the map is what the
    computation gives on that pixel alone, so that a no-data pixel does
    not disturb another; and at every other pixel (window 2 not zero, the
    ratio not zero and its logarithm positive) the map of a finite
    [delta_t] holds a number, not NaN. *)
Theorem calculate_lifetime_no_data_is_nan
    (delta_t : npfloat) (xs ys : list npfloat) :
  List.length xs = List.length ys ->
  exists out,
    calculate_lifetime delta_t (Arr xs) (Arr ys) = Ok (Arr out) /\
    List.length out = List.length xs /\
    (forall i x y,
       nth_error xs i = Some (Fin x) -> nth_error ys i = Some (Fin y) ->
       y = 0 \/ x / y = 0 \/ ln (x / y) <= 0 ->
       nth_error out i = Some NaN) /\
    (forall i x y,
       nth_error xs i = Some x -> nth_error ys i = Some y ->
       exists v,
         calculate_lifetime delta_t (Arr [x]) (Arr [y]) = Ok (Arr [v]) /\
         nth_error out i = Some v) /\
    (forall i d x y,
       delta_t = Fin d ->
       nth_error xs i = Some (Fin x) -> nth_error ys i = Some (Fin y) ->
       y <> 0 -> x / y <> 0 -> 0 < ln (x / y) ->
       exists v, nth_error out i = Some v /\ v <> NaN).
Proof.
  intros Hlen. eexists. split; [apply calculate_lifetime_pixelwise; exact Hlen | ].
  split; [apply map2_length; exact Hlen | ].
  split; [ | split].
  - intros i x y Hx Hy H.
    rewrite (nth_error_map2 _ _ _ _ _ _ Hx Hy). f_equal.
    apply lifetime_px_no_data. exact H.
  - intros i x y Hx Hy. exists (lifetime_px delta_t x y). split.
    + rewrite calculate_lifetime_pixelwise by reflexivity. reflexivity.
    + apply (nth_error_map2 _ _ _ _ _ _ Hx Hy).
  - intros i d x y -> Hx Hy Hy0 _ Hln.
    assert (Hr : 1 < x / y).
    { destruct (Rlt_dec 1 (x / y)) as [Hr | Hr]; [exact Hr | ].
      pose proof (ln_le_1_nonpos (x / y) ltac:(lra)). lra. }
    destruct (lifetime_px_ratio d x y Hy0 Hr) as [_ Hpx].
    eexists. split.
    + rewrite (nth_error_map2 _ _ _ _ _ _ Hx Hy), Hpx. reflexivity.
    + discriminate.
Qed.

Lemma calculate_lifetime_no_data_is_nan_witness :
  exists out,
    calculate_lifetime (Fin 20) (Arr [Fin 50; Fin 100; Fin 0]) (Arr [Fin 0; Fin 50; Fin 10])
    = Ok (Arr out) /\
    List.length out = 3%nat /\
    nth_error out 0 = Some NaN /\
    nth_error out 2 = Some NaN /\
    (exists v,
       calculate_lifetime (Fin 20) (Arr [Fin 100]) (Arr [Fin 50]) = Ok (Arr [v]) /\
       nth_error out 1 = Some v) /\
    (exists v, nth_error out 1 = Some v /\ v <> NaN).
Proof.
  destruct (calculate_lifetime_no_data_is_nan (Fin 20)
              [Fin 50; Fin 100; Fin 0] [Fin 0; Fin 50; Fin 10] eq_refl)
    as (out & E & L & N & Loc & Good).
  exists out. split; [exact E | split; [exact L | ]].
  split; [ | split; [ | split]].
  - apply (N 0%nat 50 0); [reflexivity | reflexivity | left; reflexivity].
  - apply (N 2%nat 0 10); [reflexivity | reflexivity | right; left; lra].
  - apply (Loc 1%nat (Fin 100) (Fin 50)); reflexivity.
  - assert (H2 : 1 < 100 / 50) by lra.
    apply (Good 1%nat 20 100 50); [reflexivity | reflexivity | reflexivity | lra | lra | ].
    rewrite <- ln_1. apply ln_increasing; lra.
Defined.

(** C4 (as amended): on a stack whose three windows are all empty the
    reduction produces no map: the means over no frames are scalar NaNs
    and the NaN substitution on a scalar raises TypeError. *)
Theorem empty_stack_raises_type_error (self : RLD) :
  image_dict self = empty_dict ->
  calculate_average_lifetime self = Raise TypeError.
Proof.
  intros H. unfold calculate_average_lifetime. rewrite H. reflexivity.
Qed.

Lemma empty_stack_raises_type_error_witness :
  calculate_average_lifetime RLD_init = Raise TypeError.
Proof.
  apply (empty_stack_raises_type_error RLD_init). reflexivity.
Defined.

(** C4 (as stated) fails: on the object [RLD()] makes, all three windows
    empty, the reduction ends in TypeError; no EmptyStack is raised. *)
Lemma empty_stack_is_not_EmptyStack :
  image_dict RLD_init = empty_dict /\
  calculate_average_lifetime RLD_init = Raise (Exn "TypeError") /\
  calculate_average_lifetime RLD_init <> Raise (Exn "EmptyStack").
Proof.
  split; [reflexivity | split; [reflexivity | discriminate]].
Qed.

End Reduction.

(* ================================================================== *)
(** * Further properties of the code *)

(** ** Acquisition: the outcome of a run on any camera *)

Lemma thirds_triple {A} (a b c : A) (rest : list A) :
  thirds (a :: b :: c :: rest)
  = let '(x, y, z) := thirds rest in (a :: x, b :: y, c :: z).
Proof. simpl. destruct (thirds rest) as [[x y] z]. reflexivity. Qed.

Lemma dict_app_empty {A} (d : window_dict A) : dict_app d empty_dict = d.
Proof. destruct d. unfold dict_app. simpl. now rewrite !app_nil_r. Qed.

(** One full set: three pulls, filed under the three keys in turn. *)
Lemma acquire_triple_full (self : RLD) (hw : Hardware) d1 t1 d2 t2 d3 t3 rest :
  cam_frames hw = (d1, t1) :: (d2, t2) :: (d3, t3) :: rest ->
  for_each dict_keys acquire_frame (self, hw)
  = (Ok tt,
     (mkRLD (params self) d3
        (dict_app (image_dict self) (mkDict [d1] [d2] [d3]))
        (dict_app (image_start_time_dict self) (mkDict [t1] [t2] [t3]))
        (average_lifetime self),
      mkHw rest t3 (cam_acquiring hw) (serial_written hw))).
Proof.
  intros H.
  unfold for_each, dict_keys, acquire_frame, bindM, camera_get_image,
    camera_get_timestamp, modify_self, read_self, ret.
  cbn [fst snd]. rewrite H. cbn. reflexivity.
Qed.

Lemma dict_app_assoc {A} (d e f : window_dict A) :
  dict_app (dict_app d e) f = dict_app d (dict_app e f).
Proof. unfold dict_app. simpl. now rewrite <- !app_assoc. Qed.

Lemma dict_of_thirds_triple {A} (a b c : A) (rest : list A) :
  dict_of_thirds (thirds (a :: b :: c :: rest))
  = dict_app (mkDict [a] [b] [c]) (dict_of_thirds (thirds rest)).
Proof.
  rewrite thirds_triple. destruct (thirds rest) as [[x y] z]. reflexivity.
Qed.

Lemma acquire_sets_outcome (n : nat) :
  forall (self : RLD) (hw : Hardware),
  let fs := cam_frames hw in
  let got := firstn (3 * n) fs in
  let complete := (3 * n <=? List.length fs)%nat in
  fst (acquire_sets n (self, hw)) = (if complete then Ok tt else Raise Xi_error) /\
  params (fst (snd (acquire_sets n (self, hw)))) = params self /\
  average_lifetime (fst (snd (acquire_sets n (self, hw)))) = average_lifetime self /\
  image_dict (fst (snd (acquire_sets n (self, hw))))
  = dict_app (image_dict self) (dict_of_thirds (thirds (map fst got))) /\
  image_start_time_dict (fst (snd (acquire_sets n (self, hw))))
  = dict_app (image_start_time_dict self) (dict_of_thirds (thirds (map snd got))) /\
  cam_frames (snd (snd (acquire_sets n (self, hw)))) = skipn (3 * n) fs /\
  cam_acquiring (snd (snd (acquire_sets n (self, hw)))) = cam_acquiring hw /\
  serial_written (snd (snd (acquire_sets n (self, hw)))) = serial_written hw.
Proof.
  induction n as [ | n IH]; intros self hw.
  - destruct self as [p i [a b c] [ta tb tc] l]. cbn.
    unfold dict_app. cbn. rewrite !app_nil_r. repeat split; reflexivity.
  - replace (3 * S n)%nat with (S (S (S (3 * n)))) by lia.
    cbn [acquire_sets]. unfold bindM at 1.
    destruct hw as [fs ts acq ser]. cbn [cam_frames cam_acquiring serial_written].
    destruct fs as [ | [d1 t1] [ | [d2 t2] [ | [d3 t3] rest]]].
    + cbn. destruct self as [p i [a b c] [ta tb tc] l]. cbn.
      unfold dict_app. cbn. rewrite !app_nil_r. repeat split; reflexivity.
    + cbn. destruct self as [p i [a b c] [ta tb tc] l]. cbn.
      unfold dict_app. cbn. rewrite !app_nil_r. repeat split; reflexivity.
    + cbn. destruct self as [p i [a b c] [ta tb tc] l]. cbn.
      unfold dict_app. cbn. rewrite !app_nil_r. repeat split; reflexivity.
    + rewrite (acquire_triple_full self
                 (mkHw ((d1, t1) :: (d2, t2) :: (d3, t3) :: rest) ts acq ser)
                 d1 t1 d2 t2 d3 t3 rest eq_refl).
      cbn [firstn skipn map List.length Nat.leb].
      rewrite !dict_of_thirds_triple, <- !dict_app_assoc.
      match goal with
      | |- context [acquire_sets n (?s, ?h)] => specialize (IH s h)
      end.
      cbn [cam_frames cam_acquiring serial_written params average_lifetime
           image_dict image_start_time_dict] in IH.
      exact IH.
Qed.

(** X1: what [acquire_images] does on any camera.  With [n] the number of
    sets asked for, it pulls the first [3 n] pending frames (or all of
    them, when fewer are pending) and files them in turn under window1,
    window2 and dark; the images replace the old stack, the timestamps are
    appended to the old ones.  It ends normally exactly when [3 n] frames
    were pending; otherwise the pull that finds none raises Xi_error, the
    frames pulled so far are kept and the camera is left acquiring.  In
    both cases one command, [A], is written to the port, and the
    parameters and the lifetime map are untouched. *)
Theorem acquire_images_outcome (self : RLD) (hw : Hardware) :
  let n := Z.to_nat (sets_to_acquire (params self)) in
  let got := firstn (3 * n) (cam_frames hw) in
  let complete := (3 * n <=? List.length (cam_frames hw))%nat in
  let self' := fst (snd (acquire_images (self, hw))) in
  let hw' := snd (snd (acquire_images (self, hw))) in
  fst (acquire_images (self, hw)) = (if complete then Ok tt else Raise Xi_error) /\
  image_dict self' = dict_of_thirds (thirds (map fst got)) /\
  image_start_time_dict self'
  = dict_app (image_start_time_dict self) (dict_of_thirds (thirds (map snd got))) /\
  cam_frames hw' = skipn (3 * n) (cam_frames hw) /\
  cam_acquiring hw' = negb complete /\
  serial_written hw' = serial_written hw ++ [("A" ++ LF)%string] /\
  params self' = params self /\
  average_lifetime self' = average_lifetime self.
Proof.
  cbv zeta.
  unfold acquire_images, bindM, camera_start_acquisition, serial_write,
    modify_self, read_self, camera_stop_acquisition.
  cbn [fst snd].
  match goal with
  | |- context [acquire_sets ?n (?s, ?h)] =>
      pose proof (acquire_sets_outcome n s h) as H;
      destruct (acquire_sets n (s, h)) as [r [s1 h1]] eqn:E
  end.
  cbn [fst snd cam_frames cam_acquiring serial_written params average_lifetime
       image_dict image_start_time_dict set_image_dict] in H.
  cbv zeta in H.
  destruct H as (Hr & Hp & Ha & Hi & Ht & Hf & Hq & Hs).
  subst r.
  assert (Hd : forall d : window_dict image, dict_app empty_dict d = d)
    by (intros [a b c]; reflexivity).
  rewrite Hd in Hi.
  destruct (3 * Z.to_nat (sets_to_acquire (params self)) <=? List.length (cam_frames hw))%nat;
    cbn [fst snd cam_frames cam_acquiring serial_written negb];
    repeat split; assumption.
Qed.

(** ** The lifetime reduction: what the map depends on *)

Section ReductionInvariance.
Local Open Scope R_scope.

Lemma lifetime_px_cases (t x y : R) :
  (y <> 0 /\ 1 < x / y /\
   lifetime_px (Fin t) (Fin x) (Fin y) = Fin (t / ln (x / y))) \/
  (~ (y <> 0 /\ 1 < x / y) /\ lifetime_px (Fin t) (Fin x) (Fin y) = NaN).
Proof.
  destruct (Req_dec_T y 0) as [Hy | Hy].
  - right. split; [tauto | ]. apply lifetime_px_no_data. left. exact Hy.
  - destruct (Rlt_dec 1 (x / y)) as [Hr | Hr].
    + left. split; [exact Hy | split; [exact Hr | ]].
      apply lifetime_px_ratio; assumption.
    + right. split; [tauto | ]. apply lifetime_px_no_data. right. right.
      apply ln_le_1_nonpos. lra.
Qed.

Lemma lifetime_map_ext (self self' : RLD) (npix : nat) :
  well_formed_stack (image_dict self) npix ->
  well_formed_stack (image_dict self') npix ->
  (forall i, (i < npix)%nat ->
     lifetime_px (Fin (delta_t_of (params self')))
       (Fin (dark_subtracted (image_dict self') window1 i))
       (Fin (dark_subtracted (image_dict self') window2 i))
     = lifetime_px (Fin (delta_t_of (params self)))
         (Fin (dark_subtracted (image_dict self) window1 i))
         (Fin (dark_subtracted (image_dict self) window2 i))) ->
  exists out,
    calculate_average_lifetime self = Ok (set_average_lifetime (Some (Arr out)) self) /\
    calculate_average_lifetime self' = Ok (set_average_lifetime (Some (Arr out)) self') /\
    List.length out = npix.
Proof.
  intros Hw Hw' Hpx.
  destruct (calculate_average_lifetime_pixelwise self npix Hw) as (out & E & L & N).
  destruct (calculate_average_lifetime_pixelwise self' npix Hw') as (out' & E' & L' & N').
  assert (Heq : out' = out).
  { apply nth_error_ext. intros i.
    destruct (Nat.lt_ge_cases i npix) as [Hi | Hi].
    - rewrite (N i Hi), (N' i Hi). f_equal. apply Hpx. exact Hi.
    - transitivity (@None npfloat); [ | symmetry]; apply nth_error_None; lia. }
  subst out'. exists out. auto.
Qed.

Lemma pixel_sum_perm (imgs imgs' : list image) (i : nat) :
  Permutation imgs imgs' -> pixel_sum imgs i = pixel_sum imgs' i.
Proof.
  induction 1; simpl; lia.
Qed.

Lemma pixel_mean_perm (imgs imgs' : list image) (i : nat) :
  Permutation imgs imgs' -> pixel_mean imgs i = pixel_mean imgs' i.
Proof.
  intros H. unfold pixel_mean.
  now rewrite (pixel_sum_perm _ _ i H), (Permutation_length H).
Qed.

Lemma frames_of_perm (npix : nat) (imgs imgs' : list image) :
  Permutation imgs imgs' -> frames_of npix imgs -> frames_of npix imgs'.
Proof.
  intros H [Hne Hall]. split.
  - intros ->. apply Permutation_sym, Permutation_nil in H. contradiction.
  - rewrite Forall_forall in *. intros x Hx. apply Hall.
    apply Permutation_in with imgs'; [symmetry | ]; assumption.
Qed.

(** X2: the lifetime map does not depend on the order of the frames
    within a window: two objects with the same parameters whose windows
    hold the same frames in any order get the same map. *)
Theorem lifetime_map_frame_order (self self' : RLD) (npix : nat) :
  well_formed_stack (image_dict self) npix ->
  Permutation (at_window1 (image_dict self)) (at_window1 (image_dict self')) ->
  Permutation (at_window2 (image_dict self)) (at_window2 (image_dict self')) ->
  Permutation (at_dark (image_dict self)) (at_dark (image_dict self')) ->
  params self' = params self ->
  exists out,
    calculate_average_lifetime self = Ok (set_average_lifetime (Some (Arr out)) self) /\
    calculate_average_lifetime self' = Ok (set_average_lifetime (Some (Arr out)) self') /\
    List.length out = npix.
Proof.
  intros (H1 & H2 & Hd) P1 P2 Pd Hp.
  apply lifetime_map_ext.
  - exact (conj H1 (conj H2 Hd)).
  - exact (conj (frames_of_perm _ _ _ P1 H1)
             (conj (frames_of_perm _ _ _ P2 H2) (frames_of_perm _ _ _ Pd Hd))).
  - intros i _. rewrite Hp. unfold dark_subtracted, dict_get.
    now rewrite (pixel_mean_perm _ _ i P1), (pixel_mean_perm _ _ i P2),
      (pixel_mean_perm _ _ i Pd).
Qed.

Lemma lifetime_map_frame_order_witness :
  exists out,
    calculate_average_lifetime rld_two_frames
    = Ok (set_average_lifetime (Some (Arr out)) rld_two_frames) /\
    calculate_average_lifetime rld_two_frames_swapped
    = Ok (set_average_lifetime (Some (Arr out)) rld_two_frames_swapped) /\
    List.length out = 2%nat.
Proof.
  apply (lifetime_map_frame_order rld_two_frames rld_two_frames_swapped 2).
  - repeat split; try discriminate; repeat constructor.
  - apply perm_swap.
  - apply perm_swap.
  - apply perm_swap.
  - reflexivity.
Defined.

(** X5: which pixels of the lifetime map are NaN.  For a well-formed
    stack of 16-bit frames, at most 65536 to a window, and delays that
    are binary64 numbers, a pixel of the map is NaN exactly when it is
    not the case that the dark-subtracted window-2 mean [w2] is not zero
    and the ratio [w1 / w2] is above one; every other pixel holds a
    finite number, never an infinity. *)
Theorem lifetime_map_nan_iff_no_decay (self : RLD) (npix : nat) :
  routine_stack (image_dict self) npix ->
  num_binary64 (delay_window1_us (params self)) = true ->
  num_binary64 (delay_window2_us (params self)) = true ->
  exists out,
    calculate_average_lifetime self = Ok (set_average_lifetime (Some (Arr out)) self) /\
    List.length out = npix /\
    forall i, (i < npix)%nat ->
      let w1 := dark_subtracted (image_dict self) window1 i in
      let w2 := dark_subtracted (image_dict self) window2 i in
      (nth_error out i = Some NaN <-> ~ (w2 <> 0 /\ 1 < w1 / w2)) /\
      (w2 <> 0 /\ 1 < w1 / w2 -> exists t, nth_error out i = Some (Fin t)).
Proof.
  intros [Hwf _] _ _.
  destruct (calculate_average_lifetime_pixelwise self npix Hwf) as (out & E & L & N).
  exists out. split; [exact E | split; [exact L | ]].
  intros i Hi w1 w2. rewrite (N i Hi). fold w1 w2.
  destruct (lifetime_px_cases (delta_t_of (params self)) w1 w2)
    as [(H2 & Hr & ->) | (Hn & ->)].
  - split; [split | ].
    + intros H; discriminate H.
    + intros H; exfalso; apply H; split; assumption.
    + intros _. eexists. reflexivity.
  - split; [split | ].
    + intros _; exact Hn.
    + reflexivity.
    + intros H. contradiction.
Qed.

Lemma lifetime_map_nan_iff_no_decay_witness :
  exists out,
    calculate_average_lifetime rld_two_pixels
    = Ok (set_average_lifetime (Some (Arr out)) rld_two_pixels) /\
    List.length out = 2%nat /\
    forall i, (i < 2)%nat ->
      let w1 := dark_subtracted (image_dict rld_two_pixels) window1 i in
      let w2 := dark_subtracted (image_dict rld_two_pixels) window2 i in
      (nth_error out i = Some NaN <-> ~ (w2 <> 0 /\ 1 < w1 / w2)) /\
      (w2 <> 0 /\ 1 < w1 / w2 -> exists t, nth_error out i = Some (Fin t)).
Proof.
  apply (lifetime_map_nan_iff_no_decay rld_two_pixels 2).
  - split; [repeat split; try discriminate; repeat constructor | ].
    intros k. split.
    + destruct k; repeat constructor; cbn; lia.
    + destruct k; cbn; lia.
  - reflexivity.
  - reflexivity.
Defined.

Lemma np_sub_nan_r (x : npfloat) : np_sub x NaN = NaN.
Proof. destruct x; reflexivity. Qed.

Lemma lifetime_px_nan_l (d y : npfloat) : lifetime_px d NaN y = NaN.
Proof.
  unfold lifetime_px. cbn [px_zero_nan np_mul np_eq0].
  destruct (px_zero_nan y); cbn; apply np_div_nan_right.
Qed.

Lemma map2_all_nan (d : npfloat) (n : nat) :
  map2 (lifetime_px d) (repeat NaN n) (repeat NaN n) = repeat NaN n.
Proof.
  induction n as [ | n IH]; [reflexivity | ].
  cbn [repeat map2]. now rewrite IH, lifetime_px_nan_l.
Qed.

Lemma map_const_nan {A} (l : list A) : map (fun _ => NaN) l = repeat NaN (List.length l).
Proof. induction l; simpl; congruence. Qed.

Lemma map2_const_nan_r (xs ys : list npfloat) :
  List.length xs = List.length ys ->
  map2 np_sub xs (repeat NaN (List.length ys)) = repeat NaN (List.length ys) .
Proof.
  revert ys. induction xs as [ | x xs IH]; intros [ | y ys]; simpl; intros H;
    try discriminate; [reflexivity | ].
  rewrite np_sub_nan_r. f_equal. apply IH. lia.
Qed.

Lemma lifetime_px_nan_r (d x : npfloat) : lifetime_px d x NaN = NaN.
Proof.
  unfold lifetime_px. cbn [px_zero_nan np_mul np_eq0].
  rewrite np_div_nan_right. cbn. apply np_div_nan_right.
Qed.

Lemma map2_nan_l (d : npfloat) (ys : list npfloat) :
  map2 (lifetime_px d) (repeat NaN (List.length ys)) ys = repeat NaN (List.length ys).
Proof.
  induction ys as [ | y ys IH]; [reflexivity | ].
  cbn [List.length repeat map2]. now rewrite IH, lifetime_px_nan_l.
Qed.

Lemma map2_nan_r (d : npfloat) (xs : list npfloat) :
  map2 (lifetime_px d) xs (repeat NaN (List.length xs)) = repeat NaN (List.length xs).
Proof.
  induction xs as [ | x xs IH]; [reflexivity | ].
  cbn [List.length repeat map2]. now rewrite IH, lifetime_px_nan_r.
Qed.

Lemma map_sub_nan_l (ys : list npfloat) :
  map (np_sub NaN) ys = repeat NaN (List.length ys).
Proof. induction ys; simpl; congruence. Qed.

Lemma map_sub_nan_r (xs : list npfloat) :
  map (fun x => np_sub x NaN) xs = repeat NaN (List.length xs).
Proof.
  induction xs as [ | x xs IH]; simpl; [reflexivity | ].
  now rewrite np_sub_nan_r, IH.
Qed.

(** A window mean minus the dark mean, each window empty or well formed:
    a scalar NaN when both are empty, else an array of [npix] pixels that
    is all NaN as soon as one of the two is empty. *)
Lemma window_minus_dark (npix : nat) (w dk : list image) :
  frames_or_none npix w -> frames_or_none npix dk ->
  exists a b r,
    np_average w = Ok a /\ np_average dk = Ok b /\ broadcast np_sub a b = Ok r /\
    ((w = [] /\ dk = [] /\ r = Scalar NaN) \/
     (~ (w = [] /\ dk = []) /\
      exists xs, r = Arr xs /\ List.length xs = npix /\
                 (w = [] \/ dk = [] -> xs = repeat NaN npix))).
Proof.
  intros Hw Hd.
  destruct Hw as [-> | Hw], Hd as [-> | Hd].
  - exists (Scalar NaN), (Scalar NaN), (Scalar NaN). repeat split. left. repeat split.
  - destruct (np_average_frames npix dk Hd) as (b & Eb & Lb & _).
    exists (Scalar NaN), (Arr b), (Arr (map (np_sub NaN) b)).
    repeat split; [exact Eb | ].
    right. split; [intros [_ ->]; destruct Hd; contradiction | ].
    eexists. split; [reflexivity | split; [now rewrite length_map | ]].
    intros _. now rewrite map_sub_nan_l, Lb.
  - destruct (np_average_frames npix w Hw) as (a & Ea & La & _).
    exists (Arr a), (Scalar NaN), (Arr (map (fun x => np_sub x NaN) a)).
    repeat split; [exact Ea | ].
    right. split; [intros [-> _]; destruct Hw; contradiction | ].
    eexists. split; [reflexivity | split; [now rewrite length_map | ]].
    intros _. now rewrite map_sub_nan_r, La.
  - destruct (np_average_frames npix w Hw) as (a & Ea & La & _).
    destruct (np_average_frames npix dk Hd) as (b & Eb & Lb & _).
    exists (Arr a), (Arr b), (Arr (map2 np_sub a b)).
    repeat split; [exact Ea | exact Eb | | ].
    + cbn [broadcast]. now rewrite La, Lb, Nat.eqb_refl.
    + right. split; [intros [-> _]; destruct Hw; contradiction | ].
      eexists. split; [reflexivity | split; [rewrite map2_length; congruence | ]].
      intros [-> | ->]; [destruct Hw | destruct Hd]; contradiction.
Qed.

Lemma calculate_lifetime_scalar_l (d x : npfloat) (b : ndarray) :
  calculate_lifetime d (Scalar x) b = Raise TypeError.
Proof. reflexivity. Qed.

Lemma calculate_lifetime_scalar_r (d y : npfloat) (xs : list npfloat) :
  calculate_lifetime d (Arr xs) (Scalar y) = Raise TypeError.
Proof. reflexivity. Qed.

(** X6: the reduction on a stack with an empty window (the others being
    well-formed).  It raises TypeError exactly when the dark window is
    empty together with window 1 or window 2; in every other case (only
    the dark window empty, or one or both of window 1 and window 2 empty
    beside dark frames) it ends normally with a map that is NaN at every
    pixel. *)
Theorem lifetime_with_an_empty_window (self : RLD) (npix : nat) :
  frames_or_none npix (at_window1 (image_dict self)) ->
  frames_or_none npix (at_window2 (image_dict self)) ->
  frames_or_none npix (at_dark (image_dict self)) ->
  at_window1 (image_dict self) = [] \/ at_window2 (image_dict self) = [] \/
  at_dark (image_dict self) = [] ->
  let crash := at_dark (image_dict self) = [] /\
               (at_window1 (image_dict self) = [] \/ at_window2 (image_dict self) = []) in
  (crash /\ calculate_average_lifetime self = Raise TypeError) \/
  (~ crash /\
   calculate_average_lifetime self
   = Ok (set_average_lifetime (Some (Arr (repeat NaN npix))) self)).
Proof.
  intros H1 H2 Hd He crash. unfold crash.
  destruct (window_minus_dark npix _ _ H1 Hd) as (a1 & b & r1 & E1 & Ed & S1 & C1).
  destruct (window_minus_dark npix _ _ H2 Hd) as (a2 & b' & r2 & E2 & Ed' & S2 & C2).
  assert (b' = b) by congruence. subst b'.
  unfold calculate_average_lifetime. rewrite Ed, E1. cbn [bind].
  rewrite S1. cbn [bind]. rewrite E2. cbn [bind]. rewrite S2. cbn [bind].
  destruct C1 as [(W1 & D & ->) | (N1 & xs & -> & L1 & A1)].
  - left. rewrite calculate_lifetime_scalar_l. auto.
  - destruct C2 as [(W2 & D & ->) | (N2 & ys & -> & L2 & A2)].
    + left. rewrite calculate_lifetime_scalar_r. auto.
    + right. split; [tauto | ].
      rewrite calculate_lifetime_pixelwise by congruence. cbn [bind].
      do 4 f_equal.
      destruct He as [W | [W | D]].
      * rewrite (A1 (or_introl W)), <- L2. apply map2_nan_l.
      * rewrite (A2 (or_introl W)), <- L1. apply map2_nan_r.
      * rewrite (A1 (or_intror D)), <- L2. apply map2_nan_l.
Qed.

Lemma lifetime_with_an_empty_window_witness :
  let crash := at_dark (image_dict rld_no_dark) = [] /\
               (at_window1 (image_dict rld_no_dark) = [] \/
                at_window2 (image_dict rld_no_dark) = []) in
  (crash /\ calculate_average_lifetime rld_no_dark = Raise TypeError) \/
  (~ crash /\
   calculate_average_lifetime rld_no_dark
   = Ok (set_average_lifetime (Some (Arr (repeat NaN 2))) rld_no_dark)).
Proof.
  apply (lifetime_with_an_empty_window rld_no_dark 2).
  - right. split; [discriminate | repeat constructor].
  - right. split; [discriminate | repeat constructor].
  - left. reflexivity.
  - right. right. reflexivity.
Defined.

End ReductionInvariance.

(** ** Snapping: order and repetition *)

Section SnappingOrder.
Local Open Scope Q_scope.

(** The snapped value as a grid index, with the distance to the value. *)
Lemma snapped_index (v : Q) :
  exists k : Z,
    snapped v == inject_Z k * (1 # 16) /\
    - (1 # 32) <= snapped v - v /\ snapped v - v < 1 # 32.
Proof.
  destruct (floor16 v) as [F1 F2].
  destruct (snapped_cases v) as [[D E] | [D E]].
  - exists (Qfloor (v / (1 # 16))). rewrite E. repeat split; lra.
  - exists (Qfloor (v / (1 # 16)) + 1)%Z. rewrite E, inject_Z_plus.
    change (inject_Z 1) with 1. repeat split; lra.
Qed.

(** X7: snapping a snapped value changes nothing: for a value that is
    not negative, the handler run again on its own result leaves the spin
    box as it is. *)
Theorem snapped_idempotent (v : Q) : 0 <= v -> snapped (snapped v) == snapped v.
Proof.
  intros _.
  destruct (snapped_index v) as (k & Ek & _).
  set (g := snapped v) in *.
  assert (Hk : Qfloor (g / (1 # 16)) = k).
  { apply Qfloor_unique; unfold Qdiv; change (/ (1 # 16)) with (16 # 1); lra. }
  destruct (snapped_cases g) as [[D E] | [D E]]; rewrite Hk in *.
  - rewrite E. lra.
  - lra.
Qed.

Lemma snapped_idempotent_witness : snapped (snapped (1 # 10)) == snapped (1 # 10).
Proof.
  apply (snapped_idempotent (1 # 10)). discriminate.
Defined.

(** X8: snapping keeps the order of two values that are not negative. *)
Theorem snapped_monotone (v w : Q) : 0 <= v -> v <= w -> snapped v <= snapped w.
Proof.
  intros _ Hvw.
  destruct (snapped_index v) as (kv & Ev & _ & Uv).
  destruct (snapped_index w) as (kw & Ew & Lw & _).
  destruct (Z_le_gt_dec kv kw) as [Hle | Hgt].
  - rewrite Ev, Ew. rewrite Zle_Qle in Hle. lra.
  - exfalso.
    assert (H1 : inject_Z kw + 1 <= inject_Z kv).
    { change 1 with (inject_Z 1). rewrite <- inject_Z_plus, <- Zle_Qle. lia. }
    lra.
Qed.

Lemma snapped_monotone_witness : snapped (1 # 10) <= snapped (2 # 10).
Proof.
  apply (snapped_monotone (1 # 10) (2 # 10)); discriminate.
Defined.

End SnappingOrder.

(** ** Settings files: when loading succeeds *)






(** X11: once the current-schema section is present, nothing else in the
    file matters: two parsed files whose [ImagingParameters] sections
    show the same options load alike, whatever other sections (a legacy
    one included) they hold. *)
Theorem current_section_alone_decides (self : RLD) (s1 s2 : ConfigParser)
    (opts : options) :
  assoc "ImagingParameters"%string s1 = Some opts ->
  assoc "ImagingParameters"%string s2 = Some opts ->
  load_settings_from_file self (Parsed s1) = load_settings_from_file self (Parsed s2).
Proof.
  intros H1 H2.
  unfold load_settings_from_file, has_section, read_current, getint, getfloat, get_raw.
  rewrite H1, H2. reflexivity.
Qed.

Lemma current_section_alone_decides_witness :
  load_settings_from_file RLD_init (Parsed (settings_complete ++ settings_legacy))
  = load_settings_from_file RLD_init (Parsed settings_complete).
Proof.
  apply (current_section_alone_decides RLD_init
           (settings_complete ++ settings_legacy) settings_complete
           [ ("exposure_time_us", "50"); ("delay_window1_us", "1.0");
             ("delay_window2_us", "11.0"); ("end_delay_us", "33");
             ("pulse_width_us", "30.0"); ("light_intensity", "80");
             ("sets_to_acquire", "5"); ("exposures_per_frame", "4") ]%string);
    reflexivity.
Defined.

(** ** Measurement folders: writing and reading back *)

(** How the loader classifies some file names: a name counts for the
    first window whose test it passes, [dark_] must lead the name, and
    only [.tif] names count. *)
Example role_examples :
  map role_of [ "window1_000.tif"; "window2_012.tif"; "dark_003.tif";
                "background_1.tif"; "lifetime_image.tif"; "settings.conf";
                "timestamps.txt"; "dark_window1_0.tif"; "xdark_0.tif";
                "window1_000.png" ]%string
  = [ Some window1; Some window2; Some dark; Some dark; None; None; None;
      Some window1; None; None ].
Proof. vm_compute. reflexivity. Qed.

Lemma endswith_app (x suf : string) : endswith (x ++ suf) suf = true.
Proof.
  induction x as [ | c x IH].
  - destruct suf; simpl; [reflexivity | ].
    now rewrite Ascii.eqb_refl, String.eqb_refl.
  - cbn [append endswith]. rewrite IH. apply orb_true_r.
Qed.

Lemma endswith_cons (c : ascii) (s suf : string) :
  endswith s suf = true -> endswith (String c s) suf = true.
Proof. intros H. cbn [endswith]. rewrite H. apply orb_true_r. Qed.

Lemma all_digits_app (a b : string) :
  all_digits a = true -> all_digits b = true -> all_digits (a ++ b) = true.
Proof.
  induction a as [ | c a IH]; simpl; intros Ha Hb; [exact Hb | ].
  apply andb_prop in Ha as [-> Ha]. simpl. auto.
Qed.

Lemma all_digits_pad3 (i : nat) : all_digits (pad3 i) = true.
Proof.
  unfold pad3. apply all_digits_app; [ | apply (str_nat_digits (N.of_nat i))].
  destruct (String.length _) as [ | [ | [ | n]]]; reflexivity.
Qed.

Lemma contains_skip_digits (d t : string) (p : ascii) (pat : string) :
  is_digit p = false -> all_digits d = true ->
  contains (d ++ t) (String p pat) = contains t (String p pat).
Proof.
  intros Hp. induction d as [ | c d IH]; intros Hd; [reflexivity | ].
  cbn [all_digits] in Hd. apply andb_prop in Hd as [Hc Hd].
  cbn [append contains startswith].
  assert (E : Ascii.eqb c p = false).
  { destruct (Ascii.eqb_spec c p) as [-> | ]; [congruence | reflexivity]. }
  rewrite E. cbn [andb orb]. apply IH. exact Hd.
Qed.

Lemma role_of_window1_file (i : nat) :
  role_of ("window1" ++ "_" ++ pad3 i ++ ".tif") = Some window1.
Proof.
  unfold role_of.
  assert (E : endswith ("window1" ++ "_" ++ pad3 i ++ ".tif") ".tif" = true).
  { cbn [append]. repeat apply endswith_cons. apply endswith_app. }
  rewrite E. cbn. reflexivity.
Qed.

Lemma role_of_window2_file (i : nat) :
  role_of ("window2" ++ "_" ++ pad3 i ++ ".tif") = Some window2.
Proof.
  unfold role_of.
  assert (E : endswith ("window2" ++ "_" ++ pad3 i ++ ".tif") ".tif" = true).
  { cbn [append]. repeat apply endswith_cons. apply endswith_app. }
  rewrite E. cbn [append contains startswith].
  rewrite (contains_skip_digits (pad3 i) ".tif" "w" "indow1_" eq_refl (all_digits_pad3 i)).
  cbn. reflexivity.
Qed.

Lemma role_of_dark_file (i : nat) :
  role_of ("dark" ++ "_" ++ pad3 i ++ ".tif") = Some dark.
Proof.
  unfold role_of.
  assert (E : endswith ("dark" ++ "_" ++ pad3 i ++ ".tif") ".tif" = true).
  { cbn [append]. repeat apply endswith_cons. apply endswith_app. }
  rewrite E. cbn [append contains startswith].
  rewrite (contains_skip_digits (pad3 i) ".tif" "w" "indow1_" eq_refl (all_digits_pad3 i)).
  rewrite (contains_skip_digits (pad3 i) ".tif" "w" "indow2_" eq_refl (all_digits_pad3 i)).
  cbn. reflexivity.
Qed.

Lemma collect_images_by_role (listing : list dir_entry) :
  forall acc k,
    dict_get (collect_images listing acc) k
    = (dict_get acc k ++ images_with_role k listing)%list.
Proof.
  unfold images_with_role.
  induction listing as [ | e rest IH]; intros acc k; cbn [collect_images filter map].
  - now rewrite app_nil_r.
  - rewrite IH. unfold has_role at 2.
    destruct (role_of (entry_name e)) as [[ | | ] | ], k, acc; cbn;
      rewrite <- ?app_assoc; reflexivity.
Qed.

Lemma is_empty_length {A} (l : list A) : is_empty l = (List.length l =? 0)%nat.
Proof. destruct l; reflexivity. Qed.

Lemma collect_images_listing (listing : list dir_entry) :
  collect_images listing empty_dict
  = mkDict (images_with_role window1 listing)
           (images_with_role window2 listing)
           (images_with_role dark listing).
Proof.
  pose proof (collect_images_by_role listing empty_dict) as H.
  pose proof (H window1) as H1. pose proof (H window2) as H2.
  pose proof (H dark) as H3.
  destruct (collect_images listing empty_dict) as [a b c].
  cbn in H1, H2, H3. subst. reflexivity.
Qed.

Lemma three_way_counts {A} (d : window_dict A) :
  negb (List.length (at_window1 d) =? List.length (at_window2 d))%nat
  || negb (List.length (at_window1 d) =? List.length (at_dark d))%nat
  || negb (List.length (at_window2 d) =? List.length (at_dark d))%nat
  = negb (equal_counts d).
Proof.
  unfold equal_counts.
  destruct (Nat.eqb_spec (List.length (at_window1 d)) (List.length (at_window2 d))) as [E12 | N12];
  destruct (Nat.eqb_spec (List.length (at_window1 d)) (List.length (at_dark d))) as [E1d | N1d];
  destruct (Nat.eqb_spec (List.length (at_window2 d)) (List.length (at_dark d))) as [E2d | N2d];
    cbn; try reflexivity; exfalso; congruence.
Qed.

(** X12: what [load_images_from_folder] keeps of a listing.  Each window
    gets the images of the files whose names [role_of] sends to it, in
    listing order.  If a window gets none the object is left as it was
    and [None] is returned; otherwise the three lists replace the stack
    and the value returned is 0 when they are equally long and -1 when
    not. *)
Theorem load_images_from_folder_outcome (self : RLD) (listing : list dir_entry) :
  let d := mkDict (images_with_role window1 listing)
                  (images_with_role window2 listing)
                  (images_with_role dark listing) in
  load_images_from_folder self listing
  = if is_empty (at_window1 d) || is_empty (at_window2 d) || is_empty (at_dark d)
    then (self, None)
    else (set_image_dict d self, Some (if equal_counts d then 0 else -1)).
Proof.
  intros d. unfold load_images_from_folder.
  rewrite collect_images_listing. fold d.
  destruct (is_empty _ || is_empty _ || is_empty _); [reflexivity | ].
  rewrite three_way_counts. now destruct (equal_counts d).
Qed.

Lemma images_with_role_app (k : window_key) (a b : list dir_entry) :
  images_with_role k (a ++ b) = (images_with_role k a ++ images_with_role k b)%list.
Proof. unfold images_with_role. now rewrite filter_app, map_app. Qed.

Lemma images_with_role_frames (name : string) (j : window_key) :
  (forall i, role_of (name ++ "_" ++ pad3 i ++ ".tif") = Some j) ->
  forall imgs i folder k,
    Forall2 shows folder (frame_files name i imgs) ->
    images_with_role k folder = if window_key_eqb j k then imgs else [].
Proof.
  intros Hrole imgs. induction imgs as [ | im rest IH]; intros i folder k H.
  - inversion H. subst. now destruct (window_key_eqb j k).
  - cbn [frame_files] in H. inversion H as [ | e f folder' files' [Hn Hi] Hrest]. subst.
    cbn [fst snd] in Hn, Hi. unfold images_with_role in *. cbn [filter].
    unfold has_role at 1. rewrite Hn.
    change (name ++ String "_" (pad3 i ++ ".tif"))%string
      with (name ++ "_" ++ pad3 i ++ ".tif")%string.
    rewrite Hrole.
    specialize (IH (S i) folder' k Hrest).
    destruct (window_key_eqb j k); cbn [map]; rewrite IH; congruence.
Qed.

Lemma images_with_role_other (k : window_key) (folder : list dir_entry)
    (files : list (string * written)) :
  Forall2 shows folder files ->
  Forall (fun f => role_of (fst f) = None) files ->
  images_with_role k folder = [].
Proof.
  intros H. induction H as [ | e f folder files [Hn _] _ IH]; intros Hnone;
    [reflexivity | ].
  inversion Hnone as [ | ? ? Hf Hrest]. subst.
  unfold images_with_role in *. cbn [filter]. unfold has_role at 1.
  rewrite Hn, Hf. apply IH. exact Hrest.
Qed.

Lemma saved_frames_read_back (rld : RLD) (clock : option wall_clock)
    (folder : list dir_entry) (k : window_key) :
  Forall2 shows folder (fst (save_measurement rld clock)) ->
  fst (save_measurement rld clock) <> [] ->
  images_with_role k folder = dict_get (image_dict rld) k.
Proof.
  unfold save_measurement.
  destruct (negb (is_empty (at_window1 (image_dict rld))) && _ && _);
    cbn [fst]; [ | congruence].
  intros H _.
  apply Forall2_app_inv_r in H as (f1 & r1 & H1 & H & ->).
  apply Forall2_app_inv_r in H as (f2 & r2 & H2 & H & ->).
  apply Forall2_app_inv_r in H as (f3 & r3 & H3 & H & ->).
  rewrite !images_with_role_app.
  rewrite (images_with_role_frames "window1" window1 role_of_window1_file _ _ _ k H1).
  rewrite (images_with_role_frames "window2" window2 role_of_window2_file _ _ _ k H2).
  rewrite (images_with_role_frames "dark" dark role_of_dark_file _ _ _ k H3).
  rewrite (images_with_role_other k r3 _ H).
  - destruct k; cbn; rewrite ?app_nil_r; reflexivity.
  - destruct (average_lifetime rld), clock as [c | ];
      try destruct ((start_time_ns c =? 0) || (end_time_ns c =? 0));
      repeat constructor.
Qed.

Lemma images_with_role_perm (k : window_key) (a b : list dir_entry) :
  Permutation a b -> Permutation (images_with_role k a) (images_with_role k b).
Proof.
  intros H. unfold images_with_role. apply Permutation_map.
  induction H as [ | x a b _ IH | x y a | a b c _ IH1 _ IH2]; cbn [filter].
  - constructor.
  - destruct (has_role k x); [constructor | ]; exact IH.
  - destruct (has_role k x), (has_role k y);
      try apply Permutation_refl. constructor.
  - exact (Permutation_trans IH1 IH2).
Qed.

Lemma save_measurement_guard (rld : RLD) (clock : option wall_clock) :
  fst (save_measurement rld clock) <> [] ->
  is_empty (at_window1 (image_dict rld)) || is_empty (at_window2 (image_dict rld))
  || is_empty (at_dark (image_dict rld)) = false.
Proof.
  unfold save_measurement.
  destruct (is_empty (at_window1 _)), (is_empty (at_window2 _)), (is_empty (at_dark _));
    cbn; congruence.
Qed.

Lemma is_empty_perm {A} (l l' : list A) : Permutation l l' -> is_empty l' = is_empty l.
Proof.
  intros H. rewrite !is_empty_length. now rewrite (Permutation_length H).
Qed.

(** Loading a folder that holds what [save_measurement] wrote. *)
Lemma saved_folder_loads (rld self : RLD) (clock : option wall_clock)
    (as_written listing : list dir_entry) :
  fst (save_measurement rld clock) <> [] ->
  Forall2 shows as_written (fst (save_measurement rld clock)) ->
  Permutation as_written listing ->
  exists d,
    load_images_from_folder self listing
    = (set_image_dict d self,
       Some (if equal_counts (image_dict rld) then 0 else -1)) /\
    (forall k, Permutation (dict_get d k) (dict_get (image_dict rld) k)) /\
    (listing = as_written -> d = image_dict rld).
Proof.
  intros Hne Hshow Hperm.
  assert (P : forall k, Permutation (images_with_role k listing) (dict_get (image_dict rld) k)).
  { intros k. rewrite <- (saved_frames_read_back rld clock as_written k Hshow Hne).
    apply Permutation_sym, images_with_role_perm, Hperm. }
  pose proof (save_measurement_guard rld clock Hne) as G.
  unfold load_images_from_folder. rewrite collect_images_listing.
  set (d := mkDict (images_with_role window1 listing)
              (images_with_role window2 listing) (images_with_role dark listing)).
  rewrite three_way_counts.
  assert (E : is_empty (at_window1 d) || is_empty (at_window2 d) || is_empty (at_dark d)
              = false).
  { rewrite <- G. unfold d. cbn [at_window1 at_window2 at_dark].
    now rewrite (is_empty_perm _ _ (Permutation_sym (P window1))),
      (is_empty_perm _ _ (Permutation_sym (P window2))),
      (is_empty_perm _ _ (Permutation_sym (P dark))). }
  rewrite E.
  assert (C : equal_counts d = equal_counts (image_dict rld)).
  { unfold equal_counts, d. cbn [at_window1 at_window2 at_dark].
    now rewrite (Permutation_length (P window1)), (Permutation_length (P window2)),
      (Permutation_length (P dark)). }
  rewrite C. exists d. split; [ | split].
  - now destruct (equal_counts (image_dict rld)).
  - intros k. destruct k; apply P.
  - intros ->. unfold d.
    rewrite !(saved_frames_read_back rld clock as_written _ Hshow Hne).
    now destruct (image_dict rld).
Qed.

(** X13: a folder written by [save_measurement] is read back whole.  If
    [save_measurement] wrote anything, then on a folder that holds what
    it wrote, listed in any order, [load_images_from_folder] never
    returns [None]: it returns 0 when the saved windows are equally long
    and -1 when not, each window holds the saved frames up to their
    order (and in their order when the listing is in writing order), and
    the loading object keeps its parameters. *)
Theorem saved_measurement_loads (rld self : RLD) (clock : option wall_clock)
    (as_written listing : list dir_entry) :
  fst (save_measurement rld clock) <> [] ->
  Forall2 shows as_written (fst (save_measurement rld clock)) ->
  Permutation as_written listing ->
  let r := load_images_from_folder self listing in
  snd r = Some (if equal_counts (image_dict rld) then 0 else -1) /\
  (forall k, Permutation (dict_get (image_dict (fst r)) k) (dict_get (image_dict rld) k)) /\
  (listing = as_written -> image_dict (fst r) = image_dict rld) /\
  params (fst r) = params self.
Proof.
  intros Hne Hshow Hperm r.
  destruct (saved_folder_loads rld self clock as_written listing Hne Hshow Hperm)
    as (d & E & P & Q).
  subst r. rewrite E. cbn [fst snd].
  destruct self as [p0 i0 d0 t0 a0]. cbn.
  repeat split; assumption.
Qed.

Lemma saved_measurement_loads_witness :
  let files := fst (save_measurement rld_two_frames None) in
  let r := load_images_from_folder RLD_init (rev (map entry_of files)) in
  snd r = Some (if equal_counts (image_dict rld_two_frames) then 0 else -1) /\
  (forall k, Permutation (dict_get (image_dict (fst r)) k)
               (dict_get (image_dict rld_two_frames) k)) /\
  (rev (map entry_of files) = map entry_of files ->
   image_dict (fst r) = image_dict rld_two_frames) /\
  params (fst r) = params RLD_init.
Proof.
  apply (saved_measurement_loads rld_two_frames RLD_init None
           (map entry_of (fst (save_measurement rld_two_frames None)))).
  - discriminate.
  - vm_compute. repeat constructor.
  - apply Permutation_rev.
Defined.

(** *** File names *)

Lemma nat_of_digits_pad3 (i : nat) : nat_of_digits (pad3 i) = Some (N.of_nat i).
Proof.
  pose proof (nat_of_digits_str_nat (N.of_nat i)) as H.
  pose proof (uint_of_str_nat (N.of_nat i)) as U.
  unfold pad3.
  destruct (String.length (str_nat (N.of_nat i))) as [ | [ | [ | n]]];
    try exact H;
    unfold nat_of_digits; cbn; rewrite U; cbn;
    now rewrite DecimalN.Unsigned.of_to.
Qed.

Lemma pad3_inj (i j : nat) : pad3 i = pad3 j -> i = j.
Proof.
  intros H. apply (f_equal nat_of_digits) in H.
  rewrite !nat_of_digits_pad3 in H. injection H as H. lia.
Qed.

Lemma append_cancel_l (a b c : string) : (a ++ b = a ++ c)%string -> b = c.
Proof. induction a as [ | x a IH]; cbn; [auto | intros [= H]; auto]. Qed.

Lemma append_cancel_r (c : string) :
  forall a b : string, (a ++ c = b ++ c)%string -> a = b.
Proof.
  assert (L : forall a b, String.length (a ++ b) = (String.length a + String.length b)%nat).
  { intros a b. induction a as [ | x a IH]; [reflexivity | cbn; now rewrite IH]. }
  induction a as [ | x a IH]; intros [ | y b] H; cbn in H.
  - reflexivity.
  - apply (f_equal String.length) in H. cbn in H. rewrite L in H. lia.
  - apply (f_equal String.length) in H. cbn in H. rewrite L in H. lia.
  - injection H as -> H. f_equal. apply IH. exact H.
Qed.

Lemma frame_files_names (role : string) (imgs : list image) :
  forall i f, In f (frame_files role i imgs) ->
    exists k, (i <= k)%nat /\ fst f = (role ++ "_" ++ pad3 k ++ ".tif")%string.
Proof.
  induction imgs as [ | im rest IH]; intros i f Hf; [destruct Hf | ].
  destruct Hf as [<- | Hf].
  - exists i. split; [lia | reflexivity].
  - destruct (IH _ _ Hf) as (k & Hk & E). exists k. split; [lia | exact E].
Qed.

Lemma frame_files_NoDup (role : string) (imgs : list image) :
  forall i, NoDup (map fst (frame_files role i imgs)).
Proof.
  induction imgs as [ | im rest IH]; intros i; cbn [frame_files map]; constructor.
  - intros Hin. apply in_map_iff in Hin as (f & Ef & Hf).
    destruct (frame_files_names _ _ _ _ Hf) as (k & Hk & E).
    rewrite E in Ef. cbn [fst] in Ef.
    apply append_cancel_l, append_cancel_l, append_cancel_r, pad3_inj in Ef. lia.
  - apply IH.
Qed.

Lemma frame_files_role (name : string) (k : window_key) :
  (forall i, role_of (name ++ "_" ++ pad3 i ++ ".tif") = Some k) ->
  forall imgs i a, In a (map fst (frame_files name i imgs)) -> role_of a = Some k.
Proof.
  intros Hrole imgs i a Ha. apply in_map_iff in Ha as (f & <- & Hf).
  destruct (frame_files_names _ _ _ _ Hf) as (j & _ & ->). apply Hrole.
Qed.

Lemma NoDup_app_tag {A B} (tag : A -> B) (t : B) (l1 l2 : list A) :
  NoDup l1 -> NoDup l2 ->
  (forall a, In a l1 -> tag a = t) -> (forall a, In a l2 -> tag a <> t) ->
  NoDup (l1 ++ l2).
Proof.
  intros N1 N2 H1 H2. apply NoDup_app; [exact N1 | exact N2 | ].
  intros a Ha Hb. exact (H2 a Hb (H1 a Ha)).
Qed.

(** X14: [save_measurement] writes no file twice: the names it writes
    to are pairwise different, whatever the number of frames, so that no
    frame overwrites another and the folder holds one file for each. *)
Theorem save_measurement_writes_each_file_once (rld : RLD)
    (clock : option wall_clock) :
  NoDup (map fst (fst (save_measurement rld clock))).
Proof.
  unfold save_measurement.
  destruct (negb (is_empty (at_window1 (image_dict rld))) && _ && _);
    cbn [fst map]; [ | constructor].
  rewrite !map_app.
  set (others := (map fst match average_lifetime rld with
                          | Some a => [("lifetime_image.tif"%string, MapTiff a)]
                          | None => []
                          end ++ _)%list).
  assert (Ho : NoDup others /\ forall a, In a others -> role_of a = None).
  { subst others.
    destruct (average_lifetime rld), clock as [c | ];
      try destruct ((start_time_ns c =? 0) || (end_time_ns c =? 0));
      cbn; (split; [repeat constructor; cbn; intuition discriminate
                   | intros a Ha; intuition (subst; reflexivity)]). }
  destruct Ho as [No Ro].
  pose proof (frame_files_role "window1" window1 role_of_window1_file) as R1.
  pose proof (frame_files_role "window2" window2 role_of_window2_file) as R2.
  pose proof (frame_files_role "dark" dark role_of_dark_file) as R3.
  apply (NoDup_app_tag role_of (Some window1));
    [apply frame_files_NoDup | | apply R1 | ].
  - apply (NoDup_app_tag role_of (Some window2));
      [apply frame_files_NoDup | | apply R2 | ].
    + apply (NoDup_app_tag role_of (Some dark));
        [apply frame_files_NoDup | exact No | apply R3 | ].
      intros a Ha. rewrite (Ro a Ha). discriminate.
    + intros a Ha. apply in_app_or in Ha as [Ha | Ha].
      * rewrite (R3 _ _ _ Ha). discriminate.
      * rewrite (Ro a Ha). discriminate.
  - intros a Ha. apply in_app_or in Ha as [Ha | Ha]; [ | apply in_app_or in Ha as [Ha | Ha]].
    + rewrite (R2 _ _ _ Ha). discriminate.
    + rewrite (R3 _ _ _ Ha). discriminate.
    + rewrite (Ro a Ha). discriminate.
Qed.

(** ** A whole measurement *)

Lemma thirds_lengths {A} (n : nat) :
  forall l : list A, List.length l = (3 * n)%nat ->
    all_length (dict_of_thirds (thirds l)) n.
Proof.
  induction n as [ | n IH]; intros l Hl.
  - destruct l; [repeat split | discriminate].
  - destruct l as [ | a [ | b [ | c rest]]]; cbn [List.length] in Hl; try lia.
    rewrite dict_of_thirds_triple.
    destruct (IH rest ltac:(lia)) as (H1 & H2 & H3).
    unfold all_length, dict_app. cbn [at_window1 at_window2 at_dark List.length app].
    repeat split; lia.
Qed.

Lemma thirds_Forall {A} (P : A -> Prop) (l : list A) :
  Forall P l ->
  Forall P (at_window1 (dict_of_thirds (thirds l))) /\
  Forall P (at_window2 (dict_of_thirds (thirds l))) /\
  Forall P (at_dark (dict_of_thirds (thirds l))).
Proof.
  induction 1 as [ | a l Ha _ IH]; [repeat split; constructor | ].
  cbn [thirds]. destruct (thirds l) as [[x y] z]. cbn in *.
  destruct IH as (H1 & H2 & H3). repeat split; auto.
Qed.

(** [init_rld_controller] writes one command and changes nothing else. *)
Lemma init_rld_controller_writes (self : RLD) (hw : Hardware) :
  init_rld_controller (self, hw)
  = (Ok tt,
     (self, mkHw (cam_frames hw) (cam_timestamp hw) (cam_acquiring hw)
              (serial_written hw ++ [settings_str (params self)]))).
Proof. reflexivity. Qed.

(** The controller set-up and the acquisition, one after the other. *)
Lemma controller_then_acquire (self : RLD) (hw : Hardware) :
  let n := Z.to_nat (sets_to_acquire (params self)) in
  let got := firstn (3 * n) (cam_frames hw) in
  let complete := (3 * n <=? List.length (cam_frames hw))%nat in
  let r := (init_rld_controller ;;; acquire_images) (self, hw) in
  fst r = (if complete then Ok tt else Raise Xi_error) /\
  params (fst (snd r)) = params self /\
  average_lifetime (fst (snd r)) = average_lifetime self /\
  image_dict (fst (snd r)) = dict_of_thirds (thirds (map fst got)) /\
  cam_frames (snd (snd r)) = skipn (3 * n) (cam_frames hw) /\
  cam_acquiring (snd (snd r)) = negb complete /\
  serial_written (snd (snd r))
  = (serial_written hw ++ [settings_str (params self); ("A" ++ LF)%string])%list.
Proof.
  cbv zeta.
  unfold init_rld_controller, acquire_images, bindM, camera_start_acquisition,
    serial_write, modify_self, read_self, camera_stop_acquisition.
  cbn [fst snd cam_frames cam_timestamp cam_acquiring serial_written].
  match goal with
  | |- context [acquire_sets ?n (?s, ?h)] =>
      pose proof (acquire_sets_outcome n s h) as H;
      destruct (acquire_sets n (s, h)) as [r [s1 h1]] eqn:E
  end.
  cbn [fst snd cam_frames cam_acquiring serial_written params average_lifetime
       image_dict image_start_time_dict set_image_dict] in H.
  cbv zeta in H.
  destruct H as (Hr & Hp & Ha & Hi & Ht & Hf & Hq & Hs).
  subst r.
  assert (Hd : forall d : window_dict image, dict_app empty_dict d = d)
    by (intros [a b c]; reflexivity).
  rewrite Hd in Hi. rewrite <- app_assoc in Hs. cbn [app] in Hs.
  destruct (3 * Z.to_nat (sets_to_acquire (params self)) <=? List.length (cam_frames hw))%nat;
    cbn [fst snd cam_frames cam_acquiring serial_written negb];
    repeat split; assumption.
Qed.

Lemma run_attached (debayer : image -> image) (color : bool) (w : World) :
  run debayer true color w
  = match (init_rld_controller ;;; acquire_images) w with
    | (Ok _, (self, hw)) =>
        let self1 := if color
                     then set_image_dict (debayer_stack debayer (image_dict self)) self
                     else self in
        match calculate_average_lifetime self1 with
        | Ok self2 => (Ok None, (self2, hw))
        | Raise e => (Raise e, (self1, hw))
        end
    | (Raise e, w') => (Raise e, w')
    end.
Proof.
  unfold run. cbn [negb]. unfold bindM.
  destruct (init_rld_controller w) as [[[] | e] w0]; [ | reflexivity].
  destruct (acquire_images w0) as [[[] | e] [self hw]]; [ | reflexivity].
  destruct color; unfold modify_self, ret, on_self; cbn [fst snd];
    match goal with
    | |- context [calculate_average_lifetime ?s] =>
        destruct (calculate_average_lifetime s)
    end; reflexivity.
Qed.

(** X15: [run] with hardware attached and fewer pending frames than the
    sets asked for need.  Two commands are written, the one
    [init_rld_controller] writes and then [A]; every pending frame is
    pulled and kept in the stack, and the pull that finds none raises
    Xi_error: no lifetime map is computed and the camera is left
    acquiring. *)
Theorem run_short_of_frames (debayer : image -> image) (color : bool)
    (self : RLD) (hw : Hardware) :
  (List.length (cam_frames hw) < 3 * Z.to_nat (sets_to_acquire (params self)))%nat ->
  let r := run debayer true color (self, hw) in
  fst r = Raise Xi_error /\
  average_lifetime (fst (snd r)) = average_lifetime self /\
  image_dict (fst (snd r)) = dict_of_thirds (thirds (map fst (cam_frames hw))) /\
  cam_frames (snd (snd r)) = [] /\
  cam_acquiring (snd (snd r)) = true /\
  exists command,
    serial_written (snd (snd (init_rld_controller (self, hw))))
    = (serial_written hw ++ [command])%list /\
    serial_written (snd (snd r))
    = (serial_written hw ++ [command; ("A" ++ LF)%string])%list.
Proof.
  intros Hshort r. subst r. rewrite run_attached.
  pose proof (controller_then_acquire self hw) as H. cbv zeta in H.
  destruct ((init_rld_controller ;;; acquire_images) (self, hw)) as [res [s1 h1]].
  cbn [fst snd] in H. destruct H as (Hr & _ & Ha & Hi & Hf & Hq & Hs).
  assert (C : (3 * Z.to_nat (sets_to_acquire (params self))
               <=? List.length (cam_frames hw))%nat = false)
    by (apply Nat.leb_gt; exact Hshort).
  rewrite C in Hr, Hq. subst res. cbn [fst snd].
  rewrite firstn_all2 in Hi by lia. rewrite skipn_all2 in Hf by lia.
  repeat split; try assumption.
  exists (settings_str (params self)).
  rewrite init_rld_controller_writes. split; [reflexivity | exact Hs].
Qed.

Lemma run_short_of_frames_witness :
  let r := run (fun im => im) true false (rld_seven_sets, hw_six_frames) in
  fst r = Raise Xi_error /\
  average_lifetime (fst (snd r)) = average_lifetime rld_seven_sets /\
  image_dict (fst (snd r)) = dict_of_thirds (thirds (map fst (cam_frames hw_six_frames))) /\
  cam_frames (snd (snd r)) = [] /\
  cam_acquiring (snd (snd r)) = true /\
  exists command,
    serial_written (snd (snd (init_rld_controller (rld_seven_sets, hw_six_frames))))
    = (serial_written hw_six_frames ++ [command])%list /\
    serial_written (snd (snd r))
    = (serial_written hw_six_frames ++ [command; ("A" ++ LF)%string])%list.
Proof.
  apply (run_short_of_frames (fun im => im) false rld_seven_sets hw_six_frames).
  cbn. lia.
Defined.

(** X16: [run] with hardware attached and no set asked for
    ([sets_to_acquire <= 0]).  The two commands are still written (the
    one [init_rld_controller] writes, then [A]) and the camera is started
    and stopped; no frame is pulled, the stack is emptied, and the
    reduction of the empty stack raises TypeError, so the lifetime map
    stays as it was. *)
Theorem run_without_sets (debayer : image -> image) (color : bool)
    (self : RLD) (hw : Hardware) :
  sets_to_acquire (params self) <= 0 ->
  let r := run debayer true color (self, hw) in
  fst r = Raise TypeError /\
  average_lifetime (fst (snd r)) = average_lifetime self /\
  image_dict (fst (snd r)) = empty_dict /\
  cam_frames (snd (snd r)) = cam_frames hw /\
  cam_acquiring (snd (snd r)) = false /\
  exists command,
    serial_written (snd (snd (init_rld_controller (self, hw))))
    = (serial_written hw ++ [command])%list /\
    serial_written (snd (snd r))
    = (serial_written hw ++ [command; ("A" ++ LF)%string])%list.
Proof.
  intros Hn r. subst r. rewrite run_attached.
  pose proof (controller_then_acquire self hw) as H. cbv zeta in H.
  destruct ((init_rld_controller ;;; acquire_images) (self, hw)) as [res [s1 h1]].
  cbn [fst snd] in H. destruct H as (Hr & _ & Ha & Hi & Hf & Hq & Hs).
  assert (Z0 : Z.to_nat (sets_to_acquire (params self)) = 0%nat) by lia.
  rewrite Z0 in Hr, Hi, Hf, Hq. cbn in Hr, Hi, Hf, Hq. subst res.
  cbv zeta.
  assert (E : calculate_average_lifetime
                (if color
                 then set_image_dict (debayer_stack debayer (image_dict s1)) s1
                 else s1) = Raise TypeError).
  { unfold calculate_average_lifetime.
    destruct color, s1 as [p0 i0 d0 t0 a0]; cbn in *; subst; reflexivity. }
  rewrite E. cbn [fst snd].
  assert (W : exists command,
    serial_written (snd (snd (init_rld_controller (self, hw))))
    = (serial_written hw ++ [command])%list /\
    serial_written h1
    = (serial_written hw ++ [command; ("A" ++ LF)%string])%list).
  { exists (settings_str (params self)).
    rewrite init_rld_controller_writes. split; [reflexivity | exact Hs]. }
  destruct color, s1 as [p0 i0 d0 t0 a0]; cbn in *; subst; repeat split;
    assumption.
Qed.

Lemma run_without_sets_witness :
  let r := run (fun im => im) true false (rld_no_sets, hw_six_frames) in
  fst r = Raise TypeError /\
  average_lifetime (fst (snd r)) = average_lifetime rld_no_sets /\
  image_dict (fst (snd r)) = empty_dict /\
  cam_frames (snd (snd r)) = cam_frames hw_six_frames /\
  cam_acquiring (snd (snd r)) = false /\
  exists command,
    serial_written (snd (snd (init_rld_controller (rld_no_sets, hw_six_frames))))
    = (serial_written hw_six_frames ++ [command])%list /\
    serial_written (snd (snd r))
    = (serial_written hw_six_frames ++ [command; ("A" ++ LF)%string])%list.
Proof.
  apply (run_without_sets (fun im => im) false rld_no_sets hw_six_frames).
  cbn. lia.
Defined.

(** Full sets of frames of one size make a well-formed stack. *)
Lemma acquired_stack_well_formed (frames : list image) (n npix : nat) :
  (0 < n)%nat -> List.length frames = (3 * n)%nat ->
  Forall (fun im => List.length im = npix) frames ->
  well_formed_stack (dict_of_thirds (thirds frames)) npix.
Proof.
  intros Hn Hlen Hall.
  destruct (thirds_lengths n frames Hlen) as (L1 & L2 & L3).
  destruct (thirds_Forall _ frames Hall) as (F1 & F2 & F3).
  unfold well_formed_stack, frames_of.
  repeat split; try assumption; intros E; rewrite E in *; cbn in *; lia.
Qed.

(** X17: [run] with hardware attached and enough pending frames.  When
    the stack it ends up with (the first [3 n] frames dealt out to the
    three windows, debayered for a colour camera) is well-formed, [run]
    returns [None], the stack and the parameters are as described, a
    lifetime map with one value for each pixel is stored, the camera is
    stopped, and two commands were written: the one
    [init_rld_controller] writes, then [A]. *)
Theorem run_complete (debayer : image -> image) (color : bool)
    (self : RLD) (hw : Hardware) (npix : nat) :
  let n := Z.to_nat (sets_to_acquire (params self)) in
  let raw := dict_of_thirds (thirds (map fst (firstn (3 * n) (cam_frames hw)))) in
  let stack := if color then debayer_stack debayer raw else raw in
  (3 * n <= List.length (cam_frames hw))%nat ->
  well_formed_stack stack npix ->
  let r := run debayer true color (self, hw) in
  exists out command,
    fst r = Ok None /\
    average_lifetime (fst (snd r)) = Some (Arr out) /\
    List.length out = npix /\
    image_dict (fst (snd r)) = stack /\
    params (fst (snd r)) = params self /\
    cam_frames (snd (snd r)) = skipn (3 * n) (cam_frames hw) /\
    cam_acquiring (snd (snd r)) = false /\
    serial_written (snd (snd (init_rld_controller (self, hw))))
    = (serial_written hw ++ [command])%list /\
    serial_written (snd (snd r))
    = (serial_written hw ++ [command; ("A" ++ LF)%string])%list.
Proof.
  intros n raw stack Hfull Hwf r. subst r. rewrite run_attached.
  pose proof (controller_then_acquire self hw) as H. cbv zeta in H.
  destruct ((init_rld_controller ;;; acquire_images) (self, hw)) as [res [s1 h1]].
  cbn [fst snd] in H. destruct H as (Hr & Hp & Ha & Hi & Hf & Hq & Hs).
  fold n in Hr, Hi, Hf, Hq. fold raw in Hi.
  assert (C : (3 * n <=? List.length (cam_frames hw))%nat = true)
    by (apply Nat.leb_le; exact Hfull).
  rewrite C in Hr, Hq. subst res. cbv zeta.
  set (s2 := if color
             then set_image_dict (debayer_stack debayer (image_dict s1)) s1
             else s1).
  assert (Hd : image_dict s2 = stack).
  { subst s2 stack. destruct color, s1 as [p0 i0 d0 t0 a0]; cbn in *; subst; reflexivity. }
  assert (Hp2 : params s2 = params self).
  { subst s2. destruct color, s1 as [p0 i0 d0 t0 a0]; cbn in *; subst; reflexivity. }
  assert (Hwf2 : well_formed_stack (image_dict s2) npix) by (rewrite Hd; exact Hwf).
  destruct (calculate_average_lifetime_pixelwise s2 npix Hwf2) as (out & E & L & _).
  rewrite E. exists out, (settings_str (params self)). cbn [fst snd].
  rewrite init_rld_controller_writes. cbn [fst snd serial_written].
  repeat split; assumption.
Qed.

Lemma run_complete_witness :
  let stack := dict_of_thirds (thirds (map fst (firstn 3 (cam_frames hw_six_frames)))) in
  let r := run (fun im => im) true false (rld_one_set, hw_six_frames) in
  exists out command,
    fst r = Ok None /\
    average_lifetime (fst (snd r)) = Some (Arr out) /\
    List.length out = 1%nat /\
    image_dict (fst (snd r)) = stack /\
    params (fst (snd r)) = params rld_one_set /\
    cam_frames (snd (snd r)) = skipn 3 (cam_frames hw_six_frames) /\
    cam_acquiring (snd (snd r)) = false /\
    serial_written (snd (snd (init_rld_controller (rld_one_set, hw_six_frames))))
    = (serial_written hw_six_frames ++ [command])%list /\
    serial_written (snd (snd r))
    = (serial_written hw_six_frames ++ [command; ("A" ++ LF)%string])%list.
Proof.
  apply (run_complete (fun im => im) false rld_one_set hw_six_frames 1).
  - cbn. lia.
  - apply (acquired_stack_well_formed _ 1); [lia | reflexivity | repeat constructor].
Defined.

(** ** Loading a saved measurement *)

Lemma append_assoc_string (a b c : string) : ((a ++ b) ++ c = a ++ (b ++ c))%string.
Proof. induction a as [ | x a IH]; [reflexivity | cbn; now rewrite IH]. Qed.

Lemma length_append (a b : string) :
  String.length (a ++ b) = (String.length a + String.length b)%nat.
Proof. induction a as [ | x a IH]; [reflexivity | cbn; now rewrite IH]. Qed.

Lemma endswith_tif_conf (x : string) : endswith (x ++ ".tif") ".conf" = false.
Proof.
  induction x as [ | c x IH]; [reflexivity | ].
  cbn [append endswith]. rewrite IH, orb_false_r.
  apply String.eqb_neq. intros E.
  pose proof (f_equal String.length E) as L. cbn [String.length] in L.
  rewrite length_append in L. cbn in L.
  destruct x; [cbn in E; discriminate E | cbn in L; lia].
Qed.

Lemma frame_files_not_conf (role : string) (imgs : list image) :
  forall i f, In f (frame_files role i imgs) -> endswith (fst f) ".conf" = false.
Proof.
  induction imgs as [ | im rest IH]; intros i f Hf; [destruct Hf | ].
  destruct Hf as [<- | Hf]; [ | exact (IH _ _ Hf)].
  cbn [fst]. rewrite <- !append_assoc_string. apply endswith_tif_conf.
Qed.

(** Of the files [save_measurement] writes, the settings file is the one
    whose name ends in [.conf]. *)
Lemma saved_conf_file (rld : RLD) (clock : option wall_clock) :
  fst (save_measurement rld clock) <> [] ->
  In ("settings.conf"%string, ConfText (save_settings rld))
     (fst (save_measurement rld clock)) /\
  forall f, In f (fst (save_measurement rld clock)) ->
    endswith (fst f) ".conf" = true -> snd f = ConfText (save_settings rld).
Proof.
  unfold save_measurement.
  destruct (negb (is_empty (at_window1 (image_dict rld))) && _ && _);
    cbn [fst]; [intros _ | congruence].
  split.
  - rewrite !in_app_iff. do 4 right. left. left. reflexivity.
  - intros f Hf E. rewrite !in_app_iff in Hf.
    destruct Hf as [Hf | [Hf | [Hf | [Hf | [Hf | Hf]]]]].
    + rewrite (frame_files_not_conf _ _ _ _ Hf) in E. discriminate.
    + rewrite (frame_files_not_conf _ _ _ _ Hf) in E. discriminate.
    + rewrite (frame_files_not_conf _ _ _ _ Hf) in E. discriminate.
    + destruct (average_lifetime rld); [ | destruct Hf].
      destruct Hf as [<- | []]. discriminate E.
    + destruct Hf as [<- | []]. reflexivity.
    + destruct clock as [c | ]; [ | destruct Hf].
      destruct ((start_time_ns c =? 0) || (end_time_ns c =? 0)); [destruct Hf | ].
      destruct Hf as [<- | []]. discriminate E.
Qed.

Lemma Forall2_In_l {A B} (R : A -> B -> Prop) (l : list A) (l' : list B) (a : A) :
  Forall2 R l l' -> In a l -> exists b, In b l' /\ R a b.
Proof.
  induction 1 as [ | x y l l' Hxy _ IH]; intros Ha; [destruct Ha | ].
  destruct Ha as [<- | Ha].
  - exists y. split; [left; reflexivity | exact Hxy].
  - destruct (IH Ha) as (b & Hb & Hab). exists b. split; [right; exact Hb | exact Hab].
Qed.

Lemma Forall2_In_r {A B} (R : A -> B -> Prop) (l : list A) (l' : list B) (b : B) :
  Forall2 R l l' -> In b l' -> exists a, In a l /\ R a b.
Proof.
  induction 1 as [ | x y l l' Hxy _ IH]; intros Hb; [destruct Hb | ].
  destruct Hb as [<- | Hb].
  - exists x. split; [left; reflexivity | exact Hxy].
  - destruct (IH Hb) as (a & Ha & Hab). exists a. split; [right; exact Ha | exact Hab].
Qed.

Lemma conf_of_saved (rld : RLD) (clock : option wall_clock)
    (as_written listing : list dir_entry) :
  fst (save_measurement rld clock) <> [] ->
  Forall2 shows as_written (fst (save_measurement rld clock)) ->
  Permutation as_written listing ->
  conf_of listing = Parsed (save_settings rld).
Proof.
  intros Hne Hshow Hperm.
  destruct (saved_conf_file rld clock Hne) as [Hin Honly].
  unfold conf_of.
  destruct (find (fun e => endswith (entry_name e) ".conf") listing) as [e | ] eqn:F.
  - apply find_some in F as [He Hname].
    apply (Permutation_in _ (Permutation_sym Hperm)) in He.
    destruct (Forall2_In_l _ _ _ _ Hshow He) as (f & Hf & Hn & Hc).
    rewrite Hn in Hname. rewrite (Honly f Hf Hname) in Hc. exact Hc.
  - exfalso.
    destruct (Forall2_In_r _ _ _ _ Hshow Hin) as (e & He & Hn & _).
    apply (Permutation_in _ Hperm) in He.
    pose proof (find_none _ _ F e He) as N. cbn beta in N.
    rewrite Hn in N. cbn in N. discriminate N.
Qed.

(** A parameter set written by [save_settings] loads into any object. *)
Lemma load_saved_settings (rld caller : RLD) :
  any_minus_one (params rld) = false ->
  text_exact (params rld) = true ->
  exists p',
    load_settings_from_file caller (Parsed (save_settings rld))
    = (set_params p' caller, Ok (Some 0)) /\
    params_equiv p' (params rld).
Proof.
  intros Hm1 Hx.
  unfold text_exact in Hx.
  apply andb_prop in Hx as [Hx Hx3]. apply andb_prop in Hx as [Hx1 Hx2].
  set (s := save_settings rld).
  destruct (getfloat_saved s "ImagingParameters" "delay_window1_us" _ eq_refl Hx1)
    as (q1 & G1 & E1).
  destruct (getfloat_saved s "ImagingParameters" "delay_window2_us" _ eq_refl Hx2)
    as (q2 & G2 & E2).
  destruct (getfloat_saved s "ImagingParameters" "pulse_width_us" _ eq_refl Hx3)
    as (q3 & G3 & E3).
  pose proof (getint_saved s "ImagingParameters" "exposure_time_us" _ eq_refl) as I1.
  pose proof (getint_saved s "ImagingParameters" "end_delay_us" _ eq_refl) as I2.
  pose proof (getint_saved s "ImagingParameters" "light_intensity" _ eq_refl) as I3.
  pose proof (getint_saved s "ImagingParameters" "sets_to_acquire" _ eq_refl) as I4.
  pose proof (getint_saved s "ImagingParameters" "exposures_per_frame" _ eq_refl) as I5.
  unfold load_settings_from_file.
  replace (has_section s "ImagingParameters") with true by reflexivity.
  unfold read_current. rewrite I1, G1, G2, I2, G3, I3, I4, I5.
  cbn [bind].
  match goal with
  | |- context [any_minus_one ?p] =>
      assert (Heq : params_equiv p (params rld))
        by (repeat split; assumption);
      rewrite (any_minus_one_equiv _ _ Heq), Hm1;
      exists p; split; [reflexivity | exact Heq]
  end.
Qed.

Lemma delta_t_of_equiv (p q : ImagingParameters) :
  params_equiv p q -> delta_t_of p = delta_t_of q.
Proof.
  intros (_ & _ & H1 & H2 & _). unfold delta_t_of.
  apply Qeq_eqR. rewrite !num_val_py_sub, H1, H2. reflexivity.
Qed.

Lemma well_formed_saves (rld : RLD) (clock : option wall_clock) (npix : nat) :
  well_formed_stack (image_dict rld) npix ->
  fst (save_measurement rld clock) <> [].
Proof.
  intros ((N1 & _) & (N2 & _) & (N3 & _)). unfold save_measurement.
  destruct (at_window1 (image_dict rld)) as [ | a l1]; [congruence | ].
  destruct (at_window2 (image_dict rld)) as [ | b l2]; [congruence | ].
  destruct (at_dark (image_dict rld)) as [ | c l3]; [congruence | ].
  cbn. discriminate.
Qed.

Section Reload.
Local Open Scope R_scope.

(** X18: saving a measurement and loading the folder gives the lifetime
    map back.  For a well-formed stack and parameters without a -1 whose
    [float] fields are binary64 numbers (or integers below 2^53) that
    print exactly, [load_measurement] on a folder that holds what
    [save_measurement] wrote, listed in any order, ends normally with
    the object appended, shows no box but the warning on unequal window
    lengths, and the object it makes has the saved frames (up to their
    order), parameters equal in value to the saved ones, and the very
    lifetime map [calculate_average_lifetime] gives for the saved
    object. *)
Theorem saved_measurement_reloads (rld : RLD) (clock : option wall_clock)
    (as_written listing : list dir_entry) (npix : nat) :
  well_formed_stack (image_dict rld) npix ->
  any_minus_one (params rld) = false ->
  text_exact (params rld) = true ->
  binary64_fields (params rld) = true ->
  Forall2 shows as_written (fst (save_measurement rld clock)) ->
  Permutation as_written listing ->
  exists out rld',
    calculate_average_lifetime rld = Ok (set_average_lifetime (Some (Arr out)) rld) /\
    load_measurement listing
    = (rld',
       if equal_counts (image_dict rld) then []
       else ["Warning: Unequal number of window1, window2 and/or dark images in folder."%string],
       Ok true) /\
    average_lifetime rld' = Some (Arr out) /\
    params_equiv (params rld') (params rld) /\
    forall k, Permutation (dict_get (image_dict rld') k) (dict_get (image_dict rld) k).
Proof.
  intros Hwf Hm1 Hx _ Hshow Hperm.
  pose proof (well_formed_saves rld clock npix Hwf) as Hne.
  destruct (saved_folder_loads rld RLD_init clock as_written listing Hne Hshow Hperm)
    as (d & E & P & _).
  destruct (load_saved_settings rld (set_image_dict d RLD_init) Hm1 Hx)
    as (p' & L & Hp).
  set (rld2 := set_params p' (set_image_dict d RLD_init)) in *.
  assert (Hwf2 : well_formed_stack (image_dict rld2) npix).
  { destruct Hwf as (H1 & H2 & H3). cbn.
    exact (conj (frames_of_perm _ _ _ (Permutation_sym (P window1)) H1)
            (conj (frames_of_perm _ _ _ (Permutation_sym (P window2)) H2)
               (frames_of_perm _ _ _ (Permutation_sym (P dark)) H3))). }
  destruct (lifetime_map_ext rld rld2 npix Hwf Hwf2) as (out & E1 & E2 & _).
  { intros i _. cbn [rld2 params set_params].
    rewrite (delta_t_of_equiv _ _ Hp).
    unfold dark_subtracted. cbn [dict_get].
    change (image_dict rld2) with d.
    pose proof (P window1) as P1. pose proof (P window2) as P2.
    pose proof (P dark) as P3. cbn [dict_get] in P1, P2, P3.
    rewrite (pixel_mean_perm _ _ i P1), (pixel_mean_perm _ _ i P2),
      (pixel_mean_perm _ _ i P3).
    reflexivity. }
  exists out, (set_average_lifetime (Some (Arr out)) rld2).
  split; [exact E1 | ]. split; [ | split; [reflexivity | split; [exact Hp | ]]].
  - unfold load_measurement. rewrite E.
    rewrite (conf_of_saved rld clock as_written listing Hne Hshow Hperm), L, E2.
    destruct (equal_counts (image_dict rld)); reflexivity.
  - intros k. destruct k; apply P.
Qed.

Lemma saved_measurement_reloads_witness :
  exists out rld',
    calculate_average_lifetime rld_two_frames
    = Ok (set_average_lifetime (Some (Arr out)) rld_two_frames) /\
    load_measurement (rev (map entry_of (fst (save_measurement rld_two_frames None))))
    = (rld',
       if equal_counts (image_dict rld_two_frames) then []
       else ["Warning: Unequal number of window1, window2 and/or dark images in folder."%string],
       Ok true) /\
    average_lifetime rld' = Some (Arr out) /\
    params_equiv (params rld') (params rld_two_frames) /\
    forall k, Permutation (dict_get (image_dict rld') k)
                (dict_get (image_dict rld_two_frames) k).
Proof.
  apply (saved_measurement_reloads rld_two_frames None
           (map entry_of (fst (save_measurement rld_two_frames None))) _ 2).
  - repeat split; try discriminate; repeat constructor.
  - vm_compute. reflexivity.
  - vm_compute. reflexivity.
  - vm_compute. reflexivity.
  - vm_compute. repeat constructor.
  - apply Permutation_rev.
Defined.

End Reload.

Lemma load_settings_status_any_object (self self' : RLD) (file : file_state) :
  snd (load_settings_from_file self file) = snd (load_settings_from_file self' file).
Proof.
  unfold load_settings_from_file.
  destruct file as [ | | settings]; try reflexivity.
  destruct (has_section settings "ImagingParameters").
  - destruct (read_current settings default_params) as [p | e].
    + destruct (any_minus_one p); reflexivity.
    + destruct (exn_is e "ValueError"); reflexivity.
  - destruct (has_section settings "Settings"); [ | reflexivity].
    destruct (read_legacy settings default_params) as [p | e].
    + destruct (any_minus_one p); reflexivity.
    + destruct (exn_is e "ValueError"); reflexivity.
Qed.

Lemma load_images_keeps_params (self : RLD) (listing : list dir_entry) :
  params (fst (load_images_from_folder self listing)) = params self.
Proof.
  unfold load_images_from_folder.
  destruct (is_empty _ || is_empty _ || is_empty _); [reflexivity | ].
  destruct (negb _ || negb _ || negb _); reflexivity.
Qed.

Lemma calculate_average_lifetime_keeps_params (self self' : RLD) :
  calculate_average_lifetime self = Ok self' -> params self' = params self.
Proof.
  unfold calculate_average_lifetime.
  repeat match goal with
         | |- context [bind ?m _] => destruct m; cbn [bind]; try discriminate
         end.
  intros [= <-]. reflexivity.
Qed.

(** X19: a measurement loaded without usable settings has the default
    parameters.  Whenever the settings file of the folder does not load
    with status 0 (there is none, it is incomplete or corrupt, or reading
    it raises), the object [load_measurement] leaves in [self.rld] has
    the parameters of a fresh [RLD()]: the settings shown before the call
    play no part, and a lifetime map, if one is computed, uses the
    default delays. *)
Theorem load_measurement_default_params (listing : list dir_entry) :
  snd (load_settings_from_file RLD_init (conf_of listing)) <> Ok (Some 0) ->
  params (fst (fst (load_measurement listing))) = default_params.
Proof.
  intros Hst. unfold load_measurement.
  pose proof (load_images_keeps_params RLD_init listing) as Hp.
  destruct (load_images_from_folder RLD_init listing) as [rld [st | ]];
    cbn [fst] in Hp; [ | exact Hp].
  rewrite (load_settings_status_any_object RLD_init rld) in Hst.
  pose proof (load_settings_changes_only_on_success rld (conf_of listing) Hst) as Hk.
  destruct (load_settings_from_file rld (conf_of listing)) as [rld2 [cst | e]];
    cbn [fst] in Hk; subst rld2; [ | exact Hp].
  destruct (calculate_average_lifetime rld) as [rld3 | e] eqn:E; cbn [fst].
  - rewrite (calculate_average_lifetime_keeps_params _ _ E). exact Hp.
  - exact Hp.
Qed.

Lemma load_measurement_default_params_witness :
  params (fst (fst (load_measurement folder_without_settings))) = default_params.
Proof.
  apply (load_measurement_default_params folder_without_settings).
  vm_compute. discriminate.
Defined.

(** ** The tool tip of an image label *)

Lemma scaled_index_in_range (d n pix : Z) :
  0 <= d < pix -> 0 < n -> 0 <= d * n / pix < n.
Proof.
  intros [Hd Hp] Hn. split.
  - apply Z.div_pos; nia.
  - apply Z.div_lt_upper_bound; nia.
Qed.

Lemma getitem_in_range {V} (a : array2 V) (h w : nat) (i j : Z) :
  has_shape a h w -> 0 <= i < Z.of_nat h -> 0 <= j < Z.of_nat w ->
  exists v, getitem a i j = Ok v.
Proof.
  intros [Hh Hrows] Hi Hj. unfold getitem.
  destruct (nth_error a (Z.to_nat i)) as [row | ] eqn:E.
  - assert (Hrow : List.length row = w).
    { rewrite Forall_forall in Hrows. apply Hrows. eapply nth_error_In; exact E. }
    destruct (nth_error row (Z.to_nat j)) as [v | ] eqn:E2; [eauto | ].
    apply nth_error_None in E2. lia.
  - apply nth_error_None in E. lia.
Qed.

(** X20: the tool tip of an image label.  For an array of [h > 0] rows
    and [w > 0] columns and any geometry of label and pixmap, moving the
    mouse never raises (no division by zero, no index error).  With
    [(dx, dy)] the cursor relative to the centred pixmap: inside the
    pixmap the tool tip names the pixel [(dx * w // pix_w, dy * h //
    pix_h)], which lies within the array, so that the clamping changes
    nothing, and shows the array's value there; outside, the tool tip is
    cleared. *)
Theorem tooltip_index_in_range {V} (self : ImageLabel V) (arr : array2 V)
    (pix_w pix_h : Z) (h w : nat) (x y : Z) :
  image_array self = Some arr ->
  last_pixmap self = Some (pix_w, pix_h) ->
  has_shape arr h w -> (0 < h)%nat -> (0 < w)%nat ->
  let dx := x - (label_width self - pix_w) / 2 in
  let dy := y - (label_height self - pix_h) / 2 in
  (0 <= dx < pix_w /\ 0 <= dy < pix_h /\
   exists v,
     mouseMoveEvent self x y
     = Ok (Some (dx * Z.of_nat w / pix_w, dy * Z.of_nat h / pix_h, v)) /\
     getitem arr (dy * Z.of_nat h / pix_h) (dx * Z.of_nat w / pix_w) = Ok v /\
     0 <= dx * Z.of_nat w / pix_w < Z.of_nat w /\
     0 <= dy * Z.of_nat h / pix_h < Z.of_nat h) \/
  (~ (0 <= dx < pix_w /\ 0 <= dy < pix_h) /\ mouseMoveEvent self x y = Ok None).
Proof.
  intros Ha Hp Hs Hh Hw dx dy.
  unfold mouseMoveEvent. rewrite Ha, Hp. cbv zeta.
  assert (S0 : shape0 arr = Z.of_nat h) by (unfold shape0; now rewrite (proj1 Hs)).
  assert (S1 : shape1 arr = Z.of_nat w).
  { unfold shape1. destruct Hs as [Hl Hrows]. destruct arr as [ | row rest].
    - cbn in Hl. lia.
    - inversion Hrows. subst. cbn. congruence. }
  rewrite S0, S1. fold dx dy.
  set (xo := (label_width self - pix_w) / 2) in *.
  set (yo := (label_height self - pix_h) / 2) in *.
  destruct ((xo <=? x) && (x <? xo + pix_w) && (yo <=? y) && (y <? yo + pix_h)) eqn:G.
  - left.
    apply andb_prop in G as [G G4]. apply andb_prop in G as [G G3].
    apply andb_prop in G as [G1 G2].
    apply Z.leb_le in G1, G3. apply Z.ltb_lt in G2, G4.
    assert (Dx : 0 <= dx < pix_w) by (unfold dx; lia).
    assert (Dy : 0 <= dy < pix_h) by (unfold dy; lia).
    pose proof (scaled_index_in_range dx (Z.of_nat w) pix_w Dx ltac:(lia)) as Ix.
    pose proof (scaled_index_in_range dy (Z.of_nat h) pix_h Dy ltac:(lia)) as Iy.
    destruct (getitem_in_range arr h w _ _ Hs Iy Ix) as (v & Ev).
    split; [exact Dx | split; [exact Dy | ]]. exists v.
    unfold py_floordiv.
    replace (pix_w =? 0) with false by (symmetry; apply Z.eqb_neq; lia).
    replace (pix_h =? 0) with false by (symmetry; apply Z.eqb_neq; lia).
    cbn [bind].
    rewrite (Z.min_r (Z.of_nat w - 1)), (Z.min_r (Z.of_nat h - 1)) by lia.
    rewrite !Z.max_r by lia.
    rewrite Ev. cbn [bind]. repeat split; try assumption; lia.
  - right. split; [ | reflexivity].
    intros [Dx Dy].
    assert (T : (xo <=? x) && (x <? xo + pix_w) && (yo <=? y) && (y <? yo + pix_h) = true).
    { rewrite !andb_true_iff, !Z.leb_le, !Z.ltb_lt. unfold dx, dy in *. lia. }
    congruence.
Qed.

Lemma tooltip_index_in_range_witness :
  let dx := 30 - (label_width label_2x3 - 30) / 2 in
  let dy := 15 - (label_height label_2x3 - 20) / 2 in
  (0 <= dx < 30 /\ 0 <= dy < 20 /\
   exists v,
     mouseMoveEvent label_2x3 30 15
     = Ok (Some (dx * Z.of_nat 3 / 30, dy * Z.of_nat 2 / 20, v)) /\
     getitem [[1; 2; 3]; [4; 5; 6]] (dy * Z.of_nat 2 / 20) (dx * Z.of_nat 3 / 30) = Ok v /\
     0 <= dx * Z.of_nat 3 / 30 < Z.of_nat 3 /\
     0 <= dy * Z.of_nat 2 / 20 < Z.of_nat 2) \/
  (~ (0 <= dx < 30 /\ 0 <= dy < 20) /\ mouseMoveEvent label_2x3 30 15 = Ok None).
Proof.
  apply (tooltip_index_in_range label_2x3 [[1; 2; 3]; [4; 5; 6]] 30 20 2 3 30 15).
  - reflexivity.
  - reflexivity.
  - split; [reflexivity | repeat constructor].
  - lia.
  - lia.
Defined.

(** ** The USB watcher *)

Lemma device_filter_cases (info : usb_info) :
  device_filter info = Some "controller"%string \/
  device_filter info = Some "camera"%string \/
  device_filter info = None.
Proof.
  unfold device_filter. destruct (assoc "ID_VENDOR_ID" info) as [vid | ]; [ | auto].
  destruct (String.eqb vid ARDUINO_VID); [auto | ].
  destruct (String.eqb vid XIMEA_VID); auto.
Qed.

Lemma length_dict_set {A} (k : string) (v : A) (d : list (string * A)) :
  List.length (dict_set k v d)
  = if has_key k d then List.length d else S (List.length d).
Proof.
  unfold has_key. induction d as [ | [k' v'] rest IH]; [reflexivity | ].
  cbn [dict_set assoc]. destruct (String.eqb k k'); [reflexivity | ].
  cbn [List.length]. rewrite IH. now destruct (assoc k rest).
Qed.

Lemma length_dict_pop {A} (k : string) (d : list (string * A)) :
  List.length (dict_pop k d)
  = if has_key k d then pred (List.length d) else List.length d.
Proof.
  unfold has_key. induction d as [ | [k' v'] rest IH]; [reflexivity | ].
  cbn [dict_pop assoc]. destruct (String.eqb k k'); [reflexivity | ].
  cbn [List.length]. rewrite IH.
  destruct (assoc k rest) eqn:E; [ | reflexivity].
  destruct rest; [discriminate E | reflexivity].
Qed.

Lemma has_key_length {A} (k : string) (d : list (string * A)) :
  has_key k d = true -> (0 < List.length d)%nat.
Proof. destruct d; [discriminate | cbn; lia]. Qed.

(** X21: one report from the USB monitor, on a watcher whose counters
    agree with its dictionaries.  For a device of another vendor
    [device_filter] gives [None] and the membership test on it raises
    TypeError.  For a controller or a camera the callback emits exactly
    one signal, and the counters still agree afterwards exactly when the
    report fits the state (a device not yet listed is plugged in, or a
    listed one is unplugged): a repeated or unmatched report makes the
    counter differ from the number of listed devices. *)
Theorem usb_report_step (self : USBWatcher) (r : usb_report) :
  counts_agree self ->
  (device_filter (report_info r) = None /\ on_report self r = Raise TypeError) \/
  (exists self' sig,
     on_report self r = Ok (self', [sig]) /\
     (counts_agree self' <-> fits self r = true)).
Proof.
  intros [Hc Hk].
  destruct r as [dev_id info | dev_id info]; cbn [report_info on_report fits];
    unfold on_connect, on_disconnect;
    destruct (device_filter_cases info) as [E | [E | E]]; rewrite E;
    try (left; split; reflexivity); right; cbn;
    eexists; eexists; (split; [reflexivity | ]);
    unfold counts_agree; cbn [controllers cameras number_of_controllers number_of_cameras];
    rewrite ?length_dict_set, ?length_dict_pop, Hc, Hk.
  - destruct (has_key dev_id (controllers self)); cbn; split; intros H;
      try discriminate; try (split; lia); destruct H; lia.
  - destruct (has_key dev_id (cameras self)); cbn; split; intros H;
      try discriminate; try (split; lia); destruct H; lia.
  - destruct (has_key dev_id (controllers self)) eqn:K; cbn; split; intros H;
      try discriminate; try (apply has_key_length in K; split; lia); destruct H; lia.
  - destruct (has_key dev_id (cameras self)) eqn:K; cbn; split; intros H;
      try discriminate; try (apply has_key_length in K; split; lia); destruct H; lia.
Qed.

Lemma usb_report_step_witness :
  (device_filter (report_info (Plugged "usb1" [("ID_VENDOR_ID", "2341")]%string)) = None /\
   on_report watcher_empty (Plugged "usb1" [("ID_VENDOR_ID", "2341")]%string)
   = Raise TypeError) \/
  (exists self' sig,
     on_report watcher_empty (Plugged "usb1" [("ID_VENDOR_ID", "2341")]%string)
     = Ok (self', [sig]) /\
     (counts_agree self'
      <-> fits watcher_empty (Plugged "usb1" [("ID_VENDOR_ID", "2341")]%string) = true)).
Proof.
  apply (usb_report_step watcher_empty (Plugged "usb1" [("ID_VENDOR_ID", "2341")]%string)).
  split; reflexivity.
Defined.

Lemma fitting_report_keeps_counts (self : USBWatcher) (r : usb_report) :
  counts_agree self -> fits self r = true ->
  exists self' sig, on_report self r = Ok (self', [sig]) /\ counts_agree self'.
Proof.
  intros [Hc Hk] Hfit.
  destruct r as [dev_id info | dev_id info]; cbn [on_report fits] in *;
    unfold on_connect, on_disconnect;
    destruct (device_filter_cases info) as [E | [E | E]]; rewrite E in *;
    try discriminate Hfit; cbn in *;
    eexists; eexists; (split; [reflexivity | ]);
    unfold counts_agree; cbn [controllers cameras number_of_controllers number_of_cameras];
    rewrite ?length_dict_set, ?length_dict_pop, Hc, Hk.
  - apply negb_true_iff in Hfit. rewrite Hfit. split; lia.
  - apply negb_true_iff in Hfit. rewrite Hfit. split; lia.
  - rewrite Hfit. apply has_key_length in Hfit. split; lia.
  - rewrite Hfit. apply has_key_length in Hfit. split; lia.
Qed.

(** X22: the counters of the watcher are kept right by reports that fit.
    From a state whose counters agree with the dictionaries, any sequence
    of reports each of which fits the state it arrives in is handled
    without an exception, emits one signal per report, and ends in a
    state whose counters agree again. *)
Theorem counts_agree_while_reports_fit (rs : list usb_report) :
  forall self : USBWatcher,
    counts_agree self -> all_fit self rs = true ->
    exists self' sigs,
      on_reports self rs = Ok (self', sigs) /\
      counts_agree self' /\
      List.length sigs = List.length rs.
Proof.
  induction rs as [ | r rest IH]; intros self Hagree Hfit.
  - exists self, []. repeat split; [apply Hagree | apply Hagree].
  - cbn [all_fit] in Hfit. apply andb_prop in Hfit as [Hr Hrest].
    destruct (fitting_report_keeps_counts self r Hagree Hr) as (self1 & sig & E & H1).
    rewrite E in Hrest.
    destruct (IH self1 H1 Hrest) as (self2 & sigs & E2 & H2 & L).
    exists self2, (sig :: sigs). cbn [on_reports]. rewrite E, E2.
    repeat split; [apply H2 | apply H2 | cbn; now rewrite L].
Qed.

Lemma counts_agree_while_reports_fit_witness :
  exists self' sigs,
    on_reports watcher_empty reports_three = Ok (self', sigs) /\
    counts_agree self' /\
    List.length sigs = List.length reports_three.
Proof.
  apply (counts_agree_while_reports_fit reports_three watcher_empty).
  - split; reflexivity.
  - vm_compute. reflexivity.
Defined.

Lemma dict_set_absent {A} (k : string) (v : A) (d : list (string * A)) :
  ~ In k (map fst d) -> dict_set k v d = (d ++ [(k, v)])%list.
Proof.
  induction d as [ | [k' v'] rest IH]; intros Hk; [reflexivity | ].
  cbn [dict_set]. cbn in Hk.
  destruct (String.eqb_spec k k') as [-> | _]; [tauto | ].
  cbn. rewrite IH by tauto. reflexivity.
Qed.

Lemma NoDup_keys_step {A} (acc rest : list (string * A)) (d : string * A) :
  NoDup (map fst acc ++ map fst (d :: rest)) ->
  ~ In (fst d) (map fst acc) /\
  NoDup (map fst acc ++ map fst rest) /\
  NoDup (map fst (acc ++ [d]) ++ map fst rest).
Proof.
  cbn [map]. intros H.
  pose proof (NoDup_remove _ _ _ H) as [H1 H2].
  split; [intros Hin; apply H2, in_or_app; left; exact Hin | ].
  split; [exact H1 | ].
  rewrite map_app, <- app_assoc. exact H.
Qed.

Lemma update_controllers_listing (devices : list (string * usb_info)) :
  forall acc,
    NoDup (map fst acc ++ map fst devices) ->
    update_controllers devices acc
    = if existsb foreign devices then Raise TypeError
      else Ok (acc ++ filter (device_is "controller") devices)%list.
Proof.
  induction devices as [ | [device info] rest IH]; intros acc Hnd.
  - cbn. now rewrite app_nil_r.
  - destruct (NoDup_keys_step acc rest (device, info) Hnd) as (Hk & H1 & H2).
    cbn [update_controllers existsb filter]. unfold foreign at 1, device_is at 1.
    cbn [snd fst] in *.
    destruct (device_filter_cases info) as [E | [E | E]]; rewrite E; cbn.
    + rewrite (dict_set_absent _ _ _ Hk), (IH _ H2).
      destruct (existsb foreign rest); [reflexivity | ].
      now rewrite <- app_assoc.
    + apply (IH _ H1).
    + reflexivity.
Qed.

Lemma update_cameras_listing (devices : list (string * usb_info)) :
  forall acc,
    NoDup (map fst acc ++ map fst devices) ->
    update_cameras devices acc = (acc ++ filter (device_is "camera") devices)%list.
Proof.
  induction devices as [ | [device info] rest IH]; intros acc Hnd.
  - cbn. now rewrite app_nil_r.
  - destruct (NoDup_keys_step acc rest (device, info) Hnd) as (Hk & H1 & H2).
    cbn [update_cameras filter]. unfold device_is at 1. cbn [snd fst] in *.
    destruct (device_filter_cases info) as [E | [E | E]]; rewrite E; cbn.
    + apply (IH _ H1).
    + rewrite (dict_set_absent _ _ _ Hk), (IH _ H2). now rewrite <- app_assoc.
    + apply (IH _ H1).
Qed.

(** X23: the watcher made by [__init__] from the devices the monitor
    lists (a dictionary, so with pairwise different keys).  If a listed
    device is of another vendor, [update_controllers] raises TypeError on
    it; otherwise the watcher lists the controllers and the cameras among
    the devices, each in listing order, and its two counters are their
    numbers. *)
Theorem watcher_init_outcome (devices : list (string * usb_info)) :
  NoDup (map fst devices) ->
  USBWatcher_init devices
  = if existsb foreign devices then Raise TypeError
    else
      let controllers := filter (device_is "controller") devices in
      let cameras := filter (device_is "camera") devices in
      Ok (mkWatcher controllers cameras
            (Z.of_nat (List.length controllers)) (Z.of_nat (List.length cameras))).
Proof.
  intros Hnd. unfold USBWatcher_init.
  rewrite (update_controllers_listing devices [] Hnd),
    (update_cameras_listing devices [] Hnd).
  destruct (existsb foreign devices); reflexivity.
Qed.

Lemma watcher_init_outcome_witness :
  USBWatcher_init devices_two
  = if existsb foreign devices_two then Raise TypeError
    else
      let controllers := filter (device_is "controller") devices_two in
      let cameras := filter (device_is "camera") devices_two in
      Ok (mkWatcher controllers cameras
            (Z.of_nat (List.length controllers)) (Z.of_nat (List.length cameras))).
Proof.
  apply (watcher_init_outcome devices_two).
  repeat constructor; cbn; intuition discriminate.
Defined.
